(** * Diretta DDS calculator and log analyser: a shallow embedding

    This development embeds [diretta_calc.py] and verifies its frame
    calculator ([DirettaCalculator]), its log analysis pipeline
    ([DirettaMonitor]: extractor, statistics, classifier, report builder),
    its configuration writer ([generate_config]), its settings check
    ([validate_settings]) and its MTU detection ([detect_network_mtu]).

    Modelling conventions.
    - Python [int] is [Z]; Python [float] is idealised as an exact rational
      [Q] (no rounding, no infinities, no NaN).  [np.std] needs a square
      root, which is not rational: it is a parameter of the development.
      The source computes in binary64.  Its integer results, and which of
      its calls raise, are those of the exact computation as long as the
      integers involved stay within [exact_limit]; beyond it the source
      rounds, and beyond the range of binary64 it raises [OverflowError] or
      yields an infinity.  A theorem that says a call returns, or that
      compares a result with exact arithmetic, therefore carries such a
      bound in its hypotheses.
    - Text handed to [re] is a [string] whose characters are code points
      below 256; [\s] and [\d] are Python's Unicode classes restricted to
      that range.
    - An exception is a [None]; [try ... except] is a match on the option.
    - The report is the list of lines that the source joins with newlines.
      A line is a list of pieces: literal text and formatted holes of an
      f-string.
    - The outside world (clock, configuration files, journal) is an explicit
      record [World]; the monitor object is a record that is threaded
      through [analyze_recent_logs].  The commands and the directory that
      the MTU detection reads are the record [Net]. *)

From Stdlib Require Import ZArith QArith Qround Qabs Lia Lqa Bool.
From Stdlib Require Import String Ascii List Sorted.
Import ListNotations.

(** ** Python numerics *)

(** [int(x)] on a float: truncation towards zero. *)
Definition py_int (x : Q) : Z := Z.quot (Qnum x) (Zpos (Qden x)).

(** The integers up to which the exact computation and the binary64
    computation of the source go together: every integer of at most this
    magnitude, also after the frame overhead is taken off or added, is a
    binary64 value, and a quotient of two of them is rounded to a value
    with the same integer part. *)
Definition exact_limit : Z := 2 ^ 52.

(** A magnitude within the range of binary64, whose largest value is about
    1.797e308, with room for the difference of two values of that
    magnitude: a whole number written with at most 307 digits is read by
    [float] as a finite value. *)
Definition finite_limit : Z := 10 ^ 307.

(** True division [a / b]; [None] is [ZeroDivisionError].  The quotient is
    exact; the source rounds it to binary64, and raises [OverflowError]
    when it leaves the range of binary64. *)
Definition py_div (a b : Q) : option Q :=
  if Qeq_bool b 0 then None else Some (a / b)%Q.

(** Truthiness of a number: [if x:] holds unless [x] is zero. *)
Definition truthy (x : Q) : bool := negb (Qeq_bool x 0).

(** Truthiness of an optional number ([None] is falsy). *)
Definition truthy_opt (x : option Q) : bool :=
  match x with
  | Some v => truthy v
  | None => false
  end.

(** Bind of the exception monad. *)
Definition bind {A B : Type} (m : option A) (f : A -> option B) : option B :=
  match m with
  | Some a => f a
  | None => None
  end.

Notation "x <- m ;; k" := (bind m (fun x => k))
  (at level 61, m at next level, right associativity).

(** ** Frame Parameter Calculator ([class DirettaCalculator]) *)

Module Calculator.

Definition ETH_HEADER : Z := 14.
Definition DIRETTA_HEADER : Z := 2.
Definition VLAN_OVERHEAD : Z := 4.
Definition FCS : Z := 4.

Record DirettaCalculator := mkCalculator {
  mtu : Z;
  overhead : Z;
  available_payload : Z
}.

(** [__init__(self, mtu)]. *)
Definition new_calculator (m : Z) : DirettaCalculator :=
  let oh := (ETH_HEADER + DIRETTA_HEADER + VLAN_OVERHEAD)%Z in
  {| mtu := m; overhead := oh; available_payload := (m - oh)%Z |}.

(** The dictionary returned by [calculate_frame_params]. *)
Record FrameParams := mkFrameParams {
  sample_rate : Z;
  sample_rate_mhz : Q;
  samples_per_frame : Z;
  audio_bytes : Z;
  total_frame_size : Z;
  cycle_time_us : Q;
  cycle_time_ms : Q;
  packet_rate_hz : Q;
  bytes_per_sample : Q;
  is_dsd : bool
}.

(** [calculate_frame_params(self, sample_rate, is_dsd)]; [None] is the
    [ZeroDivisionError] of one of its divisions.  With an MTU and a rate
    within [exact_limit] the source returns and raises as this function
    does, with the same integer fields; its float fields are the binary64
    roundings of the rationals computed here. *)
Definition calculate_frame_params (self : DirettaCalculator)
    (rate : Z) (dsd : bool) : option FrameParams :=
  let bps : Q := if dsd then (1 # 4) else 6 in
  a8 <- py_div (inject_Z (available_payload self)) 8 ;;
  let audio_bytes_max := (py_int a8 * 8)%Z in
  s <- py_div (inject_Z audio_bytes_max) bps ;;
  let spf := py_int s in
  let ab := py_int (inject_Z spf * bps) in
  r <- py_div (inject_Z spf) (inject_Z rate) ;;
  let ct := (r * 1000000)%Q in
  pr <- py_div (inject_Z rate) (inject_Z spf) ;;
  let tfs := (ETH_HEADER + DIRETTA_HEADER + ab + FCS)%Z in
  mhz <- py_div (inject_Z rate) 1000000 ;;
  ms <- py_div ct 1000 ;;
  Some {| sample_rate := rate;
          sample_rate_mhz := mhz;
          samples_per_frame := spf;
          audio_bytes := ab;
          total_frame_size := tfs;
          cycle_time_us := ct;
          cycle_time_ms := ms;
          packet_rate_hz := pr;
          bytes_per_sample := bps;
          is_dsd := dsd |}.

(** *** The calculator as the specification words it *)

Definition spec_overhead : Z := 14 + 2 + 4.

Definition spec_bytes_per_sample (dsd : bool) : Q :=
  if dsd then (1 # 4) else 6.

Definition spec_samples_per_frame (m : Z) (dsd : bool) : Z :=
  Qfloor (inject_Z (Qfloor (inject_Z (m - spec_overhead) / 8) * 8)
          / spec_bytes_per_sample dsd).

Definition spec_audio_bytes (m : Z) (dsd : bool) : Z :=
  Qfloor (inject_Z (spec_samples_per_frame m dsd) * spec_bytes_per_sample dsd).

(** What the specification promises of one call: the call returns, and
    each field is the stated formula. *)
Definition frame_params_as_specified (m rate : Z) (dsd : bool) : Prop :=
  exists p,
    calculate_frame_params (new_calculator m) rate dsd = Some p /\
    available_payload (new_calculator m) = (m - 20)%Z /\
    bytes_per_sample p = spec_bytes_per_sample dsd /\
    samples_per_frame p = spec_samples_per_frame m dsd /\
    audio_bytes p = spec_audio_bytes m dsd /\
    (cycle_time_us p ==
       inject_Z (samples_per_frame p) / inject_Z rate * 1000000)%Q /\
    (packet_rate_hz p == inject_Z rate / inject_Z (samples_per_frame p))%Q /\
    total_frame_size p = (14 + 2 + audio_bytes p + 4)%Z.

(** [x] is the largest multiple of [d] that does not exceed [bound]. *)
Definition largest_multiple (d bound x : Z) : Prop :=
  (d | x)%Z /\ (x <= bound)%Z /\
  (forall k, (d | k)%Z -> (k <= bound)%Z -> (k <= x)%Z).

(** The frame geometry invariant as the specification words it:
    [audio_bytes] fits the payload budget, is the product
    [samples_per_frame * bytes_per_sample], and is the largest multiple of 8
    that fits in [mtu - overhead]. *)
Definition frame_geometry_as_specified (m rate : Z) (dsd : bool) : Prop :=
  forall p,
    calculate_frame_params (new_calculator m) rate dsd = Some p ->
    (audio_bytes p <= m - spec_overhead)%Z /\
    (inject_Z (audio_bytes p) ==
       inject_Z (samples_per_frame p) * bytes_per_sample p)%Q /\
    largest_multiple 8 (m - spec_overhead) (audio_bytes p).

(** The payload rounded down to the 8-byte alignment: the value of the
    local [audio_bytes_max] when the payload is not negative. *)
Definition aligned_payload (m : Z) : Z := (8 * ((m - 20) / 8))%Z.

End Calculator.

(** ** A backtracking matcher for the patterns of the source

    The fragment of Python's [re] that the two patterns use: literals,
    character classes, greedy [?], [+] and [*] over a class, concatenation
    and capturing groups.  Matching is by backtracking with a continuation,
    the longest repetition first, as [re] does. *)

Definition code (c : ascii) : nat := nat_of_ascii c.

(** [\s] on code points below 256. *)
Definition is_space (c : ascii) : bool :=
  let n := code c in
  ((9 <=? n) && (n <=? 13)) || ((28 <=? n) && (n <=? 32))
  || (n =? 133) || (n =? 160).

(** [\d] on code points below 256. *)
Definition is_digit (c : ascii) : bool :=
  let n := code c in (48 <=? n) && (n <=? 57).

(** [[+-]]. *)
Definition is_sign (c : ascii) : bool :=
  Ascii.eqb c "+" || Ascii.eqb c "-".

Inductive regex : Type :=
| Lit (s : string)               (* a literal string *)
| Cls (p : ascii -> bool)        (* one character of a class *)
| Opt (r : regex)                (* r?   *)
| Plus (p : ascii -> bool)       (* [p]+ *)
| Star (p : ascii -> bool)       (* [p]* *)
| Cat (r1 r2 : regex)            (* r1 r2 *)
| Grp (r : regex).               (* ( r ) *)

(** Captured groups, in the order the groups close, and the rest of the
    input after the match. *)
Definition captures := list string.
Definition outcome := option (captures * string).
Definition cont := string -> captures -> outcome.

Fixpoint strip_prefix (lit s : string) : option string :=
  match lit with
  | EmptyString => Some s
  | String a lit' =>
      match s with
      | String b s' => if Ascii.eqb a b then strip_prefix lit' s' else None
      | EmptyString => None
      end
  end.

Fixpoint take (n : nat) (s : string) : string :=
  match n, s with
  | S n', String c s' => String c (take n' s')
  | _, _ => EmptyString
  end.

(** Greedy repetition of a class: consume while the class holds, then give
    the characters back one at a time until the continuation succeeds. *)
Fixpoint star_loop (p : ascii -> bool) (s : string) (caps : captures)
    (k : cont) : outcome :=
  match s with
  | String c s' =>
      if p c then
        match star_loop p s' caps k with
        | Some r => Some r
        | None => k s caps
        end
      else k s caps
  | EmptyString => k s caps
  end.

Fixpoint rmatch (r : regex) (s : string) (caps : captures) (k : cont)
    : outcome :=
  match r with
  | Lit l =>
      match strip_prefix l s with
      | Some s' => k s' caps
      | None => None
      end
  | Cls p =>
      match s with
      | String c s' => if p c then k s' caps else None
      | EmptyString => None
      end
  | Opt r1 =>
      match rmatch r1 s caps k with
      | Some x => Some x
      | None => k s caps
      end
  | Plus p =>
      match s with
      | String c s' => if p c then star_loop p s' caps k else None
      | EmptyString => None
      end
  | Star p => star_loop p s caps k
  | Cat r1 r2 => rmatch r1 s caps (fun s' caps' => rmatch r2 s' caps' k)
  | Grp r1 =>
      rmatch r1 s caps
        (fun s' caps' =>
           k s' (caps' ++ [take (String.length s - String.length s') s]))
  end.

(** One match attempt anchored at the head of [s]. *)
Definition match_at (r : regex) (s : string) : outcome :=
  rmatch r s [] (fun s' caps => Some (caps, s')).

(** [re.finditer]: scan left to right; after a match resume where it ended
    (one character further when the match was empty).  [skip] counts the
    characters of the current match still to be passed over. *)
Fixpoint finditer_from (r : regex) (skip : nat) (s : string)
    : list captures :=
  match s with
  | EmptyString =>
      match skip with
      | O => match match_at r s with
             | Some (caps, _) => [caps]
             | None => []
             end
      | S _ => []
      end
  | String _ s' =>
      match skip with
      | S n => finditer_from r n s'
      | O =>
          match match_at r s with
          | Some (caps, rest) =>
              caps :: finditer_from r
                        (String.length s - String.length rest - 1) s'
          | None => finditer_from r 0 s'
          end
      end
  end.

Definition finditer (r : regex) (s : string) : list captures :=
  finditer_from r 0 s.

(** [re.search]: the first match, if any. *)
Definition search (r : regex) (s : string) : option captures :=
  match finditer r s with
  | caps :: _ => Some caps
  | [] => None
  end.

(** [match.group(i)] for [i >= 1]; [None] is [IndexError]. *)
Definition group (i : nat) (caps : captures) : option string :=
  nth_error caps (i - 1).

(** *** [float(...)] on text *)

Definition digit_value (c : ascii) : Z := Z.of_nat (code c) - 48.

(** Value of a run of digits read after [acc]; [None] when the run is
    empty at the top or holds a character that is not a digit. *)
Fixpoint digits_from (acc : Z) (s : string) : option Z :=
  match s with
  | EmptyString => Some acc
  | String c s' =>
      if is_digit c then digits_from (acc * 10 + digit_value c) s' else None
  end.

Definition digits (s : string) : option Z :=
  match s with
  | EmptyString => None
  | _ => digits_from 0 s
  end.

(** Split at the first dot. *)
Fixpoint split_dot (s : string) : string * option string :=
  match s with
  | EmptyString => (EmptyString, None)
  | String c s' =>
      if Ascii.eqb c "." then (EmptyString, Some s')
      else let '(a, b) := split_dot s' in (String c a, b)
  end.

Definition unsigned_decimal (s : string) : option Q :=
  match split_dot s with
  | (ip, None) => n <- digits ip ;; Some (inject_Z n)
  | (ip, Some fp) =>
      n <- digits ip ;;
      f <- digits fp ;;
      Some (Qmake (n * 10 ^ Z.of_nat (String.length fp) + f)
                  (Pos.pow 10 (Pos.of_nat (String.length fp))))
  end.

(** [float(s)] on the decimal spellings [sign? digits] and
    [sign? digits . digits]; [None] is [ValueError].  Python reads further
    spellings (exponents, [inf], [nan], blanks around the number); no
    group of the patterns below can hold one of those.  The value is the
    exact one; the source rounds it to binary64, which leaves a whole
    number below [2 ^ 53] as it is, and yields an infinity from about 309
    digits on. *)
Definition py_float (s : string) : option Q :=
  match s with
  | String c s' =>
      if Ascii.eqb c "-" then option_map Qopp (unsigned_decimal s')
      else if Ascii.eqb c "+" then unsigned_decimal s'
      else unsigned_decimal s
  | EmptyString => None
  end.

(** ** Log Sample Extractor ([DirettaMonitor.parse_diretta_logs]) *)

(** [[+-]?\d+\.\d+] *)
Definition number_re : regex :=
  Cat (Opt (Cls is_sign)) (Cat (Plus is_digit) (Cat (Lit ".") (Plus is_digit))).

(** [info\s+rcv\s+\d+\s+([+-]?\d+\.\d+)\s+([+-]?\d+\.\d+)\s+([+-]?\d+\.\d+)\s+cy=(\d+)] *)
Definition pattern : regex :=
  Cat (Lit "info") (Cat (Plus is_space) (Cat (Lit "rcv") (Cat (Plus is_space)
  (Cat (Plus is_digit) (Cat (Plus is_space)
  (Cat (Grp number_re) (Cat (Plus is_space)
  (Cat (Grp number_re) (Cat (Plus is_space)
  (Cat (Grp number_re) (Cat (Plus is_space)
  (Cat (Lit "cy=") (Grp (Plus is_digit)))))))))))))).

(** A Python dict with string keys, in insertion order. *)
Definition dict (V : Type) := list (string * V).

Fixpoint dict_get {V : Type} (d : dict V) (key : string) : option V :=
  match d with
  | [] => None
  | (k, v) :: d' => if String.eqb k key then Some v else dict_get d' key
  end.

(** [d[key]] for a key that the source always sets; a missing key would
    be a [KeyError], which no caller below can meet. *)
Definition dict_item (d : dict (list Q)) (key : string) : list Q :=
  match dict_get d key with
  | Some v => v
  | None => []
  end.

(** The four accumulators of the loop. *)
Record samples := mkSamples {
  acc_diff : list Q;
  acc_avg : list Q;
  acc_corr : list Q;
  acc_cycle : list Q
}.

(** The body of the [try]: four conversions, then four appends.  [None] is
    the [except (ValueError, IndexError): continue] path, on which nothing
    has been appended yet. *)
Definition convert_match (m : captures) : option (Q * Q * Q * Q) :=
  diff <- bind (group 1 m) py_float ;;
  avg <- bind (group 2 m) py_float ;;
  corr <- bind (group 3 m) py_float ;;
  cy_ps <- bind (group 4 m) py_float ;;
  Some (diff, avg, corr, cy_ps).

Definition add_match (acc : samples) (m : captures) : samples :=
  match convert_match m with
  | Some (diff, avg, corr, cy_ps) =>
      {| acc_diff := acc_diff acc ++ [diff];
         acc_avg := acc_avg acc ++ [avg];
         acc_corr := acc_corr acc ++ [corr];
         acc_cycle := acc_cycle acc ++ [(cy_ps / 1000000)%Q] |}
  | None => acc
  end.

(** The loop over [re.finditer(pattern, logs)]. *)
Definition collect (logs : string) : samples :=
  fold_left add_match (finditer pattern logs)
    {| acc_diff := []; acc_avg := []; acc_corr := []; acc_cycle := [] |}.

Definition parse_diretta_logs (logs : string) : dict (list Q) :=
  let acc := collect logs in
  [ ("buffer_diff"%string, acc_diff acc);
    ("buffer_avg"%string, acc_avg acc);
    ("correction"%string, acc_corr acc);
    ("cycle_times"%string, acc_cycle acc) ].

(** ** Shapes of log text, used to state the theorems *)

Definition newline : string := String (ascii_of_nat 10) EmptyString.

Section LogShapes.
Local Open Scope string_scope.

Fixpoint all_in (p : ascii -> bool) (s : string) : bool :=
  match s with
  | EmptyString => true
  | String c s' => p c && all_in p s'
  end.

Definition nonempty (s : string) : bool :=
  match s with
  | EmptyString => false
  | String _ _ => true
  end.

(** A non-empty run of characters of one class. *)
Definition run_of (p : ascii -> bool) (s : string) : bool :=
  nonempty s && all_in p s.

Definition head_in (p : ascii -> bool) (s : string) : bool :=
  match s with
  | String c _ => p c
  | EmptyString => false
  end.

(** Blanks inside a line: space and tab. *)
Definition is_blank (c : ascii) : bool :=
  Ascii.eqb c " " || Ascii.eqb c (ascii_of_nat 9).

Definition not_space (c : ascii) : bool := negb (is_space c).

Definition not_i (c : ascii) : bool := negb (Ascii.eqb c "i").

Definition number_char (c : ascii) : bool :=
  is_sign c || is_digit c || Ascii.eqb c ".".

(** The numbers of the log grammar, [digits . digits] with an optional
    sign, recognised directly. *)
Definition is_unsigned_number (s : string) : bool :=
  match split_dot s with
  | (ip, Some fp) => run_of is_digit ip && run_of is_digit fp
  | (_, None) => false
  end.

Definition is_number (s : string) : bool :=
  match s with
  | String c s' =>
      if is_sign c then is_unsigned_number s' else is_unsigned_number s
  | EmptyString => false
  end.

(** The strings that a regular expression denotes. *)
Fixpoint lang (r : regex) (x : string) : Prop :=
  match r with
  | Lit l => x = l
  | Cls p => exists c, x = String c EmptyString /\ p c = true
  | Opt r1 => x = EmptyString \/ lang r1 x
  | Plus p => run_of p x = true
  | Star p => all_in p x = true
  | Cat r1 r2 => exists x1 x2, x = x1 ++ x2 /\ lang r1 x1 /\ lang r2 x2
  | Grp r1 => lang r1 x
  end.

(** One log record, field by field, with the blanks between the fields. *)
Record row := mkRow {
  gap1 : string; gap2 : string; tag : string; gap3 : string;
  diff : string; gap4 : string; avg : string; gap5 : string;
  corr : string; gap6 : string; cy : string
}.

(** The line of a record: [info rcv tag diff avg corr cy=...]. *)
Definition render (r : row) : string :=
  "info" ++ gap1 r ++ "rcv" ++ gap2 r ++ tag r ++ gap3 r ++ diff r ++ gap4 r
  ++ avg r ++ gap5 r ++ corr r ++ gap6 r ++ "cy=" ++ cy r.

(** Everything but the correction field is as the grammar wants it. *)
Definition framed (r : row) : bool :=
  run_of is_blank (gap1 r) && run_of is_blank (gap2 r)
  && run_of is_digit (tag r) && run_of is_blank (gap3 r)
  && is_number (diff r) && run_of is_blank (gap4 r)
  && is_number (avg r) && run_of is_blank (gap5 r)
  && run_of is_blank (gap6 r) && run_of is_digit (cy r).

Definition well_formed (r : row) : bool := framed r && is_number (corr r).

(** A line with the outer marker whose correction field is a token that
    is not a number of the grammar. *)
Definition corrupted (r : row) : bool :=
  framed r && run_of not_space (corr r) && negb (is_number (corr r)).

Definition good_row : row :=
  {| gap1 := " "; gap2 := " "; tag := "2"; gap3 := " "; diff := "-0.0110";
     gap4 := " "; avg := "-0.0110"; gap5 := "  "; corr := "0.0019";
     gap6 := " "; cy := "3185960450" |}.

Definition bad_row : row :=
  {| gap1 := " "; gap2 := " "; tag := "7"; gap3 := " "; diff := "0.0200";
     gap4 := " "; avg := "0.0150"; gap5 := " "; corr := "0.0o21";
     gap6 := " "; cy := "3185961000" |}.

(** The lines of a text: the pieces between newline characters. *)
Fixpoint split_lines (s : string) : list string :=
  match s with
  | EmptyString => [EmptyString]
  | String c s' =>
      if Ascii.eqb c (ascii_of_nat 10) then EmptyString :: split_lines s'
      else match split_lines s' with
           | l :: ls => String c l :: ls
           | [] => [String c EmptyString]
           end
  end.

(** One record broken over two lines. *)
Definition two_line_record : string :=
  "info rcv 2 -0.0110 -0.0110" ++ newline ++ "0.0019 cy=3185960450".

End LogShapes.

(** The dictionary that holds one sample. *)
Definition one_sample (d a c y : Q) : dict (list Q) :=
  [ ("buffer_diff"%string, [d]); ("buffer_avg"%string, [a]);
    ("correction"%string, [c]);
    ("cycle_times"%string, [(y / 1000000)%Q]) ].

(** ** numpy on exact rationals *)

Definition Qltb (a b : Q) : bool := negb (Qle_bool b a).

Definition Qsum (values : list Q) : Q := fold_left Qplus values 0.

(** [np.mean]; numpy yields [nan] on an empty array, the model yields the
    quotient [0 / 0] of [Q], which is [0].  No caller passes an empty list.
    The mean is the exact one; numpy's rounded sum and quotient may leave
    the interval between the least and the largest sample by a rounding
    error. *)
Definition np_mean (values : list Q) : Q :=
  (Qsum values / inject_Z (Z.of_nat (length values)))%Q.

(** [np.min] and [np.max]; numpy raises on an empty array, the model yields
    [0] there.  No caller passes an empty list. *)
Definition np_min (values : list Q) : Q :=
  match values with
  | [] => 0
  | x :: rest => fold_left (fun m y => if Qltb y m then y else m) rest x
  end.

Definition np_max (values : list Q) : Q :=
  match values with
  | [] => 0
  | x :: rest => fold_left (fun m y => if Qltb m y then y else m) rest x
  end.

Fixpoint insert_sorted (x : Q) (l : list Q) : list Q :=
  match l with
  | [] => [x]
  | y :: l' => if Qle_bool x y then x :: l else y :: insert_sorted x l'
  end.

Definition np_sort (values : list Q) : list Q :=
  fold_right insert_sorted [] values.

(** [np.percentile(values, q)] with numpy's default linear interpolation
    between the two order statistics that bracket the virtual index
    [(n - 1) * q / 100]. *)
Definition np_percentile (values : list Q) (q : Q) : Q :=
  let sorted := np_sort values in
  let last := (Z.of_nat (length values) - 1)%Z in
  let virtual := (inject_Z last * (q / 100))%Q in
  let previous := Qfloor virtual in
  let next := Z.min (previous + 1) last in
  let gamma := (virtual - inject_Z previous)%Q in
  let a := nth (Z.to_nat previous) sorted 0 in
  let b := nth (Z.to_nat next) sorted 0 in
  (a + (b - a) * gamma)%Q.

(** ** Report text *)

(** A piece of an f-string: literal text or a formatted hole. *)
Inductive piece : Type :=
| T (s : string)              (* text, or a [{s}] hole holding a string *)
| Plain (n : Z)               (* [{n}]      *)
| Grouped (n : Z)             (* [{n:,}]    *)
| Fixed (d : nat) (x : Q)     (* [{x:.df}]  *)
| Signed (d : nat) (x : Q).   (* [{x:+.df}] *)

Definition line := list piece.

(** [c * n] on a one-character string. *)
Fixpoint rep (c : string) (n : nat) : string :=
  match n with
  | O => EmptyString
  | S n' => (c ++ rep c n')%string
  end.

(** The interpretation guide and the title that open every report. *)
Definition report_head (num_lines : Z) : list line :=
  [ [T (rep "=" 100)];
    [T "INTERPRETATION GUIDE:"];
    [T (rep "-" 100)];
    [T "NETWORK JITTER (Percentage of Cycle Time):"];
    [T "  IQR < 0.1%  : Exceptional - Reference-grade network timing"];
    [T "  IQR < 0.5%  : Excellent - Very high quality network"];
    [T "  IQR < 1.0%  : Very Good - Good network stability"];
    [T "  IQR < 2.0%  : Good - Acceptable for audio streaming"];
    [T "  IQR < 5.0%  : Fair - May benefit from network optimization"];
    [T "  IQR ≥ 5.0%  : Poor - Investigate network issues (switch config, cables)"];
    [T ""];
    [T "BUFFER CORRECTION STABILITY:"];
    [T "  IQR < 0.005 : Exceptional - Clocks very well matched"];
    [T "  IQR < 0.010 : Excellent - Good clock matching or PTP working well"];
    [T "  IQR < 0.020 : Good - Acceptable clock stability"];
    [T "  IQR ≥ 0.020 : Poor - Significant clock mismatch, consider PTP"];
    [T ""];
    [T "WHAT THESE METRICS TELL YOU:"];
    [T "  • Low network jitter: Network path is stable (good switches, cables)"];
    [T "  • Low buffer corrections: Clocks are well matched (good crystal OR PTP active)"];
    [T "  • High buffer corrections: Clock drift present - Diretta is compensating"];
    [T ""];
    [T "CONTEXT FOR YOUR SYSTEM:"];
    [T "  • Your Mutec REF10 SE120 provides exceptional reference at the DAC"];
    [T "  • Server motherboard clock: Typically 20-100 ppm drift without PTP"];
    [T "  • With PTP: Server can sync to within < 1 ppm of DAC clock"];
    [T "  • Correction values show: How hard Diretta works to compensate"];
    [T ""];
    [T "RECOMMENDATION:"];
    [T "  If correction IQR > 0.020:"];
    [T "    → Enable PTP synchronization between server and DAC"];
    [T "    → This will reduce Diretta's correction workload"];
    [T "    → Result: More stable playback, less CPU overhead"];
    [T (rep " " 100)];
    [T (rep "=" 100)];
    [T "DIRETTA STABILITY ANALYSIS (LAST "; Grouped num_lines; T " LOG ENTRIES)"];
    [T (rep "=" 100)] ].

(** ** The outside world *)

Record World := mkWorld {
  (** [datetime.now().strftime('%Y-%m-%d %H:%M:%S')] *)
  now : string;
  (** Content of [~/DirettaAlsaHost/setting.inf]; [None] when the file is
      absent or cannot be read. *)
  home_setting_inf : option string;
  (** Content of [/etc/diretta/setting.inf], likewise. *)
  etc_setting_inf : option string;
  (** Output of [journalctl -u service -n num_lines --no-pager]; [None] is
      [CalledProcessError]. *)
  journalctl : string -> Z -> option string
}.

(** ** Stability analysis ([class DirettaMonitor]) *)

Record DirettaMonitor := mkMonitor {
  service_name : string;
  cycle_time_us : option Q
}.

(** The dictionary returned by [analyze_stability], one field per key. *)
Record stability := mkStability {
  st_count : nat;
  st_mean : Q;
  st_stdev : Q;
  st_min : Q;
  st_max : Q;
  st_range : Q;
  st_q1 : Q;
  st_q3 : Q;
  st_iqr : Q
}.

(** [CycleTime\s*=\s*(\d+)] *)
Definition cycle_time_re : regex :=
  Cat (Lit "CycleTime") (Cat (Star is_space) (Cat (Lit "=")
  (Cat (Star is_space) (Grp (Plus is_digit))))).

(** The loop of [_detect_cycle_time] over the candidate files: the first
    file that holds a [CycleTime] assignment decides; an exception while
    reading one file moves on to the next. *)
Fixpoint detect_in (files : list (option string)) : option Q :=
  match files with
  | [] => None
  | None :: rest => detect_in rest
  | Some content :: rest =>
      match search cycle_time_re content with
      | Some m =>
          match bind (group 1 m) py_float with
          | Some v => Some v
          | None => detect_in rest
          end
      | None => detect_in rest
      end
  end.

Definition _detect_cycle_time (w : World) : option Q :=
  detect_in [home_setting_inf w; etc_setting_inf w].

(** The jitter threshold chain of [analyze_recent_logs]. *)
Definition quality_assessment (iqr_pct : Q) : string :=
  if Qltb iqr_pct 0.1 then "✓ Exceptional (IQR < 0.1% of cycle)"
  else if Qltb iqr_pct 0.5 then "✓ Excellent (IQR < 0.5% of cycle)"
  else if Qltb iqr_pct 1.0 then "✓ Very Good (IQR < 1.0% of cycle)"
  else if Qltb iqr_pct 2.0 then "✓ Good (IQR < 2.0% of cycle)"
  else if Qltb iqr_pct 5.0 then "○ Fair (IQR < 5.0% of cycle)"
  else "✗ Poor (IQR ≥ 5.0% of cycle)".

(** The buffer correction threshold chain of [analyze_recent_logs]. *)
Definition quality (iqr abs_mean_correction : Q) : string :=
  if Qltb iqr 0.001 && Qltb abs_mean_correction 0.005
  then "✓ Exceptional - Minimal buffer adjustments needed"
  else if Qltb iqr 0.005 && Qltb abs_mean_correction 0.010
  then "✓ Excellent - Very stable buffer management"
  else if Qltb iqr 0.010 && Qltb abs_mean_correction 0.020
  then "✓ Good - Stable buffer management"
  else if Qltb iqr 0.020
  then "○ Fair - Moderate buffer adjustments"
  else "✗ Poor - Frequent large buffer corrections (possible clock mismatch)".

(** *** The Quality Classifier as the specification words it *)

Inductive grade : Type :=
| Exceptional | Excellent | VeryGood | Good | Fair | Poor.

(** The total order Exceptional > Excellent > Very Good > Good > Fair >
    Poor, as a rank. *)
Definition rank (g : grade) : nat :=
  match g with
  | Exceptional => 5
  | Excellent => 4
  | VeryGood => 3
  | Good => 2
  | Fair => 1
  | Poor => 0
  end.

(** The ascending threshold table of the jitter grade, in percent. *)
Definition jitter_table : list (Q * grade) :=
  [ (0.1, Exceptional); (0.5, Excellent); (1.0, VeryGood); (2.0, Good);
    (5.0, Fair) ]%Q.

(** First threshold that [x] stays below wins; [Poor] when there is none. *)
Fixpoint grade_by_table (table : list (Q * grade)) (x : Q) : grade :=
  match table with
  | [] => Poor
  | (limit, g) :: rest => if Qltb x limit then g else grade_by_table rest x
  end.

Definition jitter_grade (iqr_pct : Q) : grade :=
  grade_by_table jitter_table iqr_pct.

(** The text under which [analyze_recent_logs] reports a jitter grade. *)
Definition jitter_label (g : grade) : string :=
  match g with
  | Exceptional => "✓ Exceptional (IQR < 0.1% of cycle)"
  | Excellent => "✓ Excellent (IQR < 0.5% of cycle)"
  | VeryGood => "✓ Very Good (IQR < 1.0% of cycle)"
  | Good => "✓ Good (IQR < 2.0% of cycle)"
  | Fair => "○ Fair (IQR < 5.0% of cycle)"
  | Poor => "✗ Poor (IQR ≥ 5.0% of cycle)"
  end.

(** The joint threshold chain of the buffer correction grade on
    [(iqr, |mean|)]; [None] as a bound on [|mean|] is "no bound". *)
Definition correction_table : list (Q * option Q * grade) :=
  [ (0.001, Some 0.005, Exceptional); (0.005, Some 0.010, Excellent);
    (0.010, Some 0.020, Good); (0.020, None, Fair) ]%Q.

Fixpoint grade_by_joint_table (table : list (Q * option Q * grade))
    (iqr abs_mean : Q) : grade :=
  match table with
  | [] => Poor
  | (iqr_limit, mean_limit, g) :: rest =>
      if Qltb iqr iqr_limit
         && match mean_limit with
            | Some l => Qltb abs_mean l
            | None => true
            end
      then g
      else grade_by_joint_table rest iqr abs_mean
  end.

Definition correction_grade (iqr abs_mean : Q) : grade :=
  grade_by_joint_table correction_table iqr abs_mean.

(** The text under which [analyze_recent_logs] reports a buffer correction
    grade; the chain has no "Very Good" step. *)
Definition correction_label (g : grade) : option string :=
  match g with
  | Exceptional => Some "✓ Exceptional - Minimal buffer adjustments needed"%string
  | Excellent => Some "✓ Excellent - Very stable buffer management"%string
  | VeryGood => None
  | Good => Some "✓ Good - Stable buffer management"%string
  | Fair => Some "○ Fair - Moderate buffer adjustments"%string
  | Poor =>
      Some "✗ Poor - Frequent large buffer corrections (possible clock mismatch)"%string
  end.

Section Monitor.

(** [np.std]: the population standard deviation. *)
Variable np_std : list Q -> Q.

(** [analyze_stability(self, values, data_type)]; the source never reads
    [data_type], so the model leaves it out. *)
Definition analyze_stability (values : list Q) : stability :=
  let count := length values in
  if (count <? 2)%nat then
    {| st_count := count; st_mean := 0; st_stdev := 0;
       st_min := 0; st_max := 0; st_range := 0;
       st_q1 := 0; st_q3 := 0; st_iqr := 0 |}
  else
    let mean := np_mean values in
    let stdev := np_std values in
    let min_val := np_min values in
    let max_val := np_max values in
    let q1 := np_percentile values 25 in
    let q3 := np_percentile values 75 in
    let iqr := (q3 - q1)%Q in
    {| st_count := count; st_mean := mean; st_stdev := stdev;
       st_min := min_val; st_max := max_val;
       st_range := (max_val - min_val)%Q;
       st_q1 := q1; st_q3 := q3; st_iqr := iqr |}.

(** Section 1 of the report: lines 314 to 354 of the source.  [ct] is
    [self.cycle_time_us] at that point. *)
Definition jitter_section (ct : option Q) (cycle_times : list Q)
    : list line :=
  match cycle_times with
  | [] => [ [T "1. NETWORK TIMING JITTER: No 'cy=' data found."] ]
  | _ :: _ =>
      let cycle_stats := analyze_stability cycle_times in
      (match ct with
       | Some c =>
           if truthy c then
             let stdev_pct := (st_stdev cycle_stats / c * 100)%Q in
             let iqr_pct := (st_iqr cycle_stats / c * 100)%Q in
             let range_pct := (st_range cycle_stats / c * 100)%Q in
             [ [T "1. NETWORK TIMING JITTER (from 'cy=...' values)"];
               [T (rep "-" 100)];
               [T "   Assessment:            "; T (quality_assessment iqr_pct)];
               [T "   Samples found:         ";
                Grouped (Z.of_nat (st_count cycle_stats))];
               [T "   Expected Cycle Time:   "; Fixed 1 c; T " μs"];
               [T "   Measured Average:      "; Fixed 3 (st_mean cycle_stats);
                T " μs (offset: "; Signed 3 (st_mean cycle_stats - c)%Q;
                T " μs)"];
               [T ""];
               [T "   PERCENTAGE-BASED METRICS (% of cycle time):"];
               [T "   Standard Deviation:    "; Fixed 3 (st_stdev cycle_stats);
                T " μs ("; Fixed 3 stdev_pct; T "%)"];
               [T "   Interquartile Range:   "; Fixed 3 (st_iqr cycle_stats);
                T " μs ("; Fixed 3 iqr_pct; T "%) ← primary jitter metric"];
               [T "   Peak-to-Peak Range:    "; Fixed 3 (st_range cycle_stats);
                T " μs ("; Fixed 3 range_pct; T "%)"];
               [T ""];
               [T "   ABSOLUTE VALUES:"];
               [T "   Min / Max Cycle:       "; Fixed 3 (st_min cycle_stats);
                T " μs / "; Fixed 3 (st_max cycle_stats); T " μs"] ]
           else []
       | None => []
       end) ++ [ [T (rep "-" 100)] ]
  end.

(** Section 2 of the report: lines 359 to 420 of the source. *)
Definition buffer_section (correction buffer_diff : list Q) : list line :=
  if negb (length correction =? 0)%nat && (10 <=? length correction)%nat then
    let correction_stats := analyze_stability correction in
    let abs_mean_correction := Qabs (st_mean correction_stats) in
    [ [T "2. BUFFER MANAGEMENT STABILITY (from correction values)"];
      [T (rep "-" 100)];
      [T "   Assessment:         ";
       T (quality (st_iqr correction_stats) abs_mean_correction)];
      [T "   Samples analyzed:   "; Grouped (Z.of_nat (length correction))];
      [T ""];
      [T "   CORRECTION VALUE STATISTICS:"];
      [T "   Mean correction:    "; Signed 4 (st_mean correction_stats)];
      [T "   Std deviation:      "; Fixed 4 (st_stdev correction_stats)];
      [T "   Interquartile Range:"; Fixed 4 (st_iqr correction_stats);
       T " ← primary stability metric"];
      [T "   Min / Max:          "; Signed 4 (st_min correction_stats);
       T " / "; Signed 4 (st_max correction_stats)];
      [T "   Total range:        "; Fixed 4 (st_range correction_stats)];
      [T ""];
      [T "   INTERPRETATION:"] ]
    ++ (if Qltb 0.015 abs_mean_correction then
          if Qltb 0 (st_mean correction_stats) then
            [ [T "   • Positive mean correction: Buffer tends to need filling"];
              [T "   • Possible causes: Receiver clock slightly faster than sender"] ]
          else
            [ [T "   • Negative mean correction: Buffer tends to need draining"];
              [T "   • Possible causes: Receiver clock slightly slower than sender"] ]
        else
          [ [T "   • Mean correction near zero: Well-balanced clocks"] ])
    ++ (if Qltb (st_iqr correction_stats) 0.005 then
          [ [T "   • Low IQR: Very stable - minimal active correction needed"];
            [T "   • This suggests: Excellent clock matching OR effective PTP sync"] ]
        else if Qltb 0.020 (st_iqr correction_stats) then
          [ [T "   • High IQR: Unstable - frequent buffer adjustments"];
            [T "   • This suggests: Clock drift present, Diretta is actively compensating"];
            [T "   • Recommendation: Consider enabling PTP synchronization"] ]
        else [])
    ++ (match buffer_diff with
        | [] => []
        | _ :: _ =>
            let diff_stats := analyze_stability buffer_diff in
            [ [T ""];
              [T "   BUFFER DIFFERENCE FROM TARGET:"];
              [T "   Mean:               "; Signed 4 (st_mean diff_stats)];
              [T "   Std deviation:      "; Fixed 4 (st_stdev diff_stats)];
              [T "   Range:              "; Fixed 4 (st_range diff_stats)] ]
        end)
  else
    [ [T "2. BUFFER STABILITY: Insufficient data (need ≥10 samples, found ";
       Plain (match correction with
              | [] => 0
              | _ :: _ => Z.of_nat (length correction)
              end);
       T ")"] ].

(** [analyze_recent_logs(self, num_lines)]: the lines of the report and the
    monitor as the call leaves it. *)
Definition analyze_recent_logs (w : World) (self : DirettaMonitor)
    (num_lines : Z) : list line * DirettaMonitor :=
  let report :=
    report_head num_lines
    ++ [ [T "Service: "; T (service_name self)];
         [T "Generated: "; T (now w)] ] in
  let self :=
    match cycle_time_us self with
    | None => {| service_name := service_name self;
                 cycle_time_us := _detect_cycle_time w |}
    | Some _ => self
    end in
  let report :=
    report
    ++ [ match cycle_time_us self with
         | Some c =>
             if truthy c
             then [T "Expected CycleTime: "; Fixed 1 c;
                   T " μs (from configuration)"]
             else [T "Expected CycleTime: Will be detected from logs"]
         | None => [T "Expected CycleTime: Will be detected from logs"]
         end;
         [T "Analyzing logs..."] ] in
  let logs :=
    match journalctl w (service_name self) num_lines with
    | Some out => out
    | None => EmptyString
    end in
  if (String.length logs =? 0)%nat then
    (report ++ [ [T "✗ No logs found for service '"; T (service_name self);
                  T "'."] ],
     self)
  else
    let report :=
      report ++ [ [T "✓ Logs captured. Performing analysis."]; [T ""] ] in
    let parsed_data := parse_diretta_logs logs in
    if (length parsed_data =? 0)%nat then
      (report ++ [ [T "✗ Could not parse log data. Check log format."] ], self)
    else
      let cycle_times := dict_item parsed_data "cycle_times" in
      let buffer_diff := dict_item parsed_data "buffer_diff" in
      let correction := dict_item parsed_data "correction" in
      let report :=
        report
        ++ [ [T "✓ Parsed "; Grouped (Z.of_nat (length cycle_times));
              T " log entries"];
             [T ""] ] in
      let '(report, self) :=
        if negb (truthy_opt (cycle_time_us self))
           && negb (length cycle_times =? 0)%nat
        then
          let detected := np_mean cycle_times in
          (report
           ++ [ [T "✓ Detected CycleTime: "; Fixed 1 detected;
                 T " μs (from log data)"];
                [T ""] ],
           {| service_name := service_name self;
              cycle_time_us := Some detected |})
        else (report, self) in
      let report :=
        report ++ jitter_section (cycle_time_us self) cycle_times
        ++ [ [T ""] ] in
      let report :=
        report ++ buffer_section correction buffer_diff
        ++ [ [T (newline ++ rep "=" 100)] ] in
      (report, self).

End Monitor.

(** ** Views of a run, and sample inputs, used to state the theorems *)

(** [self.cycle_time_us] once the configuration has been consulted (line
    270 of the source), before any log is read. *)
Definition before_logs (w : World) (self : DirettaMonitor) : option Q :=
  match cycle_time_us self with
  | None => _detect_cycle_time w
  | Some c => Some c
  end.

(** [self.cycle_time_us] once the logs have been parsed (line 309). *)
Definition after_logs (before : option Q) (cycle_times : list Q)
    : option Q :=
  if negb (truthy_opt before) && negb (length cycle_times =? 0)%nat
  then Some (np_mean cycle_times)
  else before.

(** The lines of the report up to "Analyzing logs...". *)
Definition opening (w : World) (self : DirettaMonitor) (num_lines : Z)
    : list line :=
  report_head num_lines
  ++ [ [T "Service: "; T (service_name self)];
       [T "Generated: "; T (now w)];
       match before_logs w self with
       | Some c =>
           if truthy c
           then [T "Expected CycleTime: "; Fixed 1 c;
                 T " μs (from configuration)"]
           else [T "Expected CycleTime: Will be detected from logs"]
       | None => [T "Expected CycleTime: Will be detected from logs"]
       end;
       [T "Analyzing logs..."] ].

(** A world whose journal holds [logs] for every service, with [home] as
    the content of the first configuration file and no second one. *)
Definition world_with (clock : string) (home : option string)
    (logs : string) : World :=
  {| now := clock; home_setting_inf := home; etc_setting_inf := None;
     journalctl := fun _ _ => Some logs |}.

(** The monitor that [main] builds when [--cycle-time] is not given. *)
Definition fresh_monitor : DirettaMonitor :=
  {| service_name := "diretta_sync_host"; cycle_time_us := None |}.

(** The log line of the docstring of [parse_diretta_logs]. *)
Definition sample_line : string :=
  "info rcv 2 -0.0110 -0.0110  0.0019 cy=3185960450".

(** Twelve correction samples with mean 0.002 and IQR 0.0008. *)
Definition twelve_corrections : list Q :=
  [ 0.0010; 0.0014; 0.0016; 0.0016; 0.0018; 0.0020;
    0.0020; 0.0022; 0.0024; 0.0024; 0.0026; 0.0030 ]%Q.

(** The text that the journal hands to the run; empty on failure. *)
Definition retrieved (w : World) (self : DirettaMonitor) (n : Z) : string :=
  match journalctl w (service_name self) n with
  | Some out => out
  | None => EmptyString
  end.

(** The all-zero result of [analyze_stability] below two samples. *)
Definition sentinel (n : nat) : stability :=
  {| st_count := n; st_mean := 0; st_stdev := 0; st_min := 0; st_max := 0;
     st_range := 0; st_q1 := 0; st_q3 := 0; st_iqr := 0 |}.

Definition one_sample_world : World :=
  world_with "2026-01-01 00:00:00" None sample_line.

Definition later_world : World :=
  world_with "2026-01-01 00:00:01" None sample_line.

Definition no_sample_world : World :=
  world_with "2026-01-01 00:00:00" None "hello".

Definition zero_config_world : World :=
  world_with "2026-01-01 00:00:00" (Some "CycleTime=0"%string) sample_line.

Definition configured_world : World :=
  world_with "2026-01-01 00:00:00" (Some "CycleTime=3185"%string) sample_line.

(** The cycle times of the two end-to-end examples of the specification. *)
Definition steady_cycles : list Q :=
  [ 1918.0; 1920.0; 1921.0; 1919.5; 1920.5 ]%Q.

Definition unsteady_cycles : list Q :=
  [ 1800.0; 2000.0; 1850.0; 1950.0; 1900.0 ]%Q.

(** *** Reference cycle time: the precedence as the specification words it *)

Definition explicit_positive (explicit : option Q) : Prop :=
  exists c, explicit = Some c /\ (0 < c)%Q.

(** An explicit positive value is used; otherwise the value of the
    configuration; otherwise, when there is data, its mean. *)
Definition reference_as_specified (explicit config : option Q)
    (data : list Q) (resolved : option Q) : Prop :=
  (forall c, explicit = Some c -> (0 < c)%Q -> resolved = Some c) /\
  (~ explicit_positive explicit ->
   forall v, config = Some v -> resolved = Some v) /\
  (~ explicit_positive explicit -> config = None -> data <> [] ->
   resolved = Some (np_mean data)).

(** The precedence of the source: a value counts when it is truthy, and
    the configuration is consulted only when no explicit value is given. *)
Definition reference_by_truthiness (explicit config : option Q)
    (data : list Q) (resolved : option Q) : Prop :=
  (forall c, explicit = Some c -> truthy c = true -> resolved = Some c) /\
  (explicit = None ->
   forall v, config = Some v -> truthy v = true -> resolved = Some v) /\
  (truthy_opt (match explicit with Some c => Some c | None => config end)
   = false ->
   (data <> [] -> resolved = Some (np_mean data)) /\
   (data = [] ->
    resolved = match explicit with Some c => Some c | None => config end)).

(** *** Purity of a run as the specification words it *)

(** Two runs of one monitor with one line count that retrieve the same log
    text produce the same report. *)
Definition purity_as_specified (w1 w2 : World) (self : DirettaMonitor)
    (n : Z) : Prop :=
  forall np_std,
    journalctl w1 (service_name self) n = journalctl w2 (service_name self) n ->
    fst (analyze_recent_logs np_std w1 self n)
    = fst (analyze_recent_logs np_std w2 self n).

(** ** Further parts of the program, and what their theorems need *)

(** *** The 48 kHz cycle time ([DirettaCalculator.calculate_cycle_time_for_48k]) *)

(** [round(x)] on a float: the nearest integer, ties to the even one. *)
Definition py_round (x : Q) : Z :=
  let f := Qfloor x in
  let d := (x - inject_Z f)%Q in
  if Qltb d (1 # 2) then f
  else if Qltb (1 # 2) d then (f + 1)%Z
  else if Z.even f then f else (f + 1)%Z.

(** The largest MTU that an IP link can have. *)
Definition max_ip_mtu : Z := 65535.

(** [calculate_cycle_time_for_48k(self, is_dsd)]: the cycle time rounded to
    5 microseconds, and the frame parameters it comes from.  The rounding
    is that of the exact [cycle_time_us]; the source rounds its binary64
    value, which gives the same cycle time for every MTU up to
    [max_ip_mtu] (the two part first at an MTU of 144452 bytes in PCM
    mode, where the exact value is the tie 62687.5 and the binary64 value
    lies just below it). *)
Definition calculate_cycle_time_for_48k (self : Calculator.DirettaCalculator)
    (dsd : bool) : option (Z * Calculator.FrameParams) :=
  let base_rate := 48000%Z in
  let multiplier := if dsd then 256%Z else 8%Z in
  let rate := (base_rate * multiplier)%Z in
  params <- Calculator.calculate_frame_params self rate dsd ;;
  r <- py_div (Calculator.cycle_time_us params) 5 ;;
  let cycle_time := (py_round r * 5)%Z in
  Some (cycle_time, params).

(** The local [audio_bytes_max] and [samples_per_frame] for any MTU. *)
Definition audio_bytes_max (m : Z) : Z := (Z.quot (m - 20) 8 * 8)%Z.

Definition frame_samples (m : Z) (dsd : bool) : Z :=
  if dsd then (audio_bytes_max m * 4)%Z else Z.quot (audio_bytes_max m) 6.

(** *** The groups of a match *)

(** The strings that a regular expression denotes, with the groups that a
    match of each string records. *)
Fixpoint lang_groups (r : regex) (x : string) (cs : captures) : Prop :=
  match r with
  | Lit l => x = l /\ cs = []
  | Cls p => (exists c, x = String c EmptyString /\ p c = true) /\ cs = []
  | Opt r1 => (x = EmptyString /\ cs = []) \/ lang_groups r1 x cs
  | Plus p => run_of p x = true /\ cs = []
  | Star p => all_in p x = true /\ cs = []
  | Cat r1 r2 =>
      exists x1 x2 c1 c2,
        x = (x1 ++ x2)%string /\ cs = c1 ++ c2 /\
        lang_groups r1 x1 c1 /\ lang_groups r2 x2 c2
  | Grp r1 => exists c1, cs = c1 ++ [x] /\ lang_groups r1 x c1
  end.

(** *** Journals of any length *)

Section JournalShapes.
Local Open Scope string_scope.

(** No occurrence of the marker [info] starts in the text. *)
Fixpoint info_free (s : string) : bool :=
  match s with
  | EmptyString => true
  | String _ s' =>
      match strip_prefix "info" s with
      | Some _ => false
      | None => info_free s'
      end
  end.

(** A journal entry: what the journal writes before the message (time,
    host, unit), then a record. *)
Record entry := mkEntry { lead : string; body : row }.

Definition entry_text (e : entry) : string := lead e ++ render (body e).

(** The text of a journal, one entry per line. *)
Fixpoint journal (es : list entry) : string :=
  match es with
  | [] => ""
  | e :: es' => entry_text e ++ newline ++ journal es'
  end.

(** The four groups that the pattern captures on the line of an entry. *)
Definition fields (e : entry) : captures :=
  [diff (body e); avg (body e); corr (body e); cy (body e)].

Definition readable (e : entry) : bool :=
  info_free (lead e) && (well_formed (body e) || corrupted (body e)).

Definition intact (e : entry) : bool := well_formed (body e).

Definition sample_journal : list entry :=
  [ {| lead := "Nov 03 12:00:01 host diretta[812]: "; body := good_row |};
    {| lead := "Nov 03 12:00:02 host diretta[812]: "; body := bad_row |};
    {| lead := "Nov 03 12:00:03 host diretta[812]: "; body := good_row |} ].

End JournalShapes.

(** ** Configuration text ([generate_config]) *)

Definition digit_char (d : Z) : ascii := ascii_of_nat (Z.to_nat (48 + d)).

(** The decimal digits of [n >= 0] written before [acc], the last digit
    first; [fuel] bounds the number of digits. *)
Fixpoint str_digits (fuel : nat) (n : Z) (acc : string) : string :=
  match fuel with
  | O => acc
  | S fuel' =>
      let acc' := String (digit_char (n mod 10)) acc in
      if (n <? 10)%Z then acc' else str_digits fuel' (n / 10) acc'
  end.

(** [str(n)], and [{n}] in an f-string, on an [int]: a number of [b] bits
    has at most [b] decimal digits. *)
Definition py_str (n : Z) : string :=
  let m := Z.abs n in
  let text := str_digits (S (Z.to_nat (Z.log2 m))) m EmptyString in
  if (n <? 0)%Z then String "-" text else text.

Section Config.
Local Open Scope string_scope.

(** [generate_config(cycle_time, period_min, period_max, period_size_min,
    period_size_max, sync_buffer, latency_buffer, thred_mode, interface,
    cpu_send, cpu_other)]: the f-string, hole by hole. *)
Definition generate_config (cycle_time period_min period_max
    period_size_min period_size_max sync_buffer latency_buffer
    thred_mode : Z) (interface : string) (cpu_send cpu_other : Z) : string :=
  let cycle_min := py_int (inject_Z cycle_time * 0.995) in
  "[global]" ++ newline ++
  "Interface=" ++ interface ++ newline ++
  "TargetProfileLimitTime=0" ++ newline ++
  "ThredMode=" ++ py_str thred_mode ++ newline ++
  "InfoCycle=100000" ++ newline ++
  "FlexCycle=max" ++ newline ++
  "CycleTime=" ++ py_str cycle_time ++ newline ++
  "CycleMinTime=" ++ py_str cycle_min ++ newline ++
  "Debug=stdout" ++ newline ++
  "periodMax=" ++ py_str period_max ++ newline ++
  "periodMin=" ++ py_str period_min ++ newline ++
  "periodSizeMax=" ++ py_str period_size_max ++ newline ++
  "periodSizeMin=" ++ py_str period_size_min ++ newline ++
  "syncBufferCount=" ++ py_str sync_buffer ++ newline ++
  "alsaUnderrun=enable" ++ newline ++
  "unInitMemDet=disable" ++ newline ++
  "CpuSend=" ++ py_str cpu_send ++ newline ++
  "CpuOther=" ++ py_str cpu_other ++ newline ++
  "LatencyBuffer=" ++ py_str latency_buffer ++ newline.

Definition not_C (c : ascii) : bool := negb (Ascii.eqb c "C").

End Config.

(** ** Settings check ([validate_settings]) *)

Section Settings.
Local Open Scope string_scope.

(** The f-strings of the nine remarks. *)
Definition ratio_remark (period_min period_max : Z) (ratio : Q) : line :=
  [T "⚠ Large periodMin/Max ratio ("; Plain period_min; T ":";
   Plain period_max; T " = "; Fixed 1 ratio;
   T ":1) may cause inefficient buffering. Recommended: ≤2.5:1"].

Definition sync_low_remark (sync_buffer period_min : Z) : line :=
  [T "⚠ syncBufferCount ("; Plain sync_buffer; T ") < periodMin (";
   Plain period_min;
   T ") may cause sync issues. Recommended: syncBuffer ≥ periodMin"].

Definition sync_high_remark (sync_buffer period_max : Z) : line :=
  [T "ℹ syncBufferCount ("; Plain sync_buffer; T ") >> periodMax (";
   Plain period_max;
   T ") adds extra latency. Consider reducing if stability is good."].

Definition fixed_size_remark (period_size_min : Z) : line :=
  [T "ℹ periodSizeMin = periodSizeMax ("; Plain period_size_min;
   T ") forces fixed ALSA buffer. Usually auto-selection works better."].

Definition size_min_remark (period_size_min : Z) : line :=
  [T "⚠ periodSizeMin ("; Plain period_size_min;
   T ") is high. May cause compatibility issues with some applications."].

Definition size_max_remark (period_size_max : Z) : line :=
  [T "⚠ periodSizeMax ("; Plain period_size_max;
   T ") is low. May limit buffer flexibility."].

Definition aggressive_remark (total_periods : Z) : line :=
  [T "⚠ Total buffering ("; Plain total_periods;
   T " periods) is aggressive. Monitor closely for underruns on loaded systems."].

Definition conservative_remark (total_periods : Z) : line :=
  [T "ℹ Total buffering ("; Plain total_periods;
   T " periods) is very conservative. Higher latency (~";
   Fixed 0 (inject_Z (total_periods * 3));
   T "ms) but maximum stability."].

Definition recommended_remark : line :=
  [T "✓ Using recommended optimized settings (4/8/6)"].

(** [validate_settings(period_min, period_max, period_size_min,
    period_size_max, sync_buffer)]: the remarks in the order in which they
    are appended; [None] is the [ZeroDivisionError] of the ratio.  The
    source converts [period_max] and three times the total to binary64,
    which raises [OverflowError] beyond the range of binary64; the model
    has no such failure. *)
Definition validate_settings (period_min period_max period_size_min
    period_size_max sync_buffer : Z) : option (list line) :=
  let warnings : list line := [] in
  ratio <- py_div (inject_Z period_max) (inject_Z period_min) ;;
  let warnings :=
    if Qltb 3 ratio
    then (warnings ++ [ratio_remark period_min period_max ratio])%list
    else warnings in
  let warnings :=
    if (sync_buffer <? period_min)%Z
    then (warnings ++ [sync_low_remark sync_buffer period_min])%list
    else warnings in
  let warnings :=
    if Qltb (inject_Z period_max * 1.5) (inject_Z sync_buffer)
    then (warnings ++ [sync_high_remark sync_buffer period_max])%list
    else warnings in
  let warnings :=
    if (period_size_min =? period_size_max)%Z
    then (warnings ++ [fixed_size_remark period_size_min])%list
    else warnings in
  let warnings :=
    if (4096 <? period_size_min)%Z
    then (warnings ++ [size_min_remark period_size_min])%list
    else warnings in
  let warnings :=
    if (period_size_max <? 2048)%Z
    then (warnings ++ [size_max_remark period_size_max])%list
    else warnings in
  let total_periods := (period_max + sync_buffer)%Z in
  let warnings :=
    if (total_periods <? 10)%Z
    then (warnings ++ [aggressive_remark total_periods])%list
    else if (20 <? total_periods)%Z
    then (warnings ++ [conservative_remark total_periods])%list
    else warnings in
  let warnings :=
    if (period_min =? 4)%Z && (period_max =? 8)%Z && (sync_buffer =? 6)%Z
    then (warnings ++ [recommended_remark])%list
    else warnings in
  Some warnings.

End Settings.

(** *** Further sample inputs *)


(** Twelve correction samples whose quartiles lie 0.05 apart. *)
Definition drifting_corrections : list Q :=
  [ -0.03; 0.03; -0.03; 0.03; -0.03; 0.03;
    -0.03; 0.03; -0.03; 0.03; -0.03; 0.03 ]%Q.

(** ** MTU detection ([detect_network_mtu]) *)

(** What the function sees of the machine. *)
Inductive sysfs_mtu : Type :=
| NoFile                       (* [mtu_file.exists()] is false *)
| Unreadable                   (* [read_text()] raises *)
| Content (text : string).     (* the text of the file *)

Record Net := mkNet {
  (** [subprocess.check_output(cmd, shell=True, text=True, ...)]: the
      output of a command line; [None] is [CalledProcessError] or
      [FileNotFoundError]. *)
  check_output : string -> option string;
  (** [/sys/class/net]: [None] when the directory does not exist, else
      the names under it in the order of [iterdir()], each with its file
      [mtu]. *)
  sys_class_net : option (list (string * sysfs_mtu))
}.

(** The dictionary [result]; [found_interface] and [found_mtu] are its
    keys ['interface'] and ['mtu']. *)
Record detection := mkDetection {
  found_interface : option string;
  found_mtu : option Z;
  all_interfaces : dict Z;
  method : option string
}.

(** How a stage ends: with [return result], or past its last line with
    the interfaces collected so far. *)
Inductive stage : Type :=
| Returned (result : detection)
| Fell (all : dict Z).

Section Detection.
Local Open Scope string_scope.

(** [d[key] = v]: a known key keeps its place. *)
Fixpoint dict_set {V : Type} (d : dict V) (key : string) (v : V) : dict V :=
  match d with
  | [] => [(key, v)]
  | (k, x) :: d' =>
      if String.eqb k key then (k, v) :: d' else (k, x) :: dict_set d' key v
  end.

(** [max(items, key=lambda x: x[1])] from [best] on: the first of the
    largest. *)
Fixpoint max_item (best : string * Z) (items : list (string * Z))
    : string * Z :=
  match items with
  | [] => best
  | item :: rest =>
      max_item (if (snd best <? snd item)%Z then item else best) rest
  end.

(** [str.strip()], on code points below 256. *)
Fixpoint lstrip (s : string) : string :=
  match s with
  | String c s' => if is_space c then lstrip s' else s
  | EmptyString => EmptyString
  end.

Fixpoint rstrip (s : string) : string :=
  match s with
  | EmptyString => EmptyString
  | String c s' =>
      match rstrip s' with
      | EmptyString => if is_space c then EmptyString else String c EmptyString
      | t => String c t
      end
  end.

Definition strip (s : string) : string := rstrip (lstrip s).

(** [str.lower()], on code points below 256. *)
Definition lower_char (c : ascii) : ascii :=
  let n := code c in
  if (((65 <=? n) && (n <=? 90))
      || ((192 <=? n) && (n <=? 222) && negb (n =? 215)))%nat
  then ascii_of_nat (n + 32) else c.

Fixpoint lower (s : string) : string :=
  match s with
  | EmptyString => EmptyString
  | String c s' => String (lower_char c) (lower s')
  end.

(** [needle in text]. *)
Fixpoint contains (needle text : string) : bool :=
  match strip_prefix needle text with
  | Some _ => true
  | None =>
      match text with
      | EmptyString => false
      | String _ text' => contains needle text'
      end
  end.

(** The digits of [int(text)]: single underscores may stand between
    digits. *)
Fixpoint int_digits (acc : Z) (after_digit : bool) (s : string)
    : option Z :=
  match s with
  | EmptyString => if after_digit then Some acc else None
  | String c s' =>
      if is_digit c then int_digits (acc * 10 + digit_value c) true s'
      else if Ascii.eqb c "_" && after_digit then int_digits acc false s'
      else None
  end.

(** [int(text)] on a string of code points below 256; [None] is
    [ValueError].  The interpreter's limit on the length of a decimal
    string (4300 digits by default) is left out. *)
Definition py_int_text (text : string) : option Z :=
  match strip text with
  | String c rest =>
      if Ascii.eqb c "-" then option_map Z.opp (int_digits 0 false rest)
      else if Ascii.eqb c "+" then int_digits 0 false rest
      else int_digits 0 false (String c rest)
  | EmptyString => None
  end.

(** [.]: any character but the newline. *)
Definition not_newline (c : ascii) : bool :=
  negb (Ascii.eqb c (ascii_of_nat 10)).

(** [^\d+:\s+(\S+):.*mtu\s+(\d+)]; the anchor is the position at which the
    pattern is tried. *)
Definition ip_link_re : regex :=
  Cat (Plus is_digit) (Cat (Lit ":") (Cat (Plus is_space)
  (Cat (Grp (Plus not_space)) (Cat (Lit ":") (Cat (Star not_newline)
  (Cat (Lit "mtu") (Cat (Plus is_space) (Grp (Plus is_digit))))))))).

(** [^(\S+):] *)
Definition iface_re : regex := Cat (Grp (Plus not_space)) (Lit ":").

(** [mtu[:\s]+(\d+)] under [re.IGNORECASE]. *)
Definition either (a b : ascii) (c : ascii) : bool :=
  Ascii.eqb c a || Ascii.eqb c b.

Definition colon_or_space (c : ascii) : bool := Ascii.eqb c ":" || is_space c.

Definition mtu_re : regex :=
  Cat (Cls (either "m" "M")) (Cat (Cls (either "t" "T"))
  (Cat (Cls (either "u" "U")) (Cat (Plus colon_or_space)
  (Grp (Plus is_digit))))).

(** [interface and name == interface], and [not interface]. *)
Definition requested (interface : option string) (name : string) : bool :=
  match interface with
  | Some i => nonempty i && String.eqb name i
  | None => false
  end.

Definition unspecified (interface : option string) : bool :=
  match interface with
  | Some i => negb (nonempty i)
  | None => true
  end.

(** The [return result] of a stage that has found the requested
    interface. *)
Definition found (name : string) (value : Z) (all : dict Z) (how : string)
    : detection :=
  {| found_interface := Some name; found_mtu := Some value;
     all_interfaces := all; method := Some how |}.

(** The end of a stage, after its loop: without a requested interface the
    first interface of the highest MTU is returned. *)
Definition select (interface : option string) (all : dict Z) (how : string)
    : stage :=
  match all with
  | item :: rest =>
      if unspecified interface then
        let best_iface := max_item item rest in
        Returned (found (fst best_iface) (snd best_iface) all how)
      else Fell all
  | [] => Fell all
  end.

(** The loop over the lines of [ip -o link show]; [None] is an exception
    that the stage does not catch. *)
Fixpoint ip_loop (interface : option string) (lines : list string)
    (all : dict Z) : option stage :=
  match lines with
  | [] => Some (select interface all "ip_command_auto")
  | line :: rest =>
      match match_at ip_link_re line with
      | Some (m, _) =>
          iface_name <- group 1 m ;;
          iface_mtu <- bind (group 2 m) py_int_text ;;
          if String.eqb iface_name "lo" then ip_loop interface rest all
          else
            let all := dict_set all iface_name iface_mtu in
            if requested interface iface_name
            then Some (Returned (found iface_name iface_mtu all "ip_command"))
            else ip_loop interface rest all
      | None => ip_loop interface rest all
      end
  end.

(** The loop over the lines of [ifconfig]. *)
Fixpoint ifconfig_loop (interface : option string) (lines : list string)
    (current_iface : option string) (all : dict Z) : option stage :=
  match lines with
  | [] => Some (select interface all "ifconfig_auto")
  | line :: rest =>
      match match_at iface_re line with
      | Some (iface_match, _) =>
          name <- group 1 iface_match ;;
          ifconfig_loop interface rest (Some name) all
      | None =>
          match current_iface with
          | Some current =>
              if nonempty current && contains "mtu" (lower line) then
                match search mtu_re line with
                | Some mtu_match =>
                    iface_mtu <- bind (group 1 mtu_match) py_int_text ;;
                    if String.eqb current "lo"
                    then ifconfig_loop interface rest current_iface all
                    else
                      let all := dict_set all current iface_mtu in
                      if requested interface current
                      then Some (Returned
                                   (found current iface_mtu all "ifconfig"))
                      else ifconfig_loop interface rest current_iface all
                | None => ifconfig_loop interface rest current_iface all
                end
              else ifconfig_loop interface rest current_iface all
          | None => ifconfig_loop interface rest current_iface all
          end
      end
  end.

(** The loop over [/sys/class/net]; every exception is caught, and ends
    the stage with what has been collected. *)
Fixpoint sysfs_loop (interface : option string)
    (entries : list (string * sysfs_mtu)) (all : dict Z) : stage :=
  match entries with
  | [] => select interface all "sysfs_auto"
  | (iface_name, mtu_file) :: rest =>
      if String.eqb iface_name "lo" then sysfs_loop interface rest all
      else
        match mtu_file with
        | NoFile => sysfs_loop interface rest all
        | Unreadable => Fell all
        | Content text =>
            match py_int_text (strip text) with
            | Some iface_mtu =>
                let all := dict_set all iface_name iface_mtu in
                if requested interface iface_name
                then Returned (found iface_name iface_mtu all "sysfs")
                else sysfs_loop interface rest all
            | None => Fell all
            end
        end
  end.

(** [detect_network_mtu(interface)]: the three stages in turn. *)
Definition detect_network_mtu (net : Net) (interface : option string)
    : option detection :=
  let all : dict Z := [] in
  after_ip <-
    match check_output net "ip -o link show" with
    | Some output => ip_loop interface (split_lines (strip output)) all
    | None => Some (Fell all)
    end ;;
  match after_ip with
  | Returned result => Some result
  | Fell all =>
      let cmd :=
        match interface with
        | Some i => if nonempty i then "ifconfig " ++ i else "ifconfig"
        | None => "ifconfig"
        end in
      after_ifconfig <-
        match check_output net cmd with
        | Some output => ifconfig_loop interface (split_lines output) None all
        | None => Some (Fell all)
        end ;;
      match after_ifconfig with
      | Returned result => Some result
      | Fell all =>
          let after_sysfs :=
            match sys_class_net net with
            | Some entries => sysfs_loop interface entries all
            | None => Fell all
            end in
          match after_sysfs with
          | Returned result => Some result
          | Fell all =>
              Some {| found_interface := None; found_mtu := None;
                      all_interfaces := all; method := Some "failed" |}
          end
      end
  end.

End Detection.

(** *** Shapes of a detection, used to state the theorems *)

(** [(name, value)] is the first item of [all] with the highest value. *)
Definition first_highest (name : string) (value : Z) (all : dict Z) : Prop :=
  exists before after,
    all = before ++ (name, value) :: after /\
    Forall (fun item => (snd item < value)%Z) before /\
    Forall (fun item => (snd item <= value)%Z) after.

(** The result names no interface. *)
Definition nothing_found (r : detection) : Prop :=
  found_interface r = None /\ found_mtu r = None /\
  method r = Some "failed"%string.

(** The result names [name], with [value] as its MTU, by method [how]. *)
Definition names (r : detection) (name : string) (value : Z) (how : string)
    : Prop :=
  found_interface r = Some name /\ found_mtu r = Some value /\
  method r = Some how.

Section Outcomes.
Local Open Scope string_scope.

(** The interfaces collected so far hold no loopback. *)
Definition lo_free (all : dict Z) : Prop := dict_get all "lo" = None.

(** A returned result is one of the two results that the function can
    return with an interface. *)
Definition sound (interface : option string) (r : detection) : Prop :=
  lo_free (all_interfaces r) /\
  exists name value how,
    names r name value how /\ name <> "lo" /\
    if unspecified interface
    then first_highest name value (all_interfaces r) /\
         (how = "ip_command_auto" \/ how = "ifconfig_auto"
          \/ how = "sysfs_auto")
    else interface = Some name /\
         dict_get (all_interfaces r) name = Some value /\
         (how = "ip_command" \/ how = "ifconfig" \/ how = "sysfs").

Definition stage_sound (interface : option string) (st : stage) : Prop :=
  match st with
  | Returned r => sound interface r
  | Fell all => lo_free all
  end.

End Outcomes.

(** A machine on which [ip -o link show] prints the given text and nothing
    else is there. *)
Definition ip_only (output : string) : Net :=
  {| check_output :=
       fun cmd => if String.eqb cmd "ip -o link show" then Some output
                  else None;
     sys_class_net := None |}.

Section LinkShapes.
Local Open Scope string_scope.

(** One line of [ip -o link show], as in the comment of the source:
    [2: enp5s0: <BROADCAST,MULTICAST,UP,LOWER_UP> mtu 9000 ...]. *)
Record link := mkLink {
  link_index : Z;
  link_name : string;
  link_flags : string;     (* between the name and [mtu] *)
  link_mtu : Z;
  link_rest : string       (* after the MTU *)
}.

Definition link_line (l : link) : string :=
  py_str (link_index l) ++ ": " ++ link_name l ++ ":" ++ link_flags l
  ++ "mtu " ++ py_str (link_mtu l) ++ link_rest l.

(** The name is one token, the flags start with a blank, the numbers are
    natural, nothing after the MTU reads [mtu] or starts with a digit, and
    the line neither holds a newline nor ends with a blank. *)
Definition well_formed_link (l : link) : bool :=
  (0 <=? link_index l)%Z && (0 <=? link_mtu l)%Z
  && run_of not_space (link_name l)
  && head_in is_space (link_flags l) && all_in not_newline (link_flags l)
  && all_in not_newline (link_rest l)
  && negb (contains "mtu" (link_rest l))
  && negb (head_in is_digit (link_rest l))
  && String.eqb (rstrip (link_rest l)) (link_rest l).

(** The output of the command: one line per link. *)
Fixpoint ip_text (links : list link) : string :=
  match links with
  | [] => ""
  | l :: rest => link_line l ++ newline ++ ip_text rest
  end.

(** The interfaces that the loop records: every link but the loopback, a
    repeated name keeping its first place and its last MTU. *)
Fixpoint record_links (links : list link) (all : dict Z) : dict Z :=
  match links with
  | [] => all
  | l :: rest =>
      if String.eqb (link_name l) "lo" then record_links rest all
      else record_links rest (dict_set all (link_name l) (link_mtu l))
  end.

Definition sample_links : list link :=
  [ {| link_index := 1; link_name := "lo";
       link_flags := " <LOOPBACK,UP,LOWER_UP> "; link_mtu := 65536;
       link_rest := " qdisc noqueue state UNKNOWN" |};
    {| link_index := 2; link_name := "enp5s0";
       link_flags := " <BROADCAST,MULTICAST,UP,LOWER_UP> "; link_mtu := 9000;
       link_rest := " qdisc mq state UP qlen 1000" |};
    {| link_index := 3; link_name := "wlan0";
       link_flags := " <BROADCAST,MULTICAST> "; link_mtu := 1500;
       link_rest := " qdisc noop state DOWN" |};
    {| link_index := 4; link_name := "eth1";
       link_flags := " <BROADCAST,MULTICAST> "; link_mtu := 9000;
       link_rest := "" |} ].

(** [ifconfig] as net-tools 2 prints it: the MTU stands on the line that
    names the interface. *)
Definition names_its_line (line : string) : bool :=
  match match_at iface_re line with
  | Some _ => true
  | None => false
  end.

Definition mtu_on_header_lines (output : string) : bool :=
  forallb (fun line => negb (contains "mtu" (lower line))
                       || names_its_line line)
          (split_lines output).

Definition sample_ifconfig : string :=
  "enp5s0: flags=4163<UP,BROADCAST,RUNNING,MULTICAST>  mtu 9000" ++ newline
  ++ "        inet 10.0.0.2  netmask 255.255.255.0" ++ newline
  ++ newline
  ++ "lo: flags=73<UP,LOOPBACK,RUNNING>  mtu 65536" ++ newline
  ++ "        inet 127.0.0.1  netmask 255.0.0.0" ++ newline.

(** A machine on which only [ifconfig] answers. *)
Definition ifconfig_only (output : string) : Net :=
  {| check_output :=
       fun cmd => if String.eqb cmd "ifconfig" then Some output else None;
     sys_class_net := None |}.

End LinkShapes.

(** ** Theorems *)

(** *** Frame Parameter Calculator *)

Section CalculatorProofs.
Import Calculator.

Lemma py_div_some (a b : Q) : ~ (b == 0)%Q -> py_div a b = Some (a / b)%Q.
Proof.
  intros Hb. unfold py_div.
  destruct (Qeq_bool b 0) eqn:E; [|reflexivity].
  apply Qeq_bool_iff in E. contradiction.
Qed.

Lemma py_div_inject (a b : Z) :
  b <> 0%Z ->
  py_div (inject_Z a) (inject_Z b) = Some (inject_Z a / inject_Z b)%Q.
Proof.
  intros Hb. apply py_div_some. unfold Qeq, inject_Z. simpl. lia.
Qed.

Ltac qred :=
  unfold py_int, Qfloor, Qdiv, Qmult, Qinv, inject_Z;
  cbn [Qnum Qden Pos.mul].

(** From 28 bytes of MTU on, the call returns and its integer fields have
    a closed form in terms of the aligned payload. *)
Lemma frame_params_closed_form (m rate : Z) (dsd : bool) :
  (28 <= m)%Z -> (0 < rate)%Z ->
  exists p,
    calculate_frame_params (new_calculator m) rate dsd = Some p /\
    samples_per_frame p
    = (if dsd then 4 * aligned_payload m else aligned_payload m / 6)%Z /\
    audio_bytes p
    = (if dsd then aligned_payload m else 6 * (aligned_payload m / 6))%Z /\
    bytes_per_sample p = (if dsd then (1 # 4) else 6)%Q /\
    cycle_time_us p
    = (inject_Z (samples_per_frame p) / inject_Z rate * 1000000)%Q /\
    packet_rate_hz p = (inject_Z rate / inject_Z (samples_per_frame p))%Q /\
    total_frame_size p = (14 + 2 + audio_bytes p + 4)%Z.
Proof.
  intros Hm Hr.
  assert (Ha : (8 <= aligned_payload m)%Z)
    by (unfold aligned_payload; Z.div_mod_to_equations; lia).
  unfold calculate_frame_params, new_calculator, available_payload.
  unfold ETH_HEADER, DIRETTA_HEADER, VLAN_OVERHEAD, FCS.
  change (14 + 2 + 4)%Z with 20%Z.
  change 8%Q with (inject_Z 8).
  rewrite py_div_inject by lia. cbn [bind].
  assert (E1 : (py_int (inject_Z (m - 20) / inject_Z 8) * 8)%Z
               = aligned_payload m).
  { unfold aligned_payload; qred.
    Z.quot_rem_to_equations. Z.div_mod_to_equations. lia. }
  rewrite E1.
  destruct dsd.
  - rewrite (py_div_some (inject_Z (aligned_payload m)) (1 # 4))
      by discriminate.
    cbn [bind].
    assert (E2 : py_int (inject_Z (aligned_payload m) / (1 # 4))
                 = (4 * aligned_payload m)%Z).
    { qred. Z.quot_rem_to_equations. lia. }
    rewrite E2.
    assert (E3 : py_int (inject_Z (4 * aligned_payload m) * (1 # 4))
                 = aligned_payload m).
    { qred. Z.quot_rem_to_equations. lia. }
    rewrite E3.
    rewrite !py_div_inject by lia. cbn [bind].
    rewrite py_div_some by discriminate. cbn [bind].
    eexists. split; [reflexivity|]. cbn. repeat split; reflexivity.
  - rewrite (py_div_some (inject_Z (aligned_payload m)) 6) by discriminate.
    cbn [bind].
    assert (E2 : py_int (inject_Z (aligned_payload m) / 6)
                 = (aligned_payload m / 6)%Z).
    { qred. Z.quot_rem_to_equations. Z.div_mod_to_equations. lia. }
    rewrite E2.
    assert (E3 : py_int (inject_Z (aligned_payload m / 6) * 6)
                 = (6 * (aligned_payload m / 6))%Z).
    { qred. Z.quot_rem_to_equations. lia. }
    rewrite E3.
    assert (Hs : (aligned_payload m / 6 <> 0)%Z)
      by (Z.div_mod_to_equations; lia).
    rewrite !py_div_inject by lia. cbn [bind].
    rewrite py_div_some by discriminate. cbn [bind].
    eexists. split; [reflexivity|]. cbn. repeat split; reflexivity.
Qed.

(** The formulas of the specification, with their floors, in closed form. *)
Lemma spec_samples_per_frame_closed (m : Z) (dsd : bool) :
  spec_samples_per_frame m dsd
  = (if dsd then 4 * aligned_payload m else aligned_payload m / 6)%Z.
Proof.
  unfold spec_samples_per_frame, spec_bytes_per_sample, spec_overhead,
    aligned_payload.
  change (14 + 2 + 4)%Z with 20%Z.
  destruct dsd; qred; Z.div_mod_to_equations; lia.
Qed.

Lemma spec_audio_bytes_closed (m : Z) (dsd : bool) :
  spec_audio_bytes m dsd
  = (if dsd then aligned_payload m else 6 * (aligned_payload m / 6))%Z.
Proof.
  unfold spec_audio_bytes. rewrite spec_samples_per_frame_closed.
  unfold spec_bytes_per_sample.
  destruct dsd; qred; Z.div_mod_to_equations; lia.
Qed.

(** C4, as stated, fails: with an MTU of 20 bytes the payload is empty,
    [samples_per_frame] is 0 and the packet rate divides by zero, so the
    call raises instead of returning the stated fields. *)
Lemma frame_params_mtu_20_raises :
  ~ frame_params_as_specified 20 48000 true.
Proof.
  intros [p [H _]]. vm_compute in H. discriminate H.
Qed.

(** C4 (amended): for every MTU of at least 28 bytes and at most
    [exact_limit], every positive sample rate of at most [exact_limit] and
    either encoding, [calculate_frame_params] returns, and its fields are
    the formulas of the specification: payload [mtu - 20],
    [bytes_per_sample] 0.25 or 6, [samples_per_frame] and [audio_bytes] by
    the two floors, [cycle_time_us], [packet_rate_hz], and
    [total_frame_size = 14 + 2 + audio_bytes + 4].  Within these bounds the
    floors that the source takes of binary64 quotients are the floors of
    the exact quotients. *)
Theorem frame_params_formulas (m rate : Z) (dsd : bool) :
  (28 <= m <= exact_limit)%Z -> (0 < rate <= exact_limit)%Z ->
  frame_params_as_specified m rate dsd.
Proof.
  intros [Hm _] [Hr _].
  destruct (frame_params_closed_form m rate dsd Hm Hr)
    as (p & Hp & Hs & Ha & Hb & Hc & Hr' & Ht).
  exists p. split; [exact Hp|].
  split; [reflexivity|].
  split; [rewrite Hb; reflexivity|].
  split; [rewrite Hs, spec_samples_per_frame_closed; reflexivity|].
  split; [rewrite Ha, spec_audio_bytes_closed; reflexivity|].
  split; [rewrite Hc; reflexivity|].
  split; [rewrite Hr'; reflexivity|].
  exact Ht.
Qed.

(** The default jumbo frame of the source: MTU 9024, DSD256 at 48 kHz. *)
Lemma frame_params_formulas_witness :
  (28 <= 9024 <= exact_limit)%Z /\ (0 < 12288000 <= exact_limit)%Z /\
  frame_params_as_specified 9024 12288000 true.
Proof.
  assert (Hm : (28 <= 9024 <= exact_limit)%Z) by (unfold exact_limit; lia).
  assert (Hr : (0 < 12288000 <= exact_limit)%Z) by (unfold exact_limit; lia).
  split; [exact Hm|]. split; [exact Hr|].
  exact (frame_params_formulas 9024 12288000 true Hm Hr).
Defined.

(** C5, as stated, fails: with an MTU of 1500 bytes in PCM mode the
    payload budget is 1480 bytes, 246 samples of 6 bytes fit, and
    [audio_bytes] is 1476, which is not a multiple of 8. *)
Lemma frame_geometry_pcm_1500 :
  ~ frame_geometry_as_specified 1500 384000 false.
Proof.
  intros H.
  destruct (frame_params_closed_form 1500 384000 false) as (p & Hp & _ & Ha & _);
    [lia | lia |].
  destruct (H p Hp) as (_ & _ & [k Hk] & _).
  rewrite Ha in Hk.
  change (6 * (aligned_payload 1500 / 6))%Z with 1476%Z in Hk. lia.
Qed.

(** C5 (amended): for every MTU of at least 28 bytes and at most
    [exact_limit], and every positive sample rate of at most [exact_limit],
    [audio_bytes] never exceeds [mtu - 20] and is exactly
    [samples_per_frame * bytes_per_sample]; in DSD mode it is the largest
    multiple of 8 that fits in [mtu - 20]; in PCM mode it is the largest
    multiple of 6 (one stereo sample) that fits in the payload rounded down
    to a multiple of 8. *)
Theorem frame_geometry_bound (m rate : Z) (dsd : bool) :
  (28 <= m <= exact_limit)%Z -> (0 < rate <= exact_limit)%Z ->
  exists p,
    calculate_frame_params (new_calculator m) rate dsd = Some p /\
    (audio_bytes p <= m - spec_overhead)%Z /\
    (inject_Z (audio_bytes p) ==
       inject_Z (samples_per_frame p) * bytes_per_sample p)%Q /\
    (if dsd
     then largest_multiple 8 (m - spec_overhead) (audio_bytes p)
     else largest_multiple 6 (aligned_payload m) (audio_bytes p)).
Proof.
  intros [Hm _] [Hr _].
  destruct (frame_params_closed_form m rate dsd Hm Hr)
    as (p & Hp & Hs & Ha & Hb & _).
  exists p. split; [exact Hp|].
  rewrite Ha, Hs, Hb. unfold spec_overhead, largest_multiple.
  change (14 + 2 + 4)%Z with 20%Z.
  assert (Hal : (aligned_payload m <= m - 20)%Z)
    by (unfold aligned_payload; Z.div_mod_to_equations; lia).
  destruct dsd.
  - split; [exact Hal|].
    split; [unfold Qeq; qred; lia|].
    split; [exists ((m - 20) / 8)%Z; unfold aligned_payload; lia|].
    split; [exact Hal|].
    intros k [q Hq] Hk. unfold aligned_payload.
    Z.div_mod_to_equations. lia.
  - split; [Z.div_mod_to_equations; lia|].
    split; [unfold Qeq; qred; lia|].
    split; [exists (aligned_payload m / 6)%Z; lia|].
    split; [Z.div_mod_to_equations; lia|].
    intros k [q Hq] Hk. Z.div_mod_to_equations. lia.
Qed.

(** A standard frame in PCM mode: MTU 1500, eight times 48 kHz. *)
Lemma frame_geometry_bound_witness :
  (28 <= 1500 <= exact_limit)%Z /\ (0 < 384000 <= exact_limit)%Z /\
  exists p,
    calculate_frame_params (new_calculator 1500) 384000 false = Some p /\
    (audio_bytes p <= 1500 - spec_overhead)%Z /\
    (inject_Z (audio_bytes p) ==
       inject_Z (samples_per_frame p) * bytes_per_sample p)%Q /\
    largest_multiple 6 (aligned_payload 1500) (audio_bytes p).
Proof.
  assert (Hm : (28 <= 1500 <= exact_limit)%Z) by (unfold exact_limit; lia).
  assert (Hr : (0 < 384000 <= exact_limit)%Z) by (unfold exact_limit; lia).
  split; [exact Hm|]. split; [exact Hr|].
  exact (frame_geometry_bound 1500 384000 false Hm Hr).
Defined.

End CalculatorProofs.

(** *** Quality Classifier: network timing jitter *)

Lemma Qltb_spec (a b : Q) : BoolSpec (a < b)%Q (b <= a)%Q (Qltb a b).
Proof.
  unfold Qltb. destruct (Qle_bool b a) eqn:E; constructor.
  - apply Qle_bool_iff. exact E.
  - apply Qnot_le_lt. intros H. apply Qle_bool_iff in H. congruence.
Qed.

Ltac split_Qltb :=
  repeat match goal with
         | |- context [Qltb ?a ?b] => destruct (Qltb_spec a b)
         end.

Lemma quality_assessment_by_table (p : Q) :
  quality_assessment p = jitter_label (jitter_grade p).
Proof.
  unfold quality_assessment, jitter_grade, jitter_table, grade_by_table.
  split_Qltb; reflexivity.
Qed.

Lemma jitter_label_injective (g1 g2 : grade) :
  jitter_label g1 = jitter_label g2 -> g1 = g2.
Proof.
  destruct g1, g2; intros H; try reflexivity; discriminate H.
Qed.

Lemma jitter_grade_monotone (p q : Q) :
  (p <= q)%Q -> (rank (jitter_grade q) <= rank (jitter_grade p))%nat.
Proof.
  intros H. unfold jitter_grade, jitter_table, grade_by_table.
  split_Qltb; cbn [rank]; try lia; exfalso; lra.
Qed.

(** C3: the jitter assessment that the report shows is the grade that the
    fixed ascending table (<0.1 Exceptional, <0.5 Excellent, <1.0 Very Good,
    <2.0 Good, <5.0 Fair, else Poor) assigns to
    [iqr_pct = iqr / reference_cycle_time_us * 100]; it depends on [iqr_pct]
    alone, and a smaller [iqr_pct] never receives a lower grade in the order
    Exceptional > Excellent > Very Good > Good > Fair > Poor. *)
Theorem jitter_grade_table_monotone :
  (forall np_std c x rest,
      truthy c = true ->
      nth_error (jitter_section np_std (Some c) (x :: rest)) 2
      = Some [ T "   Assessment:            ";
               T (jitter_label
                    (jitter_grade
                       (st_iqr (analyze_stability np_std (x :: rest))
                        / c * 100))) ]) /\
  (forall g1 g2, jitter_label g1 = jitter_label g2 -> g1 = g2) /\
  (forall p,
      ((p < 0.1)%Q -> jitter_grade p = Exceptional) /\
      ((0.1 <= p)%Q -> (p < 0.5)%Q -> jitter_grade p = Excellent) /\
      ((0.5 <= p)%Q -> (p < 1.0)%Q -> jitter_grade p = VeryGood) /\
      ((1.0 <= p)%Q -> (p < 2.0)%Q -> jitter_grade p = Good) /\
      ((2.0 <= p)%Q -> (p < 5.0)%Q -> jitter_grade p = Fair) /\
      ((5.0 <= p)%Q -> jitter_grade p = Poor)) /\
  (forall p q, (p == q)%Q -> jitter_grade p = jitter_grade q) /\
  (forall p q,
      (p <= q)%Q -> (rank (jitter_grade q) <= rank (jitter_grade p))%nat).
Proof.
  split.
  { intros np_std c x rest Hc. unfold jitter_section. rewrite Hc.
    cbn [app nth_error]. rewrite quality_assessment_by_table. reflexivity. }
  split; [exact jitter_label_injective|].
  split.
  { intros p. unfold jitter_grade, jitter_table, grade_by_table.
    repeat split; intros; split_Qltb; try reflexivity; exfalso; lra. }
  split.
  { intros p q H. unfold jitter_grade, jitter_table, grade_by_table.
    split_Qltb; try reflexivity; exfalso; lra. }
  exact jitter_grade_monotone.
Qed.

(** The two end-to-end examples of the specification against a reference
    of 1920 microseconds, and one comparison of ranks. *)
Lemma jitter_grade_table_monotone_witness :
  nth_error (jitter_section (fun _ => 0%Q) (Some 1920%Q) steady_cycles) 2
  = Some [ T "   Assessment:            ";
           T "✓ Exceptional (IQR < 0.1% of cycle)" ] /\
  nth_error (jitter_section (fun _ => 0%Q) (Some 1920%Q) unsteady_cycles) 2
  = Some [ T "   Assessment:            ";
           T "✗ Poor (IQR ≥ 5.0% of cycle)" ] /\
  jitter_grade 0.3 = Excellent /\
  (rank (jitter_grade 6.5) <= rank (jitter_grade 0.052))%nat.
Proof.
  destruct jitter_grade_table_monotone as (Hs & _ & Ht & _ & Hm).
  split; [unfold steady_cycles; rewrite Hs by reflexivity; reflexivity|].
  split; [unfold unsteady_cycles; rewrite Hs by reflexivity; reflexivity|].
  split; [apply (Ht 0.3%Q); reflexivity || discriminate|].
  apply Hm. discriminate.
Defined.

(** *** Quality Classifier: buffer correction *)

Lemma quality_by_table (iqr abs_mean : Q) :
  correction_label (correction_grade iqr abs_mean)
  = Some (quality iqr abs_mean).
Proof.
  unfold quality, correction_grade, correction_table, grade_by_joint_table.
  split_Qltb; reflexivity.
Qed.

Lemma buffer_section_short (np_std : list Q -> Q) (corr diff : list Q) :
  (length corr < 10)%nat ->
  buffer_section np_std corr diff
  = [ [ T "2. BUFFER STABILITY: Insufficient data (need ≥10 samples, found ";
        Plain (Z.of_nat (length corr)); T ")" ] ].
Proof.
  intros H. unfold buffer_section.
  replace (10 <=? length corr)%nat with false
    by (symmetry; apply Nat.leb_gt; exact H).
  rewrite andb_false_r. destruct corr; reflexivity.
Qed.

Lemma buffer_section_graded (np_std : list Q -> Q) (corr diff : list Q) :
  (10 <= length corr)%nat ->
  nth_error (buffer_section np_std corr diff) 2
  = Some [ T "   Assessment:         ";
           T (quality (st_iqr (analyze_stability np_std corr))
                (Qabs (st_mean (analyze_stability np_std corr)))) ].
Proof.
  intros H. unfold buffer_section.
  replace (10 <=? length corr)%nat with true
    by (symmetry; apply Nat.leb_le; exact H).
  replace (length corr =? 0)%nat with false
    by (symmetry; apply Nat.eqb_neq; lia).
  reflexivity.
Qed.

(** C6: the buffer correction grade is assigned only from 10 correction
    samples on; below that the section is the single "Insufficient data"
    line and carries no grade.  When graded, the assessment follows the
    joint chain on (iqr, |mean|): (iqr<0.001 and |mean|<0.005) Exceptional;
    (iqr<0.005 and |mean|<0.010) Excellent; (iqr<0.010 and |mean|<0.020)
    Good; (iqr<0.020) Fair; else Poor.  Twelve samples with mean 0.002 and
    IQR 0.0008 grade Exceptional; eight samples yield "Insufficient data". *)
Theorem correction_grade_needs_ten_samples :
  (forall np_std corr diff,
      (length corr < 10)%nat ->
      buffer_section np_std corr diff
      = [ [ T "2. BUFFER STABILITY: Insufficient data (need ≥10 samples, found ";
            Plain (Z.of_nat (length corr)); T ")" ] ]) /\
  (forall np_std corr diff,
      (10 <= length corr)%nat ->
      exists label,
        correction_label
          (correction_grade (st_iqr (analyze_stability np_std corr))
             (Qabs (st_mean (analyze_stability np_std corr))))
        = Some label /\
        nth_error (buffer_section np_std corr diff) 2
        = Some [ T "   Assessment:         "; T label ]) /\
  (forall iqr m,
      let c1 := (iqr < 0.001 /\ m < 0.005)%Q in
      let c2 := (iqr < 0.005 /\ m < 0.010)%Q in
      let c3 := (iqr < 0.010 /\ m < 0.020)%Q in
      let c4 := (iqr < 0.020)%Q in
      (c1 -> correction_grade iqr m = Exceptional) /\
      (~ c1 -> c2 -> correction_grade iqr m = Excellent) /\
      (~ c1 -> ~ c2 -> c3 -> correction_grade iqr m = Good) /\
      (~ c1 -> ~ c2 -> ~ c3 -> c4 -> correction_grade iqr m = Fair) /\
      (~ c1 -> ~ c2 -> ~ c3 -> ~ c4 -> correction_grade iqr m = Poor)) /\
  (forall np_std corr diff,
      length corr = 12%nat ->
      (st_mean (analyze_stability np_std corr) == 0.002)%Q ->
      (st_iqr (analyze_stability np_std corr) == 0.0008)%Q ->
      nth_error (buffer_section np_std corr diff) 2
      = Some [ T "   Assessment:         ";
               T "✓ Exceptional - Minimal buffer adjustments needed" ]) /\
  (forall np_std corr diff,
      length corr = 8%nat ->
      buffer_section np_std corr diff
      = [ [ T "2. BUFFER STABILITY: Insufficient data (need ≥10 samples, found ";
            Plain 8; T ")" ] ]).
Proof.
  split; [exact buffer_section_short|].
  split.
  { intros np_std corr diff H. eexists. split; [apply quality_by_table|].
    apply buffer_section_graded. exact H. }
  split.
  { intros iqr m c1 c2 c3 c4. subst c1 c2 c3 c4.
    unfold correction_grade, correction_table, grade_by_joint_table.
    repeat split; intros; split_Qltb; cbn [andb]; try reflexivity;
      exfalso; tauto || lra. }
  split.
  { intros np_std corr diff Hl Hm Hi.
    rewrite buffer_section_graded by lia.
    assert (Ha : (Qabs (st_mean (analyze_stability np_std corr)) == 0.002)%Q)
      by (rewrite Hm; reflexivity).
    unfold quality.
    destruct (Qltb_spec (st_iqr (analyze_stability np_std corr)) 0.001);
      [|exfalso; lra].
    destruct (Qltb_spec (Qabs (st_mean (analyze_stability np_std corr))) 0.005);
      [|exfalso; lra].
    reflexivity. }
  intros np_std corr diff Hl.
  rewrite buffer_section_short by lia. rewrite Hl. reflexivity.
Qed.

(** Twelve corrections with mean 0.002 and IQR 0.0008, and the first
    eight of them. *)
Lemma correction_grade_needs_ten_samples_witness :
  nth_error (buffer_section (fun _ => 0%Q) twelve_corrections []) 2
  = Some [ T "   Assessment:         ";
           T "✓ Exceptional - Minimal buffer adjustments needed" ] /\
  buffer_section (fun _ => 0%Q) (firstn 8 twelve_corrections) []
  = [ [ T "2. BUFFER STABILITY: Insufficient data (need ≥10 samples, found ";
        Plain 8; T ")" ] ].
Proof.
  destruct correction_grade_needs_ten_samples as (_ & _ & _ & H12 & H8).
  split.
  - apply H12; [reflexivity | vm_compute; reflexivity | vm_compute; reflexivity].
  - apply H8. reflexivity.
Defined.

(** *** Stability Report Builder *)

Lemma parsed_items (logs : string) :
  length (parse_diretta_logs logs) = 4%nat /\
  dict_item (parse_diretta_logs logs) "buffer_diff" = acc_diff (collect logs) /\
  dict_item (parse_diretta_logs logs) "buffer_avg" = acc_avg (collect logs) /\
  dict_item (parse_diretta_logs logs) "correction" = acc_corr (collect logs) /\
  dict_item (parse_diretta_logs logs) "cycle_times" = acc_cycle (collect logs).
Proof. repeat split; reflexivity. Qed.

Lemma collect_empty :
  collect EmptyString
  = {| acc_diff := []; acc_avg := []; acc_corr := []; acc_cycle := [] |}.
Proof. reflexivity. Qed.

Lemma length_eqb_nil {A : Type} (l : list A) :
  (length l =? 0)%nat = true <-> l = [].
Proof. destruct l; cbn; split; intros H; congruence. Qed.

Section Runs.

Variable np_std : list Q -> Q.

(** A run that finds no log text stops after the "No logs found" line. *)
Lemma run_without_logs (w : World) (self : DirettaMonitor) (n : Z) :
  journalctl w (service_name self) n = None \/
  journalctl w (service_name self) n = Some EmptyString ->
  analyze_recent_logs np_std w self n
  = (opening w self n
     ++ [ [T "✗ No logs found for service '"; T (service_name self);
           T "'."] ],
     {| service_name := service_name self;
        cycle_time_us := before_logs w self |}).
Proof.
  intros H. unfold analyze_recent_logs, opening, before_logs.
  destruct self as [sn [c|]]; cbn [service_name cycle_time_us] in *;
    destruct H as [H|H]; rewrite H; cbn [String.length Nat.eqb];
    rewrite <- !app_assoc; reflexivity.
Qed.

(** A run that finds log text goes through both sections: the branch
    "Could not parse log data" is never taken, because the dictionary of
    [parse_diretta_logs] always holds its four keys. *)
Lemma run_with_logs (w : World) (self : DirettaMonitor) (n : Z)
    (logs : string) :
  journalctl w (service_name self) n = Some logs ->
  logs <> EmptyString ->
  analyze_recent_logs np_std w self n
  = (opening w self n
     ++ [ [T "✓ Logs captured. Performing analysis."]; [T ""];
          [T "✓ Parsed ";
           Grouped (Z.of_nat (length (acc_cycle (collect logs))));
           T " log entries"];
          [T ""] ]
     ++ (if negb (truthy_opt (before_logs w self))
            && negb (length (acc_cycle (collect logs)) =? 0)%nat
         then [ [T "✓ Detected CycleTime: ";
                 Fixed 1 (np_mean (acc_cycle (collect logs)));
                 T " μs (from log data)"];
                [T ""] ]
         else [])
     ++ jitter_section np_std
          (after_logs (before_logs w self) (acc_cycle (collect logs)))
          (acc_cycle (collect logs))
     ++ [ [T ""] ]
     ++ buffer_section np_std (acc_corr (collect logs))
          (acc_diff (collect logs))
     ++ [ [T (newline ++ rep "=" 100)] ],
     {| service_name := service_name self;
        cycle_time_us :=
          after_logs (before_logs w self) (acc_cycle (collect logs)) |}).
Proof.
  intros H Hne. unfold analyze_recent_logs, opening, before_logs, after_logs.
  destruct (parsed_items logs) as (Hl & Hd & _ & Hc & Hy).
  destruct self as [sn [c|]]; cbn [service_name cycle_time_us] in *;
    rewrite H;
    (destruct logs as [|a logs']; [contradiction|]);
    cbn [String.length Nat.eqb];
    rewrite Hl, Hd, Hc, Hy; cbn [Nat.eqb];
    match goal with
    | |- context [negb (truthy_opt ?x) && ?y] =>
        destruct (negb (truthy_opt x) && y)
    end;
    cbn [service_name cycle_time_us];
    rewrite <- !app_assoc; reflexivity.
Qed.

(** The reference cycle time that a run leaves in the monitor. *)
Lemma run_state (w : World) (self : DirettaMonitor) (n : Z) :
  cycle_time_us (snd (analyze_recent_logs np_std w self n))
  = after_logs (before_logs w self)
      (acc_cycle (collect (retrieved w self n))).
Proof.
  unfold retrieved.
  destruct (journalctl w (service_name self) n) as [logs|] eqn:E.
  - destruct logs as [|a logs'].
    + rewrite run_without_logs by (right; exact E).
      cbn [snd cycle_time_us]. rewrite collect_empty. cbn [acc_cycle].
      unfold after_logs. cbn. rewrite andb_false_r. reflexivity.
    + rewrite (run_with_logs w self n _ E) by discriminate. reflexivity.
  - rewrite run_without_logs by (left; exact E).
    cbn [snd cycle_time_us]. rewrite collect_empty.
    unfold after_logs. cbn. rewrite andb_false_r. reflexivity.
Qed.

End Runs.

(** **** Statistics sentinel and the jitter grade (C1) *)

Lemma analyze_stability_sentinel (np_std : list Q -> Q) (values : list Q) :
  (length values < 2)%nat ->
  analyze_stability np_std values = sentinel (length values).
Proof.
  intros H. unfold analyze_stability.
  replace (length values <? 2)%nat with true
    by (symmetry; apply Nat.ltb_lt; exact H).
  reflexivity.
Qed.

Lemma zero_iqr_is_exceptional (c : Q) :
  quality_assessment (0 / c * 100)
  = "✓ Exceptional (IQR < 0.1% of cycle)"%string.
Proof.
  unfold quality_assessment.
  assert (E : (0 / c * 100 == 0)%Q) by (unfold Qdiv; ring).
  destruct (Qltb_spec (0 / c * 100) 0.1); [reflexivity|]. exfalso. lra.
Qed.

(** C1 (the code departs from the claim): below two samples
    [analyze_stability] does return the all-zero sentinel with the count
    kept, but the jitter section does not look at the count.  With one
    cycle-time sample and a truthy reference it reports the grade
    "Exceptional" from the sentinel's zero IQR; the run on the journal that
    holds the single line [sample_line], with nothing configured, shows
    "Parsed 1 log entries", "Assessment: Exceptional" and
    "Samples found: 1". *)
Theorem single_sample_graded_exceptional :
  (forall np_std values,
      (length values < 2)%nat ->
      analyze_stability np_std values = sentinel (length values)) /\
  (forall np_std c x,
      truthy c = true ->
      nth_error (jitter_section np_std (Some c) [x]) 2
      = Some [ T "   Assessment:            ";
               T "✓ Exceptional (IQR < 0.1% of cycle)" ] /\
      nth_error (jitter_section np_std (Some c) [x]) 3
      = Some [ T "   Samples found:         "; Grouped 1 ]) /\
  (forall np_std,
      nth_error
        (fst (analyze_recent_logs np_std one_sample_world fresh_monitor 1000))
        43
      = Some [ T "✓ Parsed "; Grouped 1; T " log entries" ] /\
      nth_error
        (fst (analyze_recent_logs np_std one_sample_world fresh_monitor 1000))
        49
      = Some [ T "   Assessment:            ";
               T "✓ Exceptional (IQR < 0.1% of cycle)" ] /\
      nth_error
        (fst (analyze_recent_logs np_std one_sample_world fresh_monitor 1000))
        50
      = Some [ T "   Samples found:         "; Grouped 1 ]).
Proof.
  split; [exact analyze_stability_sentinel|].
  split.
  - intros np_std c x Hc. unfold jitter_section. rewrite Hc.
    rewrite analyze_stability_sentinel by (cbn; lia).
    cbn [app nth_error sentinel st_iqr st_count length].
    rewrite zero_iqr_is_exceptional. split; reflexivity.
  - intros np_std. vm_compute. repeat split.
Qed.

(** One cycle time of 3185.96045 microseconds, graded against itself. *)
Lemma single_sample_graded_exceptional_witness :
  analyze_stability (fun _ => 0%Q) [3185.96045%Q] = sentinel 1 /\
  nth_error (jitter_section (fun _ => 0%Q) (Some 3185.96045%Q) [3185.96045%Q])
    2
  = Some [ T "   Assessment:            ";
           T "✓ Exceptional (IQR < 0.1% of cycle)" ].
Proof.
  destruct single_sample_graded_exceptional as (Hs & Hj & _).
  split.
  - apply (Hs (fun _ => 0%Q) [3185.96045%Q]). cbn. lia.
  - apply (Hj (fun _ => 0%Q) 3185.96045%Q 3185.96045%Q). reflexivity.
Defined.

(** **** Logs without a single match (C2) *)

Ltac not_a_line H :=
  repeat (destruct H as [H|H];
          [try discriminate H; vm_compute in H; discriminate H|]).

Lemma opening_has_no_parse_failure (w : World) (self : DirettaMonitor)
    (n : Z) :
  ~ In [T "✗ Could not parse log data. Check log format."] (opening w self n).
Proof.
  intros H. unfold opening in H. apply in_app_or in H. destruct H as [H|H].
  - unfold report_head in H. cbn [In] in H. not_a_line H. exact H.
  - cbn [In] in H. destruct (before_logs w self) as [c|];
      [destruct (truthy c)|]; not_a_line H; exact H.
Qed.

(** C2 (the code departs from the claim): when the journal returns text in
    which the pattern matches nowhere, the run does not stop with "Could
    not parse log data".  It goes on: "Parsed 0 log entries", then the two
    section lines "No 'cy=' data found" and "Insufficient data ... found 0",
    then the closing rule; the "Could not parse" line is nowhere in the
    report. *)
Theorem unparseable_logs_run_to_the_end (np_std : list Q -> Q) (w : World)
    (self : DirettaMonitor) (n : Z) (logs : string) :
  journalctl w (service_name self) n = Some logs ->
  logs <> EmptyString ->
  finditer pattern logs = [] ->
  fst (analyze_recent_logs np_std w self n)
  = opening w self n
    ++ [ [T "✓ Logs captured. Performing analysis."]; [T ""];
         [T "✓ Parsed "; Grouped 0; T " log entries"]; [T ""];
         [T "1. NETWORK TIMING JITTER: No 'cy=' data found."]; [T ""];
         [T "2. BUFFER STABILITY: Insufficient data (need ≥10 samples, found ";
          Plain 0; T ")"];
         [T (newline ++ rep "=" 100)] ]
  /\ ~ In [T "✗ Could not parse log data. Check log format."]
          (fst (analyze_recent_logs np_std w self n)).
Proof.
  intros Hj Hne Hm.
  assert (E : fst (analyze_recent_logs np_std w self n)
    = opening w self n
    ++ [ [T "✓ Logs captured. Performing analysis."]; [T ""];
         [T "✓ Parsed "; Grouped 0; T " log entries"]; [T ""];
         [T "1. NETWORK TIMING JITTER: No 'cy=' data found."]; [T ""];
         [T "2. BUFFER STABILITY: Insufficient data (need ≥10 samples, found ";
          Plain 0; T ")"];
         [T (newline ++ rep "=" 100)] ]).
  { rewrite (run_with_logs np_std w self n _ Hj Hne).
    unfold collect. rewrite Hm.
    cbn [fold_left acc_cycle acc_corr acc_diff length Nat.eqb negb].
    rewrite andb_false_r. reflexivity. }
  split; [exact E|].
  rewrite E. intros H. apply in_app_or in H. destruct H as [H|H].
  - exact (opening_has_no_parse_failure w self n H).
  - cbn [In] in H. not_a_line H. exact H.
Qed.

(** A journal that holds the one word "hello". *)
Lemma unparseable_logs_run_to_the_end_witness :
  ~ In [T "✗ Could not parse log data. Check log format."]
       (fst (analyze_recent_logs (fun _ => 0%Q) no_sample_world fresh_monitor
               1000)).
Proof.
  apply (unparseable_logs_run_to_the_end (fun _ => 0%Q) no_sample_world
           fresh_monitor 1000 "hello");
    [reflexivity | discriminate | reflexivity].
Defined.

(** **** Reference cycle time (C7) *)

(** C7, as stated, fails: with no explicit value and a configuration file
    that reads [CycleTime=0], the value of the configuration is not used;
    the run infers the mean of the logged cycle times instead. *)
Lemma reference_zero_config :
  ~ (forall np_std,
        reference_as_specified (cycle_time_us fresh_monitor)
          (_detect_cycle_time zero_config_world)
          (acc_cycle (collect (retrieved zero_config_world fresh_monitor 1000)))
          (cycle_time_us
             (snd (analyze_recent_logs np_std zero_config_world fresh_monitor
                     1000)))).
Proof.
  intros H. destruct (H (fun _ => 0%Q)) as (_ & H2 & _).
  assert (Hn : ~ explicit_positive (cycle_time_us fresh_monitor)).
  { intros (c & Hc & _). discriminate Hc. }
  specialize (H2 Hn 0%Q eq_refl). vm_compute in H2. discriminate H2.
Qed.

(** C7 (amended): the reference cycle time that a run leaves in the monitor
    follows the precedence explicit > configuration > inferred, with
    truthiness as the test of presence.  An explicit non-zero value is used
    unchanged; with no explicit value, a non-zero [CycleTime] of the
    configuration is used; in every other case (nothing found, or a zero
    value) it is the arithmetic mean of the extracted cycle times when
    there are any, and stays as it was when there are none. *)
Theorem reference_resolution (np_std : list Q -> Q) (w : World)
    (self : DirettaMonitor) (n : Z) :
  reference_by_truthiness (cycle_time_us self) (_detect_cycle_time w)
    (acc_cycle (collect (retrieved w self n)))
    (cycle_time_us (snd (analyze_recent_logs np_std w self n))).
Proof.
  rewrite run_state. unfold reference_by_truthiness, after_logs, before_logs.
  split; [|split; [|intros Ht; split]].
  - intros c E Ht. rewrite E. cbn [truthy_opt]. rewrite Ht. reflexivity.
  - intros E v Ev Ht. rewrite E, Ev. cbn [truthy_opt]. rewrite Ht.
    reflexivity.
  - intros Hd. destruct (cycle_time_us self) as [c|];
      rewrite Ht; cbn [negb andb];
      destruct (length (acc_cycle (collect (retrieved w self n))) =? 0)%nat
        eqn:E;
      try reflexivity; apply length_eqb_nil in E; contradiction.
  - intros Hd. rewrite Hd. cbn. rewrite andb_false_r.
    destruct (cycle_time_us self); reflexivity.
Qed.

(** A configuration that reads [CycleTime=3185] is used; with nothing
    configured the one logged cycle time is the reference. *)
Lemma reference_resolution_witness :
  cycle_time_us
    (snd (analyze_recent_logs (fun _ => 0%Q) configured_world fresh_monitor
            1000))
  = Some 3185%Q /\
  cycle_time_us
    (snd (analyze_recent_logs (fun _ => 0%Q) one_sample_world fresh_monitor
            1000))
  = Some (np_mean [(3185960450 / 1000000)%Q]).
Proof.
  split.
  - destruct (reference_resolution (fun _ => 0%Q) configured_world
                fresh_monitor 1000) as (_ & H & _).
    apply (H eq_refl 3185%Q); reflexivity.
  - destruct (reference_resolution (fun _ => 0%Q) one_sample_world
                fresh_monitor 1000) as (_ & _ & H).
    destruct (H eq_refl) as [H1 _]. apply H1. discriminate.
Defined.

(** **** The clock of a report *)

(** Every report carries the reading of the clock: two runs of one monitor
    on the same journal text differ in their "Generated:" line when the
    clock has moved on. *)
Lemma purity_two_clocks :
  ~ purity_as_specified one_sample_world later_world fresh_monitor 1000.
Proof.
  intros H. specialize (H (fun _ => 0%Q) eq_refl).
  apply (f_equal (fun r => nth_error r 38)) in H.
  vm_compute in H. discriminate H.
Qed.

(** *** Log Sample Extractor *)

Section ExtractorProofs.
Local Open Scope string_scope.

(** **** Strings and the matcher *)

Lemma append_assoc (a b c : string) : (a ++ b) ++ c = a ++ (b ++ c).
Proof. induction a; cbn; congruence. Qed.

Lemma length_append (a b : string) :
  String.length (a ++ b) = (String.length a + String.length b)%nat.
Proof. induction a; cbn; congruence. Qed.

Lemma all_in_append (p : ascii -> bool) (a b : string) :
  all_in p (a ++ b) = all_in p a && all_in p b.
Proof. induction a; cbn; [reflexivity|]. rewrite IHa. apply andb_assoc. Qed.

Lemma strip_prefix_sound (l s s' : string) :
  strip_prefix l s = Some s' -> s = l ++ s'.
Proof.
  revert s. induction l as [|a l IH]; intros s H; cbn in *.
  - congruence.
  - destruct s as [|b s]; [discriminate|].
    destruct (Ascii.eqb_spec a b); [|discriminate]. subst. f_equal. auto.
Qed.

Lemma strip_prefix_append (l s : string) : strip_prefix l (l ++ s) = Some s.
Proof. induction l; cbn; [reflexivity|]. rewrite Ascii.eqb_refl. exact IHl. Qed.

Lemma star_loop_sound (p : ascii -> bool) (s : string) (caps : captures)
    (k : cont) (res : captures * string) :
  star_loop p s caps k = Some res ->
  exists x s', s = x ++ s' /\ all_in p x = true /\ k s' caps = Some res.
Proof.
  induction s as [|c s IH]; cbn; intros H.
  - exists "", "". auto.
  - destruct (p c) eqn:Hp.
    + destruct (star_loop p s caps k) as [r|] eqn:E.
      * destruct (IH H) as (x & s' & -> & Hx & Hk).
        exists (String c x), s'. cbn. rewrite Hp, Hx. auto.
      * exists "", (String c s). auto.
    + exists "", (String c s). auto.
Qed.

Lemma rmatch_sound (r : regex) :
  forall s caps k res,
    rmatch r s caps k = Some res ->
    exists x s' caps', s = x ++ s' /\ lang r x /\ k s' caps' = Some res.
Proof.
  induction r as [l|p|r IH|p|p|r1 IH1 r2 IH2|r IH]; intros s caps k res H; cbn in H.
  - destruct (strip_prefix l s) as [s'|] eqn:E; [|discriminate].
    apply strip_prefix_sound in E. exists l, s', caps. cbn. auto.
  - destruct s as [|c s]; [discriminate|]. destruct (p c) eqn:Hp; [|discriminate].
    exists (String c ""), s, caps. cbn. eauto.
  - destruct (rmatch r s caps k) as [x|] eqn:E.
    + destruct (IH _ _ _ _ E) as (y & s' & caps' & -> & Hl & Hk).
      exists y, s', caps'. cbn. inversion H; subst. auto.
    + exists "", s, caps. cbn. auto.
  - destruct s as [|c s]; [discriminate|]. destruct (p c) eqn:Hp; [|discriminate].
    destruct (star_loop_sound _ _ _ _ _ H) as (x & s' & -> & Hx & Hk).
    exists (String c x), s', caps. cbn. unfold run_of. cbn. rewrite Hp, Hx. auto.
  - destruct (star_loop_sound _ _ _ _ _ H) as (x & s' & -> & Hx & Hk).
    exists x, s', caps. cbn. auto.
  - destruct (IH1 _ _ _ _ H) as (x1 & s1 & caps1 & -> & Hl1 & Hk1).
    destruct (IH2 _ _ _ _ Hk1) as (x2 & s2 & caps2 & -> & Hl2 & Hk2).
    exists (x1 ++ x2), s2, caps2. rewrite append_assoc. cbn. eauto 10.
  - destruct (IH _ _ _ _ H) as (x & s' & caps' & -> & Hl & Hk).
    exists x, s', (caps' ++ [take (String.length (x ++ s') - String.length s') (x ++ s')])%list.
    cbn. auto.
Qed.

(** **** Character classes and greedy matches *)

Ltac by_ascii :=
  let c := fresh "c" in
  intros c; destruct c as [[|] [|] [|] [|] [|] [|] [|] [|]];
  vm_compute; intros; congruence.

Lemma blank_is_space : forall c, is_blank c = true -> is_space c = true.
Proof. by_ascii. Qed.
Lemma space_not_digit : forall c, is_space c = true -> is_digit c = false.
Proof. by_ascii. Qed.
Lemma digit_not_space : forall c, is_digit c = true -> is_space c = false.
Proof. by_ascii. Qed.
Lemma digit_not_sign : forall c, is_digit c = true -> is_sign c = false.
Proof. by_ascii. Qed.
Lemma sign_not_space : forall c, is_sign c = true -> is_space c = false.
Proof. by_ascii. Qed.
Lemma digit_not_dot : forall c, is_digit c = true -> Ascii.eqb c "." = false.
Proof. by_ascii. Qed.

Lemma all_in_weaken (p q : ascii -> bool) (s : string) :
  (forall c, p c = true -> q c = true) -> all_in p s = true -> all_in q s = true.
Proof.
  intros Hpq. induction s as [|c s IH]; cbn; [reflexivity|].
  intros H. apply andb_true_iff in H. destruct H as [H1 H2].
  rewrite (Hpq _ H1), (IH H2). reflexivity.
Qed.

Lemma run_of_weaken (p q : ascii -> bool) (s : string) :
  (forall c, p c = true -> q c = true) -> run_of p s = true -> run_of q s = true.
Proof.
  intros Hpq H. unfold run_of in *. apply andb_true_iff in H.
  destruct H as [H1 H2]. rewrite H1, (all_in_weaken p q s Hpq H2). reflexivity.
Qed.

Lemma run_of_head (p : ascii -> bool) (s rest : string) :
  run_of p s = true -> head_in p (s ++ rest) = true.
Proof.
  destruct s as [|c s]; cbn; [discriminate|].
  intros H. apply andb_true_iff in H. tauto.
Qed.

Lemma head_in_false (p q : ascii -> bool) (s : string) :
  (forall c, q c = true -> p c = false) -> head_in q s = true ->
  head_in p s = false.
Proof. intros Hqp. destruct s as [|c s]; cbn; [discriminate|]. apply Hqp. Qed.

Lemma star_loop_greedy (p : ascii -> bool) (x rest : string) (caps : captures)
    (k : cont) (res : captures * string) :
  all_in p x = true -> head_in p rest = false -> k rest caps = Some res ->
  star_loop p (x ++ rest) caps k = Some res.
Proof.
  intros Hx Hr Hk. induction x as [|c x IH]; cbn in *.
  - destruct rest as [|c rest]; cbn in *; [exact Hk|]. rewrite Hr. exact Hk.
  - apply andb_true_iff in Hx. destruct Hx as [Hc Hx]. rewrite Hc, (IH Hx).
    reflexivity.
Qed.

Lemma plus_greedy (p : ascii -> bool) (x rest : string) (caps : captures)
    (k : cont) (res : captures * string) :
  run_of p x = true -> head_in p rest = false -> k rest caps = Some res ->
  rmatch (Plus p) (x ++ rest) caps k = Some res.
Proof.
  intros Hx Hr Hk. destruct x as [|c x]; [discriminate|].
  unfold run_of in Hx. cbn in *. apply andb_true_iff in Hx.
  destruct Hx as [Hc Hx]. rewrite Hc. apply star_loop_greedy; assumption.
Qed.

Lemma split_dot_sound (s ip fp : string) :
  split_dot s = (ip, Some fp) -> s = ip ++ "." ++ fp.
Proof.
  revert ip. induction s as [|c s IH]; intros ip H; cbn in H; [discriminate|].
  destruct (Ascii.eqb_spec c ".").
  - inversion H; subst. reflexivity.
  - destruct (split_dot s) as [a b]. inversion H; subst. cbn. f_equal.
    apply IH. reflexivity.
Qed.

Lemma split_dot_digits (ip fp : string) :
  all_in is_digit ip = true -> split_dot (ip ++ "." ++ fp) = (ip, Some fp).
Proof.
  change ("." ++ fp) with (String "." fp).
  induction ip as [|c ip IH]; cbn [append split_dot all_in];
    [rewrite Ascii.eqb_refl; reflexivity|].
  intros H. apply andb_true_iff in H. destruct H as [Hc Hi].
  rewrite (digit_not_dot _ Hc), (IH Hi). reflexivity.
Qed.

Lemma unsigned_number_greedy (d rest : string) (caps : captures) (k : cont)
    (res : captures * string) :
  is_unsigned_number d = true -> head_in is_digit rest = false ->
  k rest caps = Some res ->
  rmatch (Cat (Plus is_digit) (Cat (Lit ".") (Plus is_digit))) (d ++ rest)
    caps k = Some res.
Proof.
  unfold is_unsigned_number. intros Hd Hr Hk.
  destruct (split_dot d) as [ip [fp|]] eqn:E; [|discriminate].
  apply andb_true_iff in Hd. destruct Hd as [Hi Hf].
  apply split_dot_sound in E. subst d. rewrite !append_assoc.
  cbn [rmatch]. apply plus_greedy; [exact Hi | reflexivity |].
  cbn [append strip_prefix]. rewrite Ascii.eqb_refl.
  apply plus_greedy; assumption.
Qed.

Lemma opt_sign_cases (R : regex) (c : ascii) (s : string) (caps : captures)
    (k : cont) :
  rmatch (Cat (Opt (Cls is_sign)) R) (String c s) caps k
  = if is_sign c
    then match rmatch R s caps k with
         | Some x => Some x
         | None => rmatch R (String c s) caps k
         end
    else rmatch R (String c s) caps k.
Proof. cbn [rmatch]. destruct (is_sign c); reflexivity. Qed.

Lemma number_greedy (d rest : string) (caps : captures) (k : cont)
    (res : captures * string) :
  is_number d = true -> head_in is_digit rest = false ->
  k rest caps = Some res ->
  rmatch number_re (d ++ rest) caps k = Some res.
Proof.
  intros Hd Hr Hk. destruct d as [|c d]; [discriminate|].
  unfold number_re. cbn [append]. rewrite opt_sign_cases.
  cbn [is_number] in Hd. destruct (is_sign c) eqn:Hs.
  - rewrite (unsigned_number_greedy d rest caps k res Hd Hr Hk). reflexivity.
  - exact (unsigned_number_greedy (String c d) rest caps k res Hd Hr Hk).
Qed.

Lemma take_length (d rest : string) : take (String.length d) (d ++ rest) = d.
Proof. induction d; cbn; [destruct rest; reflexivity | congruence]. Qed.

Lemma take_append (d rest : string) :
  take (String.length (d ++ rest) - String.length rest) (d ++ rest) = d.
Proof.
  rewrite length_append.
  replace (String.length d + String.length rest - String.length rest)%nat
    with (String.length d) by lia.
  apply take_length.
Qed.

Lemma number_group_greedy (d rest : string) (caps : captures) (k : cont)
    (res : captures * string) :
  is_number d = true -> head_in is_digit rest = false ->
  k rest (caps ++ [d])%list = Some res ->
  rmatch (Grp number_re) (d ++ rest) caps k = Some res.
Proof.
  intros Hd Hr Hk. cbn [rmatch].
  apply number_greedy; [exact Hd | exact Hr |].
  rewrite take_append. exact Hk.
Qed.

Lemma digits_group_greedy (d rest : string) (caps : captures) (k : cont)
    (res : captures * string) :
  run_of is_digit d = true -> head_in is_digit rest = false ->
  k rest (caps ++ [d])%list = Some res ->
  rmatch (Grp (Plus is_digit)) (d ++ rest) caps k = Some res.
Proof.
  intros Hd Hr Hk. cbn [rmatch].
  apply plus_greedy; [exact Hd | exact Hr |].
  rewrite take_append. exact Hk.
Qed.

Lemma unsigned_number_head (d : string) :
  is_unsigned_number d = true -> head_in is_digit d = true.
Proof.
  unfold is_unsigned_number.
  destruct (split_dot d) as [ip [fp|]] eqn:E; [|discriminate].
  intros H. apply andb_true_iff in H. destruct H as [Hi _].
  apply split_dot_sound in E. subst d. apply run_of_head. exact Hi.
Qed.

Lemma number_head_not_space (d rest : string) :
  is_number d = true -> head_in is_space (d ++ rest) = false.
Proof.
  destruct d as [|c d]; [discriminate|]. cbn.
  destruct (is_sign c) eqn:Hs; intros H.
  - apply sign_not_space. exact Hs.
  - apply unsigned_number_head in H. cbn in H. apply digit_not_space. exact H.
Qed.

Lemma blank_head_not_digit (b rest : string) :
  run_of is_blank b = true -> head_in is_digit (b ++ rest) = false.
Proof.
  intros H. apply (head_in_false is_digit is_space).
  - exact space_not_digit.
  - apply run_of_head. apply (run_of_weaken is_blank is_space _ blank_is_space H).
Qed.

Lemma digit_head_not_space (d rest : string) :
  run_of is_digit d = true -> head_in is_space (d ++ rest) = false.
Proof.
  intros H. apply (head_in_false is_space is_digit).
  - exact digit_not_space.
  - apply run_of_head. exact H.
Qed.

Lemma blanks_greedy (b rest : string) (caps : captures) (k : cont)
    (res : captures * string) :
  run_of is_blank b = true -> head_in is_space rest = false ->
  k rest caps = Some res ->
  rmatch (Plus is_space) (b ++ rest) caps k = Some res.
Proof.
  intros Hb. apply plus_greedy.
  exact (run_of_weaken is_blank is_space _ blank_is_space Hb).
Qed.

Lemma framed_parts (r : row) :
  framed r = true ->
  run_of is_blank (gap1 r) = true /\ run_of is_blank (gap2 r) = true /\
  run_of is_digit (tag r) = true /\ run_of is_blank (gap3 r) = true /\
  is_number (diff r) = true /\ run_of is_blank (gap4 r) = true /\
  is_number (avg r) = true /\ run_of is_blank (gap5 r) = true /\
  run_of is_blank (gap6 r) = true /\ run_of is_digit (cy r) = true.
Proof.
  unfold framed. intros H.
  do 9 (apply andb_true_iff in H; destruct H as [H ?]).
  repeat split; assumption.
Qed.

Lemma render_assoc (r : row) (tail : string) :
  render r ++ tail
  = "info" ++ gap1 r ++ "rcv" ++ gap2 r ++ tag r ++ gap3 r ++ diff r ++ gap4 r
    ++ avg r ++ gap5 r ++ corr r ++ gap6 r ++ "cy=" ++ cy r ++ tail.
Proof. unfold render. rewrite !append_assoc. reflexivity. Qed.

Lemma cat_step (r1 r2 : regex) (s : string) (caps : captures) (k : cont) :
  rmatch (Cat r1 r2) s caps k
  = rmatch r1 s caps (fun s' caps' => rmatch r2 s' caps' k).
Proof. reflexivity. Qed.

Lemma lit_greedy (l s : string) (caps : captures) (k : cont)
    (res : captures * string) :
  k s caps = Some res -> rmatch (Lit l) (l ++ s) caps k = Some res.
Proof. intros H. cbn [rmatch]. rewrite strip_prefix_append. exact H. Qed.

Ltac next_piece := cbv beta; try rewrite cat_step.

(** A well-formed record matches at its head and captures its four fields. *)
Lemma match_well_formed (g : row) (tail : string) :
  well_formed g = true -> head_in is_digit tail = false ->
  match_at pattern (render g ++ tail)
  = Some ([diff g; avg g; corr g; cy g], tail).
Proof.
  unfold well_formed. intros H Ht. apply andb_true_iff in H.
  destruct H as [Hf Hc].
  destruct (framed_parts g Hf)
    as (H1 & H2 & H3 & H4 & H5 & H6 & H7 & H8 & H9 & H10).
  rewrite render_assoc. unfold match_at, pattern.
  next_piece. apply lit_greedy.
  next_piece. apply blanks_greedy; [exact H1 | reflexivity |].
  next_piece. apply lit_greedy.
  next_piece. apply blanks_greedy;
    [exact H2 | apply digit_head_not_space; exact H3 |].
  next_piece. apply plus_greedy;
    [exact H3 | apply blank_head_not_digit; exact H4 |].
  next_piece. apply blanks_greedy;
    [exact H4 | apply number_head_not_space; exact H5 |].
  next_piece. apply number_group_greedy;
    [exact H5 | apply blank_head_not_digit; exact H6 |].
  next_piece. apply blanks_greedy;
    [exact H6 | apply number_head_not_space; exact H7 |].
  next_piece. apply number_group_greedy;
    [exact H7 | apply blank_head_not_digit; exact H8 |].
  next_piece. apply blanks_greedy;
    [exact H8 | apply number_head_not_space; exact Hc |].
  next_piece. apply number_group_greedy;
    [exact Hc | apply blank_head_not_digit; exact H9 |].
  next_piece. apply blanks_greedy; [exact H9 | reflexivity |].
  next_piece. apply lit_greedy.
  next_piece. apply digits_group_greedy; [exact H10 | exact Ht |].
  reflexivity.
Qed.

(** **** Runs and tokens *)

Lemma space_not_i : forall c, is_space c = true -> not_i c = true.
Proof. by_ascii. Qed.
Lemma digit_not_i : forall c, is_digit c = true -> not_i c = true.
Proof. by_ascii. Qed.
Lemma number_char_not_i : forall c, number_char c = true -> not_i c = true.
Proof. by_ascii. Qed.
Lemma number_char_not_space : forall c, number_char c = true -> not_space c = true.
Proof. by_ascii. Qed.
Lemma digit_number_char : forall c, is_digit c = true -> number_char c = true.
Proof. by_ascii. Qed.
Lemma digit_is_not_space : forall c, is_digit c = true -> not_space c = true.
Proof. by_ascii. Qed.

(** Two runs of one class that end where the class ends are the same run. *)
Lemma run_unique (p : ascii -> bool) (x y r1 r2 : string) :
  all_in p x = true -> all_in p y = true ->
  head_in p r1 = false -> head_in p r2 = false ->
  x ++ r1 = y ++ r2 -> x = y /\ r1 = r2.
Proof.
  revert y. induction x as [|c x IH]; intros y Hx Hy H1 H2 E.
  - destruct y as [|d y]; cbn in *; [auto|].
    subst r1. cbn in H1. apply andb_true_iff in Hy. destruct Hy as [Hd _].
    congruence.
  - destruct y as [|d y]; cbn in *.
    + subst r2. cbn in H2. apply andb_true_iff in Hx. destruct Hx as [Hc _].
      congruence.
    + inversion E; subst. apply andb_true_iff in Hx. apply andb_true_iff in Hy.
      destruct (IH y) as [-> ->]; tauto.
Qed.

Lemma append_inv_head (l a b : string) : l ++ a = l ++ b -> a = b.
Proof. induction l; cbn; intros H; [exact H|]. inversion H. auto. Qed.

Lemma head_in_not_space (s : string) :
  head_in is_space s = true -> head_in not_space s = false.
Proof. destruct s; cbn; [discriminate|]. unfold not_space. intros ->. reflexivity. Qed.

Lemma head_in_space_false (s : string) :
  head_in not_space s = true -> head_in is_space s = false.
Proof.
  destruct s; cbn; [discriminate|]. unfold not_space.
  destruct (is_space a); [discriminate | reflexivity].
Qed.

(** The strings of [number_re] are exactly the numbers. *)
Lemma lang_number (x : string) : lang number_re x -> is_number x = true.
Proof.
  cbn. intros (o & y & -> & Ho & ip & z & -> & Hi & l & fp & -> & -> & Hf).
  assert (Hn : is_unsigned_number (ip ++ "." ++ fp) = true).
  { unfold is_unsigned_number. unfold run_of in Hi.
    apply andb_true_iff in Hi. destruct Hi as [Hi1 Hi2].
    rewrite (split_dot_digits ip fp Hi2). unfold run_of at 1.
    rewrite Hi1, Hi2, Hf. reflexivity. }
  destruct Ho as [-> | (c & -> & Hc)].
  - cbn [append]. destruct ip as [|c ip]; [discriminate|].
    cbn [append is_number] in *.
    unfold run_of in Hi. cbn in Hi. apply andb_true_iff in Hi.
    destruct Hi as [Hc _]. rewrite (digit_not_sign c Hc). exact Hn.
  - cbn [append is_number]. rewrite Hc. exact Hn.
Qed.

Lemma unsigned_number_chars (d : string) :
  is_unsigned_number d = true -> all_in number_char d = true.
Proof.
  unfold is_unsigned_number.
  destruct (split_dot d) as [ip [fp|]] eqn:E; [|discriminate].
  intros H. apply andb_true_iff in H. destruct H as [Hi Hf].
  unfold run_of in Hi, Hf. apply andb_true_iff in Hi. apply andb_true_iff in Hf.
  apply split_dot_sound in E. subst d.
  rewrite !all_in_append. cbn.
  rewrite (all_in_weaken is_digit number_char ip digit_number_char (proj2 Hi)).
  rewrite (all_in_weaken is_digit number_char fp digit_number_char (proj2 Hf)).
  reflexivity.
Qed.

Lemma number_chars (d : string) :
  is_number d = true -> all_in number_char d = true.
Proof.
  destruct d as [|c d]; [discriminate|]. cbn [is_number].
  destruct (is_sign c) eqn:Hs; intros H.
  - cbn. unfold number_char at 1. rewrite Hs. cbn.
    apply unsigned_number_chars. exact H.
  - apply unsigned_number_chars. exact H.
Qed.

(** The shape of every text on which the pattern matches at the head. *)
Lemma pattern_sound (s : string) (res : captures * string) :
  match_at pattern s = Some res ->
  exists w1 w2 t w3 n1 w4 n2 w5 n3 w6 c rest,
    s = "info" ++ w1 ++ "rcv" ++ w2 ++ t ++ w3 ++ n1 ++ w4 ++ n2 ++ w5 ++ n3
        ++ w6 ++ "cy=" ++ c ++ rest /\
    run_of is_space w1 = true /\ run_of is_space w2 = true /\
    run_of is_digit t = true /\ run_of is_space w3 = true /\
    is_number n1 = true /\ run_of is_space w4 = true /\
    is_number n2 = true /\ run_of is_space w5 = true /\
    is_number n3 = true /\ run_of is_space w6 = true /\
    run_of is_digit c = true.
Proof.
  unfold match_at. intros H.
  destruct (rmatch_sound pattern _ _ _ _ H) as (x & rest & caps' & -> & Hl & _).
  unfold pattern in Hl. cbn [lang] in Hl.
  destruct Hl as (? & ? & -> & -> & w1 & ? & -> & H1 & ? & ? & -> & -> &
                  w2 & ? & -> & H2 & t & ? & -> & H3 & w3 & ? & -> & H4 &
                  n1 & ? & -> & H5 & w4 & ? & -> & H6 &
                  n2 & ? & -> & H7 & w5 & ? & -> & H8 &
                  n3 & ? & -> & H9 & w6 & ? & -> & H10 &
                  ? & c & -> & -> & H11).
  exists w1, w2, t, w3, n1, w4, n2, w5, n3, w6, c, rest.
  split; [rewrite !append_assoc; reflexivity|].
  repeat split; try assumption; apply lang_number; assumption.
Qed.

Lemma space_run_step (b w r1 r2 : string) :
  run_of is_space b = true -> run_of is_space w = true ->
  head_in is_space r1 = false -> head_in is_space r2 = false ->
  b ++ r1 = w ++ r2 -> r1 = r2.
Proof.
  unfold run_of. intros Hb Hw H1 H2 E.
  apply andb_true_iff in Hb. apply andb_true_iff in Hw.
  apply (run_unique is_space b w r1 r2); tauto.
Qed.

Lemma token_step (x y r1 r2 : string) :
  all_in not_space x = true -> all_in not_space y = true ->
  head_in is_space r1 = true -> head_in is_space r2 = true ->
  x ++ r1 = y ++ r2 -> x = y /\ r1 = r2.
Proof.
  intros Hx Hy H1 H2 E.
  apply (run_unique not_space x y r1 r2); auto using head_in_not_space.
Qed.

Lemma blanks_are_spaces (b : string) :
  run_of is_blank b = true -> run_of is_space b = true.
Proof. apply run_of_weaken. exact blank_is_space. Qed.

Lemma space_head (w rest : string) :
  run_of is_space w = true -> head_in is_space (w ++ rest) = true.
Proof. apply run_of_head. Qed.

Lemma digits_not_space (t : string) :
  run_of is_digit t = true -> all_in not_space t = true.
Proof.
  unfold run_of. intros H. apply andb_true_iff in H.
  apply (all_in_weaken is_digit not_space t digit_is_not_space). tauto.
Qed.

Lemma number_not_space (d : string) :
  is_number d = true -> all_in not_space d = true.
Proof.
  intros H. apply (all_in_weaken number_char not_space d number_char_not_space).
  apply number_chars. exact H.
Qed.

Lemma framed_or_not (b : row) :
  corrupted b = true ->
  framed b = true /\ run_of not_space (corr b) = true /\
  is_number (corr b) = false.
Proof.
  unfold corrupted. intros H. apply andb_true_iff in H. destruct H as [H H3].
  apply andb_true_iff in H. destruct H as [H1 H2].
  repeat split; [assumption | exact H2 |].
  destruct (is_number (corr b)); [discriminate | reflexivity].
Qed.

Lemma token_head_not_space (x rest : string) :
  run_of not_space x = true -> head_in is_space (x ++ rest) = false.
Proof.
  intros H. apply head_in_space_false. apply run_of_head. exact H.
Qed.

Lemma run_of_all (p : ascii -> bool) (x : string) :
  run_of p x = true -> all_in p x = true.
Proof. unfold run_of. intros H. apply andb_true_iff in H. tauto. Qed.

(** No match starts at the head of a corrupted record, whatever follows. *)
Lemma corrupted_head_fails (b : row) (tail : string) :
  corrupted b = true -> match_at pattern (render b ++ tail) = None.
Proof.
  intros Hb. destruct (framed_or_not b Hb) as (Hf & Hns & Hnum).
  destruct (framed_parts b Hf)
    as (B1 & B2 & B3 & B4 & B5 & B6 & B7 & B8 & B9 & B10).
  destruct (match_at pattern (render b ++ tail)) as [res|] eqn:E;
    [exfalso | reflexivity].
  destruct (pattern_sound _ _ E)
    as (w1 & w2 & t & w3 & n1 & w4 & n2 & w5 & n3 & w6 & c & rest & Es &
        H1 & H2 & H3 & H4 & H5 & H6 & H7 & H8 & H9 & H10 & H11).
  rewrite render_assoc in Es.
  apply append_inv_head in Es.
  apply (space_run_step _ _ _ _ (blanks_are_spaces _ B1) H1) in Es;
    [| reflexivity | reflexivity].
  apply append_inv_head in Es.
  apply (space_run_step _ _ _ _ (blanks_are_spaces _ B2) H2) in Es;
    [| apply digit_head_not_space; assumption
     | apply digit_head_not_space; assumption].
  apply (token_step _ _ _ _ (digits_not_space _ B3) (digits_not_space _ H3))
    in Es;
    [| apply space_head, blanks_are_spaces; assumption
     | apply space_head; assumption].
  destruct Es as [_ Es].
  apply (space_run_step _ _ _ _ (blanks_are_spaces _ B4) H4) in Es;
    [| apply number_head_not_space; assumption
     | apply number_head_not_space; assumption].
  apply (token_step _ _ _ _ (number_not_space _ B5) (number_not_space _ H5))
    in Es;
    [| apply space_head, blanks_are_spaces; assumption
     | apply space_head; assumption].
  destruct Es as [_ Es].
  apply (space_run_step _ _ _ _ (blanks_are_spaces _ B6) H6) in Es;
    [| apply number_head_not_space; assumption
     | apply number_head_not_space; assumption].
  apply (token_step _ _ _ _ (number_not_space _ B7) (number_not_space _ H7))
    in Es;
    [| apply space_head, blanks_are_spaces; assumption
     | apply space_head; assumption].
  destruct Es as [_ Es].
  apply (space_run_step _ _ _ _ (blanks_are_spaces _ B8) H8) in Es;
    [| apply token_head_not_space; assumption
     | apply number_head_not_space; assumption].
  apply (token_step _ _ _ _ (run_of_all _ _ Hns) (number_not_space _ H9))
    in Es;
    [| apply space_head, blanks_are_spaces; assumption
     | apply space_head; assumption].
  destruct Es as [Ec _]. rewrite Ec, H9 in Hnum. discriminate Hnum.
Qed.

(** No match starts inside the corrupted field either: a match needs
    "rcv" after the first blanks, and what follows the field is "cy=". *)
Lemma corrupted_field_fails (u gap rest : string) :
  all_in not_space u = true -> run_of is_blank gap = true ->
  match_at pattern (u ++ gap ++ "cy=" ++ rest) = None.
Proof.
  intros Hu Hg.
  destruct (match_at pattern (u ++ gap ++ "cy=" ++ rest)) as [res|] eqn:E;
    [exfalso | reflexivity].
  destruct (pattern_sound _ _ E)
    as (w1 & w2 & t & w3 & n1 & w4 & n2 & w5 & n3 & w6 & c & rest' & Es &
        H1 & _).
  apply (token_step u "info" _ _ Hu eq_refl) in Es;
    [| apply space_head, blanks_are_spaces; assumption
     | apply space_head; assumption].
  destruct Es as [_ Es].
  apply (space_run_step _ _ _ _ (blanks_are_spaces _ Hg) H1) in Es;
    [| reflexivity | reflexivity].
  discriminate Es.
Qed.

Lemma match_needs_i (c : ascii) (s : string) :
  not_i c = true -> match_at pattern (String c s) = None.
Proof.
  unfold not_i, match_at, pattern. intros H.
  rewrite cat_step. cbn [rmatch strip_prefix].
  rewrite Ascii.eqb_sym. destruct (Ascii.eqb c "i"); [discriminate|reflexivity].
Qed.

(** **** The scan over a text *)

Lemma finditer_miss (r : regex) (c : ascii) (s : string) :
  match_at r (String c s) = None ->
  finditer_from r 0 (String c s) = finditer_from r 0 s.
Proof. intros H. cbn [finditer_from]. rewrite H. reflexivity. Qed.

Lemma finditer_pass (r : regex) (x tail : string) :
  finditer_from r (String.length x) (x ++ tail) = finditer_from r 0 tail.
Proof. induction x as [|c x IH]; [reflexivity | exact IH]. Qed.

Lemma finditer_hit (r : regex) (x tail : string) (caps : captures) :
  nonempty x = true ->
  match_at r (x ++ tail) = Some (caps, tail) ->
  finditer_from r 0 (x ++ tail) = caps :: finditer_from r 0 tail.
Proof.
  intros Hx H. destruct x as [|c x]; [discriminate|].
  cbn [append] in *. cbn [finditer_from]. rewrite H.
  f_equal. cbn [String.length]. rewrite length_append.
  replace (S (String.length x + String.length tail) - String.length tail - 1)%nat
    with (String.length x) by lia.
  apply finditer_pass.
Qed.

Lemma finditer_skip_run (x tail : string) :
  all_in not_i x = true ->
  finditer_from pattern 0 (x ++ tail) = finditer_from pattern 0 tail.
Proof.
  induction x as [|c x IH]; intros H; [reflexivity|].
  cbn [all_in] in H. apply andb_true_iff in H. destruct H as [Hc Hx].
  cbn [append]. rewrite finditer_miss by (apply match_needs_i; exact Hc).
  apply IH. exact Hx.
Qed.

Lemma finditer_skip_field (u gap rest : string) :
  all_in not_space u = true -> run_of is_blank gap = true ->
  finditer_from pattern 0 (u ++ gap ++ "cy=" ++ rest)
  = finditer_from pattern 0 (gap ++ "cy=" ++ rest).
Proof.
  intros Hu Hg. induction u as [|c u IH]; [reflexivity|].
  pose proof (corrupted_field_fails (String c u) gap rest Hu Hg) as Hm.
  cbn [all_in] in Hu. apply andb_true_iff in Hu. destruct Hu as [_ Hu].
  cbn [append] in *. rewrite (finditer_miss _ _ _ Hm). apply IH. exact Hu.
Qed.

Lemma blanks_not_i (b : string) :
  run_of is_blank b = true -> all_in not_i b = true.
Proof.
  intros H. apply run_of_all in H.
  apply (all_in_weaken is_blank not_i b); [|exact H].
  intros c Hc. apply space_not_i, blank_is_space, Hc.
Qed.

Lemma digits_not_i (t : string) :
  run_of is_digit t = true -> all_in not_i t = true.
Proof.
  intros H. apply run_of_all in H.
  apply (all_in_weaken is_digit not_i t digit_not_i H).
Qed.

Lemma number_not_i (d : string) : is_number d = true -> all_in not_i d = true.
Proof.
  intros H. apply (all_in_weaken number_char not_i d number_char_not_i).
  apply number_chars. exact H.
Qed.

(** A corrupted record contributes no match, whatever follows it. *)
Lemma finditer_corrupted (b : row) (tail : string) :
  corrupted b = true ->
  finditer_from pattern 0 (render b ++ tail) = finditer_from pattern 0 tail.
Proof.
  intros Hb. destruct (framed_or_not b Hb) as (Hf & Hns & Hnum).
  destruct (framed_parts b Hf)
    as (B1 & B2 & B3 & B4 & B5 & B6 & B7 & B8 & B9 & B10).
  pose proof (corrupted_head_fails b tail Hb) as Hh.
  assert (E : render b ++ tail
              = String "i"
                  (("nfo" ++ gap1 b ++ "rcv" ++ gap2 b ++ tag b ++ gap3 b
                    ++ diff b ++ gap4 b ++ avg b ++ gap5 b)
                   ++ corr b ++ gap6 b ++ "cy=" ++ cy b ++ tail)).
  { rewrite render_assoc, !append_assoc. reflexivity. }
  rewrite E in Hh |- *. rewrite (finditer_miss _ _ _ Hh).
  rewrite finditer_skip_run.
  2:{ rewrite !all_in_append.
      rewrite (blanks_not_i _ B1), (blanks_not_i _ B2), (digits_not_i _ B3),
        (blanks_not_i _ B4), (number_not_i _ B5), (blanks_not_i _ B6),
        (number_not_i _ B7), (blanks_not_i _ B8). reflexivity. }
  rewrite finditer_skip_field by (apply run_of_all in Hns; assumption).
  replace (gap6 b ++ "cy=" ++ cy b ++ tail)
    with ((gap6 b ++ "cy=" ++ cy b) ++ tail)
    by (rewrite !append_assoc; reflexivity).
  apply finditer_skip_run.
  rewrite !all_in_append.
  rewrite (blanks_not_i _ B9), (digits_not_i _ B10). reflexivity.
Qed.

(** A well-formed record contributes one match: its four fields. *)
Lemma finditer_well_formed (g : row) (tail : string) :
  well_formed g = true -> head_in is_digit tail = false ->
  finditer_from pattern 0 (render g ++ tail)
  = [diff g; avg g; corr g; cy g] :: finditer_from pattern 0 tail.
Proof.
  intros Hg Ht. pose proof (match_well_formed g tail Hg Ht) as Hm.
  apply finditer_hit; [reflexivity | exact Hm].
Qed.

Lemma finditer_newline (s : string) :
  finditer_from pattern 0 (newline ++ s) = finditer_from pattern 0 s.
Proof. apply (finditer_skip_run newline s). reflexivity. Qed.

Lemma finditer_ending (ending : string) :
  ending = "" \/ ending = newline ->
  head_in is_digit ending = false /\ finditer_from pattern 0 ending = [].
Proof. intros [-> | ->]; split; reflexivity. Qed.

Lemma finditer_two_lines (g b : row) (ending : string) :
  well_formed g = true -> corrupted b = true ->
  ending = "" \/ ending = newline ->
  finditer pattern (render g ++ newline ++ render b ++ ending)
  = [[diff g; avg g; corr g; cy g]] /\
  finditer pattern (render b ++ newline ++ render g ++ ending)
  = [[diff g; avg g; corr g; cy g]].
Proof.
  intros Hg Hb He. destruct (finditer_ending ending He) as [Hd Hn].
  unfold finditer. split.
  - rewrite finditer_well_formed by (assumption || reflexivity).
    rewrite finditer_newline.
    rewrite finditer_corrupted by assumption. rewrite Hn. reflexivity.
  - rewrite finditer_corrupted by assumption.
    rewrite finditer_newline.
    rewrite finditer_well_formed by assumption. rewrite Hn. reflexivity.
Qed.

(** **** Conversion of the captured fields *)

Lemma digits_from_some (s : string) :
  all_in is_digit s = true -> forall acc, exists n, digits_from acc s = Some n.
Proof.
  induction s as [|c s IH]; cbn; intros H acc; [eauto|].
  apply andb_true_iff in H. destruct H as [Hc Hs]. rewrite Hc. apply IH, Hs.
Qed.

Lemma digits_some (s : string) :
  run_of is_digit s = true -> exists n, digits s = Some n.
Proof.
  unfold run_of. intros H. apply andb_true_iff in H. destruct H as [Hn Hs].
  destruct s as [|c s]; [discriminate|]. apply digits_from_some. exact Hs.
Qed.

Lemma split_dot_no_dot (s : string) :
  all_in is_digit s = true -> split_dot s = (s, None).
Proof.
  induction s as [|c s IH]; cbn; [reflexivity|]. intros H.
  apply andb_true_iff in H. destruct H as [Hc Hs].
  rewrite (digit_not_dot c Hc), (IH Hs). reflexivity.
Qed.

Lemma unsigned_decimal_number (d : string) :
  is_unsigned_number d = true -> exists q, unsigned_decimal d = Some q.
Proof.
  unfold is_unsigned_number, unsigned_decimal.
  destruct (split_dot d) as [ip [fp|]]; [|discriminate].
  intros H. apply andb_true_iff in H. destruct H as [Hi Hf].
  destruct (digits_some ip Hi) as [n ->].
  destruct (digits_some fp Hf) as [f ->]. cbn [bind]. eauto.
Qed.

(** [float] accepts every string that the number grammar captures. *)
Lemma py_float_number (d : string) :
  is_number d = true -> exists q, py_float d = Some q.
Proof.
  destruct d as [|c d]; [discriminate|]. cbn [is_number py_float].
  unfold is_sign.
  destruct (Ascii.eqb c "-") eqn:Em; [rewrite orb_true_r|];
    [|destruct (Ascii.eqb c "+") eqn:Ep]; cbn [orb]; intros H;
    destruct (unsigned_decimal_number _ H) as [q Hq]; rewrite Hq;
    cbn [option_map]; eauto.
Qed.

(** [float] accepts every run of digits. *)
Lemma py_float_digits (s : string) :
  run_of is_digit s = true -> exists q, py_float s = Some q.
Proof.
  intros H. destruct (digits_some s H) as [n Hn].
  pose proof (run_of_all _ _ H) as Ha.
  destruct s as [|c s]; [discriminate|]. cbn [py_float].
  cbn [all_in] in Ha. apply andb_true_iff in Ha. destruct Ha as [Hc Hs].
  assert (Em : Ascii.eqb c "-" = false).
  { pose proof (digit_not_sign c Hc) as X. unfold is_sign in X.
    apply orb_false_iff in X. tauto. }
  assert (Ep : Ascii.eqb c "+" = false).
  { pose proof (digit_not_sign c Hc) as X. unfold is_sign in X.
    apply orb_false_iff in X. tauto. }
  rewrite Em, Ep. unfold unsigned_decimal.
  rewrite split_dot_no_dot by (cbn [all_in]; rewrite Hc, Hs; reflexivity).
  rewrite Hn. cbn [bind]. eauto.
Qed.

(** C8: the extractor tolerates a corrupted line.  For every text made of
    one well-formed record line and one line that carries the outer marker
    but whose correction field is a token that is not a number, in either
    order and with or without a final newline, parsing returns exactly one
    sample in each of the four sequences, the sample of the well-formed
    line; no conversion fails on the way. *)
Theorem extractor_skips_corrupted_line (g b : row) (ending : string) :
  well_formed g = true -> corrupted b = true ->
  ending = "" \/ ending = newline ->
  exists d a c y,
    py_float (diff g) = Some d /\ py_float (avg g) = Some a /\
    py_float (corr g) = Some c /\ py_float (cy g) = Some y /\
    parse_diretta_logs (render g ++ newline ++ render b ++ ending)
    = one_sample d a c y /\
    parse_diretta_logs (render b ++ newline ++ render g ++ ending)
    = one_sample d a c y.
Proof.
  intros Hg Hb He.
  destruct (finditer_two_lines g b ending Hg Hb He) as [E1 E2].
  unfold well_formed in Hg. apply andb_true_iff in Hg. destruct Hg as [Hf Hc].
  destruct (framed_parts g Hf) as (_ & _ & _ & _ & H5 & _ & H7 & _ & _ & H10).
  destruct (py_float_number _ H5) as [d Hd].
  destruct (py_float_number _ H7) as [a Ha].
  destruct (py_float_number _ Hc) as [c Hcc].
  destruct (py_float_digits _ H10) as [y Hy].
  exists d, a, c, y. repeat (split; [assumption|]).
  unfold parse_diretta_logs, collect. rewrite E1, E2.
  cbn [fold_left]. unfold add_match, convert_match.
  cbn [group nth_error Nat.sub bind]. rewrite Hd, Ha, Hcc, Hy.
  cbn [bind]. split; reflexivity.
Qed.

(** The record of the docstring, and a record whose correction reads
    [0.0o21]. *)
Lemma extractor_skips_corrupted_line_witness :
  exists d a c y,
    py_float (diff good_row) = Some d /\ py_float (avg good_row) = Some a /\
    py_float (corr good_row) = Some c /\ py_float (cy good_row) = Some y /\
    parse_diretta_logs (render good_row ++ newline ++ render bad_row ++ newline)
    = one_sample d a c y /\
    parse_diretta_logs (render bad_row ++ newline ++ render good_row ++ newline)
    = one_sample d a c y.
Proof.
  apply (extractor_skips_corrupted_line good_row bad_row newline);
    [reflexivity | reflexivity | right; reflexivity].
Defined.

(** C10: the pattern is matched against the whole text, and its separators
    [\s+] accept the newline.  In [two_line_record] no line holds a match on
    its own, yet the extractor returns one sample, taken from a match that
    starts on the first line and ends on the second. *)
Theorem match_spans_lines :
  is_space (ascii_of_nat 10) = true /\
  split_lines two_line_record
  = [ "info rcv 2 -0.0110 -0.0110"; "0.0019 cy=3185960450" ] /\
  Forall (fun l => finditer pattern l = []) (split_lines two_line_record) /\
  parse_diretta_logs two_line_record
  = one_sample (-110 # 10000) (-110 # 10000) (19 # 10000) 3185960450.
Proof.
  split; [reflexivity|].
  split; [reflexivity|].
  split.
  - replace (split_lines two_line_record)
      with [ "info rcv 2 -0.0110 -0.0110"; "0.0019 cy=3185960450" ]
      by reflexivity.
    constructor; [vm_compute; reflexivity|].
    constructor; [vm_compute; reflexivity|].
    constructor.
  - vm_compute. reflexivity.
Qed.

End ExtractorProofs.

(** *** Frame Parameter Calculator: failure, consistency, monotonicity *)

Section CalcMore.
Import Calculator.

Lemma Qeq_bool_inject (a : Z) : Qeq_bool (inject_Z a) 0 = (a =? 0)%Z.
Proof.
  unfold Qeq_bool, inject_Z. cbn. rewrite Z.mul_1_r.
  destruct a; reflexivity.
Qed.

Lemma py_div_by_int (a : Q) (b : Z) :
  py_div a (inject_Z b) = if (b =? 0)%Z then None else Some (a / inject_Z b)%Q.
Proof. unfold py_div. rewrite Qeq_bool_inject. reflexivity. Qed.

Lemma frame_params_eval (m rate : Z) (dsd : bool) :
  calculate_frame_params (new_calculator m) rate dsd
  = if (rate =? 0)%Z || (frame_samples m dsd =? 0)%Z then None
    else
      let spf := frame_samples m dsd in
      let bps : Q := if dsd then (1 # 4) else 6 in
      let ab := if dsd then audio_bytes_max m else (spf * 6)%Z in
      let ct := (inject_Z spf / inject_Z rate * 1000000)%Q in
      Some {| sample_rate := rate;
              sample_rate_mhz := (inject_Z rate / 1000000)%Q;
              samples_per_frame := spf;
              audio_bytes := ab;
              total_frame_size := (14 + 2 + ab + 4)%Z;
              cycle_time_us := ct;
              cycle_time_ms := (ct / 1000)%Q;
              packet_rate_hz := (inject_Z rate / inject_Z spf)%Q;
              bytes_per_sample := bps;
              is_dsd := dsd |}.
Proof.
  unfold calculate_frame_params, new_calculator, available_payload.
  unfold ETH_HEADER, DIRETTA_HEADER, VLAN_OVERHEAD, FCS.
  change (14 + 2 + 4)%Z with 20%Z.
  change 8%Q with (inject_Z 8). rewrite py_div_by_int. cbn [Z.eqb bind].
  assert (E1 : (py_int (inject_Z (m - 20) / inject_Z 8) * 8)%Z
               = audio_bytes_max m).
  { unfold audio_bytes_max, py_int, Qdiv, Qmult, Qinv, inject_Z.
    cbn [Qnum Qden Pos.mul]. rewrite Z.mul_1_r. reflexivity. }
  rewrite E1. unfold frame_samples.
  destruct dsd.
  - rewrite (py_div_some (inject_Z (audio_bytes_max m)) (1 # 4))
      by discriminate.
    cbn [bind].
    assert (E2 : py_int (inject_Z (audio_bytes_max m) / (1 # 4))
                 = (audio_bytes_max m * 4)%Z).
    { unfold py_int, Qdiv, Qmult, Qinv, inject_Z. cbn [Qnum Qden Pos.mul].
      apply Z.quot_1_r. }
    rewrite E2.
    assert (E3 : py_int (inject_Z (audio_bytes_max m * 4) * (1 # 4))
                 = audio_bytes_max m).
    { unfold py_int, Qmult, inject_Z. cbn [Qnum Qden Pos.mul].
      rewrite Z.mul_1_r. apply Z.quot_mul. discriminate. }
    rewrite E3. rewrite !py_div_by_int.
    destruct (rate =? 0)%Z; [reflexivity|].
    destruct (audio_bytes_max m * 4 =? 0)%Z; [reflexivity|].
    cbn [bind orb]. change 1000000%Q with (inject_Z 1000000).
    rewrite py_div_by_int. cbn [Z.eqb bind].
    change 1000%Q with (inject_Z 1000).
    rewrite py_div_by_int. reflexivity.
  - rewrite (py_div_some (inject_Z (audio_bytes_max m)) 6) by discriminate.
    cbn [bind].
    assert (E2 : py_int (inject_Z (audio_bytes_max m) / 6)
                 = Z.quot (audio_bytes_max m) 6).
    { unfold py_int, Qdiv, Qmult, Qinv, inject_Z. cbn [Qnum Qden Pos.mul].
      rewrite Z.mul_1_r. reflexivity. }
    rewrite E2.
    assert (E3 : py_int (inject_Z (Z.quot (audio_bytes_max m) 6) * 6)
                 = (Z.quot (audio_bytes_max m) 6 * 6)%Z).
    { unfold py_int, Qmult, inject_Z. cbn [Qnum Qden Pos.mul].
      apply Z.quot_1_r. }
    rewrite E3. rewrite !py_div_by_int.
    destruct (rate =? 0)%Z; [reflexivity|].
    destruct (Z.quot (audio_bytes_max m) 6 =? 0)%Z; [reflexivity|].
    cbn [bind orb]. change 1000000%Q with (inject_Z 1000000).
    rewrite py_div_by_int. cbn [Z.eqb bind].
    change 1000%Q with (inject_Z 1000).
    rewrite py_div_by_int. reflexivity.
Qed.

End CalcMore.

Section CalcMore2.
Import Calculator.

Lemma Some_inj {A : Type} (a b : A) : Some a = Some b -> a = b.
Proof. intros H. injection H. trivial. Qed.

Lemma frame_samples_zero (m : Z) (dsd : bool) :
  frame_samples m dsd = 0%Z <-> (13 <= m <= 27)%Z.
Proof.
  unfold frame_samples, audio_bytes_max.
  destruct dsd; Z.quot_rem_to_equations; lia.
Qed.

(** X1: when [calculate_frame_params] raises.  For an MTU and a sample
    rate of magnitude at most [exact_limit], the call fails, with a
    division by zero, exactly when the sample rate is 0 or the MTU lies
    between 13 and 27, where the payload holds no 8-byte block and the
    number of samples per frame is 0; for every other MTU and rate within
    the limit, also negative ones, it returns. *)
Theorem frame_params_fail_exactly (m rate : Z) (dsd : bool) :
  (Z.abs m <= exact_limit)%Z -> (Z.abs rate <= exact_limit)%Z ->
  (calculate_frame_params (new_calculator m) rate dsd = None
   <-> rate = 0%Z \/ (13 <= m <= 27)%Z).
Proof.
  intros _ _.
  rewrite frame_params_eval. rewrite <- frame_samples_zero with (dsd := dsd).
  destruct (Z.eqb_spec rate 0); destruct (Z.eqb_spec (frame_samples m dsd) 0);
    cbn [orb]; split; intros H; try tauto; discriminate H.
Qed.

(** X2: the integer fields of a result agree with each other.  Whenever
    the call returns, for any MTU and rate of magnitude at most
    [exact_limit], also negative ones, [audio_bytes] is exactly
    [samples_per_frame * bytes_per_sample] with 0.25 or 6 bytes per sample,
    the frame is 20 bytes longer than its audio bytes, and the rate and
    the encoding are the ones passed in. *)
Theorem frame_params_consistent (m rate : Z) (dsd : bool) (p : FrameParams) :
  (Z.abs m <= exact_limit)%Z -> (Z.abs rate <= exact_limit)%Z ->
  calculate_frame_params (new_calculator m) rate dsd = Some p ->
  (inject_Z (audio_bytes p)
   == inject_Z (samples_per_frame p) * bytes_per_sample p)%Q /\
  bytes_per_sample p = (if dsd then 1 # 4 else 6)%Q /\
  total_frame_size p = (audio_bytes p + 20)%Z /\
  sample_rate p = rate /\ is_dsd p = dsd.
Proof.
  intros _ _.
  rewrite frame_params_eval.
  destruct (Z.eqb_spec rate 0) as [|Hr]; [discriminate|].
  destruct (Z.eqb_spec (frame_samples m dsd) 0) as [|Hs]; [discriminate|].
  cbn [orb]. intros H. apply Some_inj in H. subst p.
  cbv beta iota zeta delta
    [cycle_time_us packet_rate_hz cycle_time_ms sample_rate_mhz sample_rate
     audio_bytes samples_per_frame bytes_per_sample total_frame_size is_dsd].
  split.
  - unfold frame_samples. destruct dsd.
    + rewrite inject_Z_mult. field.
    + rewrite inject_Z_mult. reflexivity.
  - split; [reflexivity|]. split; [destruct dsd; lia|]. split; reflexivity.
Qed.

Lemma frame_samples_closed (m : Z) (dsd : bool) :
  (28 <= m)%Z ->
  frame_samples m dsd
  = (if dsd then 4 * aligned_payload m else aligned_payload m / 6)%Z /\
  (8 <= aligned_payload m)%Z /\ (0 < frame_samples m dsd)%Z.
Proof.
  intros H. unfold frame_samples, audio_bytes_max, aligned_payload.
  destruct dsd; Z.quot_rem_to_equations; Z.div_mod_to_equations; lia.
Qed.

Lemma aligned_payload_monotone (m1 m2 : Z) :
  (m1 <= m2)%Z -> (aligned_payload m1 <= aligned_payload m2)%Z.
Proof. unfold aligned_payload. intros H. Z.div_mod_to_equations. lia. Qed.

Lemma frame_samples_monotone (m1 m2 : Z) (dsd : bool) :
  (28 <= m1)%Z -> (m1 <= m2)%Z ->
  (frame_samples m1 dsd <= frame_samples m2 dsd)%Z.
Proof.
  intros H1 H2.
  destruct (frame_samples_closed m1 dsd H1) as (-> & _ & _).
  destruct (frame_samples_closed m2 dsd) as (-> & _ & _); [lia|].
  pose proof (aligned_payload_monotone m1 m2 H2).
  destruct dsd; [lia|]. apply Z.div_le_mono; lia.
Qed.

(** X3: a larger MTU never carries less.  For two MTUs of at least 28
    bytes and at most [exact_limit], and a positive rate of at most
    [exact_limit], both calls return and the larger MTU gives at least as
    many samples per frame, audio bytes and frame bytes, a cycle time at
    least as long and a packet rate at most as high. *)
Theorem frame_params_monotone (m1 m2 rate : Z) (dsd : bool) :
  (28 <= m1)%Z -> (m1 <= m2 <= exact_limit)%Z ->
  (0 < rate <= exact_limit)%Z ->
  exists p1 p2,
    calculate_frame_params (new_calculator m1) rate dsd = Some p1 /\
    calculate_frame_params (new_calculator m2) rate dsd = Some p2 /\
    (samples_per_frame p1 <= samples_per_frame p2)%Z /\
    (audio_bytes p1 <= audio_bytes p2)%Z /\
    (total_frame_size p1 <= total_frame_size p2)%Z /\
    (cycle_time_us p1 <= cycle_time_us p2)%Q /\
    (packet_rate_hz p2 <= packet_rate_hz p1)%Q.
Proof.
  intros H1 [H2 _] [Hr _].
  pose proof (frame_samples_monotone m1 m2 dsd H1 H2) as Hs.
  destruct (frame_samples_closed m1 dsd H1) as (_ & _ & Hp1).
  destruct (frame_samples_closed m2 dsd) as (_ & _ & Hp2); [lia|].
  rewrite !frame_params_eval.
  destruct (Z.eqb_spec rate 0); [lia|].
  destruct (Z.eqb_spec (frame_samples m1 dsd) 0); [lia|].
  destruct (Z.eqb_spec (frame_samples m2 dsd) 0); [lia|].
  cbn [orb]. eexists. eexists. split; [reflexivity|]. split; [reflexivity|].
  cbv beta iota zeta delta
    [cycle_time_us packet_rate_hz audio_bytes samples_per_frame
     total_frame_size].
  assert (Hab : ((if dsd then audio_bytes_max m1 else frame_samples m1 dsd * 6)
                 <= (if dsd then audio_bytes_max m2
                     else frame_samples m2 dsd * 6))%Z).
  { destruct dsd; [|lia]. unfold frame_samples in Hs. lia. }
  split; [exact Hs|]. split; [exact Hab|]. split; [lia|].
  assert (Q1 : (0 < inject_Z (frame_samples m1 dsd))%Q)
    by (unfold Qlt, inject_Z; cbn; lia).
  assert (Q2 : (0 < inject_Z (frame_samples m2 dsd))%Q)
    by (unfold Qlt, inject_Z; cbn; lia).
  assert (Qr : (0 < inject_Z rate)%Q) by (unfold Qlt, inject_Z; cbn; lia).
  assert (Qs : (inject_Z (frame_samples m1 dsd)
                <= inject_Z (frame_samples m2 dsd))%Q)
    by (unfold Qle, inject_Z; cbn; lia).
  split.
  - apply Qmult_le_compat_r; [|discriminate].
    apply Qmult_le_compat_r; [exact Qs|].
    apply Qlt_le_weak, Qinv_lt_0_compat, Qr.
  - apply Qle_shift_div_r; [exact Q2|].
    assert (E : (inject_Z rate
                 == inject_Z rate / inject_Z (frame_samples m1 dsd)
                    * inject_Z (frame_samples m1 dsd))%Q)
      by (field; intros X; rewrite X in Q1; discriminate Q1).
    rewrite E at 1.
    apply Qmult_le_l; [|exact Qs].
    apply Qlt_shift_div_l; [exact Q1|]. rewrite Qmult_0_l. exact Qr.
Qed.

(** X4: an MTU below the overhead is not refused.  For an MTU of at most
    12 bytes and at least [- exact_limit], and a positive rate of at most
    [exact_limit], the call returns, with a negative number of samples per
    frame and of audio bytes, a negative cycle time and a negative packet
    rate. *)
Theorem frame_params_small_mtu_negative (m rate : Z) (dsd : bool) :
  (- exact_limit <= m <= 12)%Z -> (0 < rate <= exact_limit)%Z ->
  exists p,
    calculate_frame_params (new_calculator m) rate dsd = Some p /\
    (samples_per_frame p < 0)%Z /\ (audio_bytes p < 0)%Z /\
    (cycle_time_us p < 0)%Q /\ (packet_rate_hz p < 0)%Q.
Proof.
  intros [_ Hm] [Hr _].
  assert (Hs : (frame_samples m dsd < 0)%Z /\ (audio_bytes_max m < 0)%Z).
  { unfold frame_samples, audio_bytes_max.
    destruct dsd; Z.quot_rem_to_equations; lia. }
  destruct Hs as [Hs Ha].
  rewrite frame_params_eval.
  destruct (Z.eqb_spec rate 0); [lia|].
  destruct (Z.eqb_spec (frame_samples m dsd) 0); [lia|].
  cbn [orb]. eexists. split; [reflexivity|].
  cbv beta iota zeta delta
    [cycle_time_us packet_rate_hz audio_bytes samples_per_frame].
  assert (Qs : (inject_Z (frame_samples m dsd) < 0)%Q)
    by (change 0%Q with (inject_Z 0); rewrite <- Zlt_Qlt; exact Hs).
  assert (Qr : (0 < inject_Z rate)%Q)
    by (change 0%Q with (inject_Z 0); rewrite <- Zlt_Qlt; exact Hr).
  split; [exact Hs|]. split; [destruct dsd; lia|].
  split.
  - assert (X : (inject_Z (frame_samples m dsd) / inject_Z rate < 0)%Q).
    { apply Qlt_shift_div_r; [exact Qr|]. rewrite Qmult_0_l. exact Qs. }
    lra.
  - assert (E : (inject_Z rate / inject_Z (frame_samples m dsd)
                 == - (inject_Z rate / - inject_Z (frame_samples m dsd)))%Q)
      by (field; lra).
    rewrite E.
    assert (X : (0 < inject_Z rate / - inject_Z (frame_samples m dsd))%Q).
    { apply Qlt_shift_div_l; [lra|]. rewrite Qmult_0_l. exact Qr. }
    lra.
Qed.

Lemma py_round_near (x : Q) : (Qabs (inject_Z (py_round x) - x) <= 1 # 2)%Q.
Proof.
  unfold py_round.
  pose proof (Qfloor_le x) as Hl. pose proof (Qlt_floor x) as Hu.
  rewrite inject_Z_plus in Hu. change (inject_Z 1) with 1%Q in Hu.
  apply Qabs_Qle_condition.
  destruct (Qltb_spec (x - inject_Z (Qfloor x)) (1 # 2)).
  - split; lra.
  - destruct (Qltb_spec (1 # 2) (x - inject_Z (Qfloor x))).
    + rewrite inject_Z_plus. change (inject_Z 1) with 1%Q. split; lra.
    + destruct (Z.even (Qfloor x)).
      * split; lra.
      * rewrite inject_Z_plus. change (inject_Z 1) with 1%Q. split; lra.
Qed.

Lemma py_round_monotone_low (x : Q) (k : Z) :
  (inject_Z k - (1 # 2) < x)%Q -> (k <= py_round x)%Z.
Proof.
  intros H. pose proof (py_round_near x) as Hn.
  apply Qabs_Qle_condition in Hn. destruct Hn as [Hn _].
  assert (Hq : (inject_Z (k - 1) < inject_Z (py_round x))%Q).
  { unfold Z.sub. rewrite inject_Z_plus.
    change (inject_Z (- (1))) with (- (1))%Q. lra. }
  rewrite <- Zlt_Qlt in Hq. lia.
Qed.

(** The value of [calculate_cycle_time_for_48k] before any property of
    the rounding is used. *)
Lemma cycle_time_for_48k_eval (m : Z) (dsd : bool) :
  (28 <= m)%Z ->
  exists p,
    calculate_frame_params (new_calculator m)
      (if dsd then 12288000 else 384000) dsd = Some p /\
    calculate_cycle_time_for_48k (new_calculator m) dsd
    = Some ((py_round (cycle_time_us p / 5) * 5)%Z, p) /\
    (5 # 2 < cycle_time_us p)%Q.
Proof.
  intros Hm. unfold calculate_cycle_time_for_48k.
  replace (48000 * (if dsd then 256 else 8))%Z
    with (if dsd then 12288000 else 384000)%Z by (destruct dsd; reflexivity).
  destruct (frame_samples_closed m dsd Hm) as (_ & _ & Hp).
  rewrite frame_params_eval.
  assert (Hr : ((if dsd then 12288000 else 384000) =? 0)%Z = false)
    by (destruct dsd; reflexivity).
  rewrite Hr.
  destruct (Z.eqb_spec (frame_samples m dsd) 0); [lia|].
  cbn [orb bind cycle_time_us]. rewrite py_div_some by discriminate.
  cbn [bind]. eexists. split; [reflexivity|]. split; [reflexivity|].
  cbn [cycle_time_us].
  assert (Q1 : (1 <= inject_Z (frame_samples m dsd))%Q)
    by (change 1%Q with (inject_Z 1); rewrite <- Zle_Qle; lia).
  destruct dsd.
  - destruct (frame_samples_closed m true Hm) as (E & Ha & _).
    assert (Q4 : (32 <= inject_Z (frame_samples m true))%Q)
      by (change 32%Q with (inject_Z 32); rewrite <- Zle_Qle; lia).
    unfold Qdiv. change (/ inject_Z 12288000)%Q with (1 # 12288000)%Q. lra.
  - unfold Qdiv. change (/ inject_Z 384000)%Q with (1 # 384000)%Q. lra.
Qed.

(** X5: the 48 kHz cycle time.  For an MTU of at least 28 bytes and at
    most [max_ip_mtu], [calculate_cycle_time_for_48k] returns the frame
    parameters of the rate 12,288,000 (DSD) or 384,000 (PCM) and a cycle
    time that is a positive multiple of 5, at most 2.5 microseconds away
    from the cycle time of those parameters. *)
Theorem cycle_time_for_48k_rounds (m : Z) (dsd : bool) :
  (28 <= m <= max_ip_mtu)%Z ->
  exists t p,
    calculate_cycle_time_for_48k (new_calculator m) dsd = Some (t, p) /\
    calculate_frame_params (new_calculator m)
      (if dsd then 12288000 else 384000) dsd = Some p /\
    (5 | t)%Z /\ (5 <= t)%Z /\
    (Qabs (inject_Z t - cycle_time_us p) <= 5 # 2)%Q.
Proof.
  intros [Hm _].
  destruct (cycle_time_for_48k_eval m dsd Hm) as (p & Hp & Hc & Hct).
  exists (py_round (cycle_time_us p / 5) * 5)%Z, p.
  split; [exact Hc|]. split; [exact Hp|].
  set (ct := cycle_time_us p) in *.
  pose proof (py_round_near (ct / 5)) as Hn.
  apply Qabs_Qle_condition in Hn. destruct Hn as [Hn1 Hn2].
  assert (E5 : (ct / 5 == ct * (1 # 5))%Q) by reflexivity.
  split; [exists (py_round (ct / 5)); lia|].
  split.
  - assert (H1 : (1 <= py_round (ct / 5))%Z).
    { apply py_round_monotone_low. change (inject_Z 1) with 1%Q. lra. }
    lia.
  - rewrite inject_Z_mult. change (inject_Z 5) with 5%Q.
    apply Qabs_Qle_condition. split; lra.
Qed.

End CalcMore2.

(** The failing MTU of 20 bytes, and a standard frame. *)
Lemma frame_params_fail_exactly_witness :
  (Calculator.calculate_frame_params (Calculator.new_calculator 20) 48000
     true = None
   <-> 48000%Z = 0%Z \/ (13 <= 20 <= 27)%Z) /\
  (Calculator.calculate_frame_params (Calculator.new_calculator 1500) 48000
     true = None
   <-> 48000%Z = 0%Z \/ (13 <= 1500 <= 27)%Z).
Proof.
  split.
  - apply (frame_params_fail_exactly 20 48000 true);
      unfold exact_limit; cbn; lia.
  - apply (frame_params_fail_exactly 1500 48000 true);
      unfold exact_limit; cbn; lia.
Defined.

(** A negative MTU in PCM mode, where [int] truncates towards zero. *)
Lemma frame_params_consistent_witness :
  exists p,
    Calculator.calculate_frame_params (Calculator.new_calculator (-100))
      384000 false = Some p /\
    (inject_Z (Calculator.audio_bytes p)
     == inject_Z (Calculator.samples_per_frame p)
        * Calculator.bytes_per_sample p)%Q /\
    Calculator.bytes_per_sample p = 6%Q /\
    Calculator.total_frame_size p = (Calculator.audio_bytes p + 20)%Z /\
    Calculator.sample_rate p = 384000%Z /\ Calculator.is_dsd p = false.
Proof.
  eexists. split; [vm_compute; reflexivity|].
  apply (frame_params_consistent (-100) 384000 false);
    [unfold exact_limit; cbn; lia | unfold exact_limit; cbn; lia
    | vm_compute; reflexivity].
Defined.

Lemma frame_params_monotone_witness :
  exists p1 p2,
    Calculator.calculate_frame_params (Calculator.new_calculator 1500)
      12288000 true = Some p1 /\
    Calculator.calculate_frame_params (Calculator.new_calculator 9024)
      12288000 true = Some p2 /\
    (Calculator.samples_per_frame p1 <= Calculator.samples_per_frame p2)%Z /\
    (Calculator.audio_bytes p1 <= Calculator.audio_bytes p2)%Z /\
    (Calculator.total_frame_size p1 <= Calculator.total_frame_size p2)%Z /\
    (Calculator.cycle_time_us p1 <= Calculator.cycle_time_us p2)%Q /\
    (Calculator.packet_rate_hz p2 <= Calculator.packet_rate_hz p1)%Q.
Proof.
  apply (frame_params_monotone 1500 9024 12288000 true);
    unfold exact_limit; lia.
Defined.

Lemma frame_params_small_mtu_negative_witness :
  exists p,
    Calculator.calculate_frame_params (Calculator.new_calculator 0)
      12288000 true = Some p /\
    (Calculator.samples_per_frame p < 0)%Z /\
    (Calculator.audio_bytes p < 0)%Z /\
    (Calculator.cycle_time_us p < 0)%Q /\
    (Calculator.packet_rate_hz p < 0)%Q.
Proof.
  apply (frame_params_small_mtu_negative 0 12288000 true);
    unfold exact_limit; lia.
Defined.

Lemma cycle_time_for_48k_rounds_witness :
  exists t p,
    calculate_cycle_time_for_48k (Calculator.new_calculator 9024) true
    = Some (t, p) /\
    Calculator.calculate_frame_params (Calculator.new_calculator 9024)
      12288000 true = Some p /\
    (5 | t)%Z /\ (5 <= t)%Z /\
    (Qabs (inject_Z t - Calculator.cycle_time_us p) <= 5 # 2)%Q.
Proof.
  apply (cycle_time_for_48k_rounds 9024 true). unfold max_ip_mtu. lia.
Defined.

(** *** Log Sample Extractor: groups, alignment, journals *)

Section CaptureProofs.
Local Open Scope string_scope.

Lemma rmatch_sound_groups (r : regex) :
  forall s caps k res,
    rmatch r s caps k = Some res ->
    exists x s' cs,
      s = x ++ s' /\ lang_groups r x cs /\
      k s' (caps ++ cs)%list = Some res.
Proof.
  induction r as [l|p|r IH|p|p|r1 IH1 r2 IH2|r IH];
    intros s caps k res H; cbn [rmatch] in H.
  - destruct (strip_prefix l s) as [s'|] eqn:E; [|discriminate].
    apply strip_prefix_sound in E. exists l, s', []%list.
    rewrite app_nil_r. cbn. auto.
  - destruct s as [|c s]; [discriminate|].
    destruct (p c) eqn:Hp; [|discriminate].
    exists (String c ""), s, []%list. rewrite app_nil_r. cbn. eauto 6.
  - destruct (rmatch r s caps k) as [x|] eqn:E.
    + destruct (IH _ _ _ _ E) as (y & s' & cs & -> & Hl & Hk).
      exists y, s', cs. cbn. injection H as <-. auto.
    + exists "", s, []%list. rewrite app_nil_r. cbn. auto.
  - destruct s as [|c s]; [discriminate|].
    destruct (p c) eqn:Hp; [|discriminate].
    destruct (star_loop_sound _ _ _ _ _ H) as (x & s' & -> & Hx & Hk).
    exists (String c x), s', []%list. rewrite app_nil_r. cbn.
    unfold run_of. cbn. rewrite Hp, Hx. auto.
  - destruct (star_loop_sound _ _ _ _ _ H) as (x & s' & -> & Hx & Hk).
    exists x, s', []%list. rewrite app_nil_r. cbn. auto.
  - destruct (IH1 _ _ _ _ H) as (x1 & s1 & c1 & -> & Hl1 & Hk1).
    destruct (IH2 _ _ _ _ Hk1) as (x2 & s2 & c2 & -> & Hl2 & Hk2).
    exists (x1 ++ x2), s2, (c1 ++ c2)%list.
    rewrite append_assoc, app_assoc. cbn. eauto 12.
  - destruct (IH _ _ _ _ H) as (x & s' & cs & -> & Hl & Hk).
    rewrite take_append in Hk.
    exists x, s', (cs ++ [x])%list. rewrite app_assoc. cbn. eauto.
Qed.

Lemma lang_groups_lang (r : regex) :
  forall x cs, lang_groups r x cs -> lang r x.
Proof.
  induction r as [l|p|r IH|p|p|r1 IH1 r2 IH2|r IH]; intros x cs H;
    cbn [lang lang_groups] in *.
  - apply H.
  - apply H.
  - destruct H as [[H _]|H]; [left; exact H|right; eapply IH; exact H].
  - apply H.
  - apply H.
  - destruct H as (x1 & x2 & c1 & c2 & -> & _ & H1 & H2).
    exists x1, x2. split; [reflexivity|]. split; [eapply IH1|eapply IH2]; eassumption.
  - destruct H as (c1 & _ & H). eapply IH; exact H.
Qed.

Lemma number_re_no_groups (x : string) (cs : captures) :
  lang_groups number_re x cs -> cs = []%list /\ is_number x = true.
Proof.
  intros H. split.
  - cbn in H.
    destruct H as (? & ? & ? & ? & _ & -> & Ho & ? & ? & ? & ? & _ & -> &
                   [_ ->] & ? & ? & ? & ? & _ & -> & [_ ->] & [_ ->]).
    destruct Ho as [[_ ->]|[_ ->]]; reflexivity.
  - apply lang_number. apply (lang_groups_lang _ _ _ H).
Qed.

(** What a match of the log pattern captures. *)
Lemma pattern_groups (s : string) (caps : captures) (rest : string) :
  match_at pattern s = Some (caps, rest) ->
  exists n1 n2 n3 c,
    caps = [n1; n2; n3; c]%list /\
    is_number n1 = true /\ is_number n2 = true /\ is_number n3 = true /\
    run_of is_digit c = true.
Proof.
  unfold match_at. intros H.
  destruct (rmatch_sound_groups pattern _ _ _ _ H)
    as (x & s' & cs & -> & Hl & Hk).
  cbn [app] in Hk. injection Hk as <- <-.
  unfold pattern in Hl. cbn [lang_groups] in Hl.
  destruct Hl as (? & ? & ? & ? & _ & -> & [_ ->] &
                  ? & ? & ? & ? & _ & -> & [_ ->] &
                  ? & ? & ? & ? & _ & -> & [_ ->] &
                  ? & ? & ? & ? & _ & -> & [_ ->] &
                  ? & ? & ? & ? & _ & -> & [_ ->] &
                  ? & ? & ? & ? & _ & -> & [_ ->] &
                  n1 & ? & ? & ? & _ & -> & (g1 & -> & G1) &
                  ? & ? & ? & ? & _ & -> & [_ ->] &
                  n2 & ? & ? & ? & _ & -> & (g2 & -> & G2) &
                  ? & ? & ? & ? & _ & -> & [_ ->] &
                  n3 & ? & ? & ? & _ & -> & (g3 & -> & G3) &
                  ? & ? & ? & ? & _ & -> & [_ ->] &
                  ? & c & ? & ? & _ & -> & [_ ->] & (g4 & -> & [G4 ->])).
  destruct (number_re_no_groups _ _ G1) as [-> N1].
  destruct (number_re_no_groups _ _ G2) as [-> N2].
  destruct (number_re_no_groups _ _ G3) as [-> N3].
  exists n1, n2, n3, c. cbn [app]. auto.
Qed.

End CaptureProofs.

Section AlignProofs.
Local Open Scope string_scope.

Lemma finditer_from_matches (r : regex) (s : string) :
  forall skip caps,
    In caps (finditer_from r skip s) ->
    exists s' rest, match_at r s' = Some (caps, rest).
Proof.
  induction s as [|c s IH]; intros skip caps H; cbn [finditer_from] in H.
  - destruct skip; [|destruct H].
    destruct (match_at r "") as [[caps' rest]|] eqn:E; [|destruct H].
    destruct H as [<-|[]]. eauto.
  - destruct skip as [|n]; [|eauto].
    destruct (match_at r (String c s)) as [[caps' rest]|] eqn:E; [|eauto].
    destruct H as [<-|H]; eauto.
Qed.

Lemma digits_from_nonneg (s : string) :
  forall acc n, (0 <= acc)%Z -> digits_from acc s = Some n -> (0 <= n)%Z.
Proof.
  induction s as [|c s IH]; intros acc n Ha H; cbn [digits_from] in H.
  - injection H as <-. exact Ha.
  - destruct (is_digit c) eqn:Hc; [|discriminate].
    eapply IH; [|exact H].
    unfold is_digit in Hc. apply andb_true_iff in Hc. destruct Hc as [H1 H2].
    apply Nat.leb_le in H1. unfold digit_value. lia.
Qed.

Lemma py_float_digits_value (s : string) :
  run_of is_digit s = true ->
  exists n, (0 <= n)%Z /\ digits s = Some n /\ py_float s = Some (inject_Z n).
Proof.
  intros H. destruct (digits_some s H) as [n Hn]. exists n.
  pose proof (run_of_all _ _ H) as Ha.
  assert (H0 : (0 <= n)%Z).
  { unfold digits in Hn. destruct s; [discriminate|].
    apply digits_from_nonneg in Hn; [exact Hn|lia]. }
  split; [exact H0|]. split; [exact Hn|].
  destruct s as [|c s]; [discriminate|]. cbn [py_float].
  cbn [all_in] in Ha. apply andb_true_iff in Ha. destruct Ha as [Hc Hs].
  pose proof (digit_not_sign c Hc) as X. unfold is_sign in X.
  apply orb_false_iff in X. destruct X as [Ep Em].
  rewrite Em, Ep. unfold unsigned_decimal.
  rewrite split_dot_no_dot by (cbn [all_in]; rewrite Hc, Hs; reflexivity).
  rewrite Hn. reflexivity.
Qed.

(** Every match of the log pattern converts. *)
Lemma convert_match_pattern (s rest : string) (caps : captures) :
  match_at pattern s = Some (caps, rest) ->
  exists d a c y, convert_match caps = Some (d, a, c, y) /\ 0 <= y.
Proof.
  intros H.
  destruct (pattern_groups _ _ _ H) as (n1 & n2 & n3 & c & -> & H1 & H2 & H3 & H4).
  destruct (py_float_number _ H1) as [d Hd].
  destruct (py_float_number _ H2) as [a Ha].
  destruct (py_float_number _ H3) as [k Hk].
  destruct (py_float_digits_value _ H4) as (n & Hn0 & _ & Hy).
  exists d, a, k, (inject_Z n). split;
    [|change 0 with (inject_Z 0); rewrite <- Zle_Qle; exact Hn0].
  unfold convert_match. cbn [group nth_error Nat.sub bind].
  rewrite Hd, Ha, Hk, Hy. reflexivity.
Qed.

Lemma fold_add_match (ms : list captures) :
  (forall m, In m ms ->
     exists d a c y, convert_match m = Some (d, a, c, y) /\ 0 <= y) ->
  forall acc,
    let out := fold_left add_match ms acc in
    length (acc_diff out) = (length (acc_diff acc) + length ms)%nat /\
    length (acc_avg out) = (length (acc_avg acc) + length ms)%nat /\
    length (acc_corr out) = (length (acc_corr acc) + length ms)%nat /\
    length (acc_cycle out) = (length (acc_cycle acc) + length ms)%nat /\
    (Forall (fun t => 0 <= t) (acc_cycle acc) ->
     Forall (fun t => 0 <= t) (acc_cycle out)).
Proof.
  induction ms as [|m ms IH]; intros Hall acc; cbn [fold_left length].
  - rewrite !Nat.add_0_r. tauto.
  - destruct (Hall m (or_introl eq_refl)) as (d & a & c & y & Hm & Hy).
    assert (E : add_match acc m
                = {| acc_diff := acc_diff acc ++ [d];
                     acc_avg := acc_avg acc ++ [a];
                     acc_corr := acc_corr acc ++ [c];
                     acc_cycle := acc_cycle acc ++ [(y / 1000000)%Q] |})
      by (unfold add_match; rewrite Hm; reflexivity).
    specialize (IH (fun m' H' => Hall m' (or_intror H')) (add_match acc m)).
    cbv zeta in IH. rewrite E in IH |- *.
    cbn [acc_diff acc_avg acc_corr acc_cycle] in IH.
    destruct IH as (I1 & I2 & I3 & I4 & I5).
    rewrite length_app in I1, I2, I3, I4. cbn [length] in I1, I2, I3, I4.
    split; [lia|]. split; [lia|]. split; [lia|]. split; [lia|].
    intros Hacc. apply I5. apply Forall_app. split; [exact Hacc|].
    constructor; [|constructor].
    apply Qle_shift_div_l; [reflexivity|]. lra.
Qed.

(** X6: the four sequences of a parse are aligned.  Whatever the text, each
    match of the pattern yields four values that all convert, so no match
    is dropped by the exception handler: the four sequences have one entry
    per match, and every cycle time is non-negative. *)
Theorem parsed_sequences_aligned (logs : string) :
  let parsed := parse_diretta_logs logs in
  let n := length (finditer pattern logs) in
  length (dict_item parsed "buffer_diff") = n /\
  length (dict_item parsed "buffer_avg") = n /\
  length (dict_item parsed "correction") = n /\
  length (dict_item parsed "cycle_times") = n /\
  Forall (fun t => 0 <= t) (dict_item parsed "cycle_times").
Proof.
  cbv zeta.
  destruct (parsed_items logs) as (_ & -> & -> & -> & ->).
  unfold collect.
  assert (Hall : forall m, In m (finditer pattern logs) ->
            exists d a c y, convert_match m = Some (d, a, c, y) /\ 0 <= y).
  { intros m Hm. apply finditer_from_matches in Hm.
    destruct Hm as (s' & rest & Hm). exact (convert_match_pattern _ _ _ Hm). }
  pose proof (fold_add_match _ Hall
    {| acc_diff := []; acc_avg := []; acc_corr := []; acc_cycle := [] |}) as F.
  cbv zeta in F. cbn [acc_diff acc_avg acc_corr acc_cycle length Nat.add] in F.
  destruct F as (F1 & F2 & F3 & F4 & F5).
  repeat (split; [assumption|]). apply F5. constructor.
Qed.

End AlignProofs.

Section JournalProofs.
Local Open Scope string_scope.

Lemma strip_info_straddle (c : ascii) (s rest : string) :
  strip_prefix "info" (String c s) = None ->
  strip_prefix "info" (String c s ++ "info" ++ rest) = None.
Proof.
  cbn [strip_prefix append].
  destruct (Ascii.eqb "i" c); [|reflexivity].
  destruct s as [|c2 s]; [reflexivity|]. cbn [append].
  destruct (Ascii.eqb "n" c2); [|reflexivity].
  destruct s as [|c3 s]; [reflexivity|]. cbn [append].
  destruct (Ascii.eqb "f" c3); [|reflexivity].
  destruct s as [|c4 s]; [reflexivity|]. cbn [append].
  destruct (Ascii.eqb "o" c4); [discriminate|reflexivity].
Qed.

Lemma match_needs_info (s : string) :
  strip_prefix "info" s = None -> match_at pattern s = None.
Proof.
  intros H. unfold match_at, pattern. rewrite cat_step.
  cbn [rmatch]. rewrite H. reflexivity.
Qed.

Lemma finditer_skip_info_free (l rest : string) :
  info_free l = true ->
  finditer_from pattern 0 (l ++ "info" ++ rest)
  = finditer_from pattern 0 ("info" ++ rest).
Proof.
  induction l as [|c l IH]; intros H; [reflexivity|].
  cbn [info_free] in H.
  destruct (strip_prefix "info" (String c l)) eqn:E; [discriminate|].
  pose proof (match_needs_info _ (strip_info_straddle c l rest E)) as Hm.
  change (String c l ++ "info" ++ rest)
    with (String c (l ++ "info" ++ rest)) in Hm |- *.
  rewrite (finditer_miss pattern c _ Hm). apply IH. exact H.
Qed.

Lemma finditer_skip_lead (l : string) (r : row) (tail : string) :
  info_free l = true ->
  finditer_from pattern 0 (l ++ render r ++ tail)
  = finditer_from pattern 0 (render r ++ tail).
Proof. rewrite render_assoc. apply finditer_skip_info_free. Qed.

Lemma corrupted_not_well_formed (b : row) :
  corrupted b = true -> well_formed b = false.
Proof.
  intros H. destruct (framed_or_not b H) as (_ & _ & Hn).
  unfold well_formed. rewrite Hn. apply andb_false_r.
Qed.

Lemma finditer_journal (es : list entry) :
  Forall (fun e => readable e = true) es ->
  finditer pattern (journal es) = map fields (filter intact es).
Proof.
  unfold finditer.
  induction es as [|e es IH]; intros H; [reflexivity|].
  inversion H as [|? ? He Hes]; subst.
  unfold readable in He. apply andb_true_iff in He. destruct He as [Hl Hb].
  cbn [journal filter]. unfold entry_text. rewrite append_assoc.
  rewrite finditer_skip_lead by exact Hl.
  unfold intact at 1.
  apply orb_true_iff in Hb. destruct Hb as [Hg | Hc].
  - rewrite Hg. cbn [map].
    rewrite finditer_well_formed by (assumption || reflexivity).
    rewrite finditer_newline. f_equal. apply IH. exact Hes.
  - rewrite (corrupted_not_well_formed _ Hc).
    rewrite finditer_corrupted by exact Hc.
    rewrite finditer_newline. apply IH. exact Hes.
Qed.

Lemma fold_add_fields (es : list entry) :
  Forall (fun e => intact e = true) es ->
  forall acc,
  exists ds vs cs ys,
    Forall2 (fun e v => py_float (diff (body e)) = Some v) es ds /\
    Forall2 (fun e v => py_float (avg (body e)) = Some v) es vs /\
    Forall2 (fun e v => py_float (corr (body e)) = Some v) es cs /\
    Forall2 (fun e v => exists y, py_float (cy (body e)) = Some y /\
                                  v = (y / 1000000)%Q) es ys /\
    fold_left add_match (map fields es) acc
    = {| acc_diff := (acc_diff acc ++ ds)%list;
         acc_avg := (acc_avg acc ++ vs)%list;
         acc_corr := (acc_corr acc ++ cs)%list;
         acc_cycle := (acc_cycle acc ++ ys)%list |}.
Proof.
  induction es as [|e es IH]; intros H acc.
  - exists []%list, []%list, []%list, []%list. rewrite !app_nil_r.
    destruct acc. repeat (split; [constructor|]). reflexivity.
  - inversion H as [|? ? He Hes]; subst.
    unfold intact, well_formed in He. apply andb_true_iff in He.
    destruct He as [Hf Hc].
    destruct (framed_parts _ Hf) as (_ & _ & _ & _ & H5 & _ & H7 & _ & _ & H10).
    destruct (py_float_number _ H5) as [d Hd].
    destruct (py_float_number _ H7) as [a Ha].
    destruct (py_float_number _ Hc) as [c Hcc].
    destruct (py_float_digits _ H10) as [y Hy].
    assert (E : add_match acc (fields e)
                = {| acc_diff := (acc_diff acc ++ [d])%list;
                     acc_avg := (acc_avg acc ++ [a])%list;
                     acc_corr := (acc_corr acc ++ [c])%list;
                     acc_cycle := (acc_cycle acc ++ [(y / 1000000)%Q])%list |}).
    { unfold add_match, convert_match, fields.
      cbn [group nth_error Nat.sub bind]. rewrite Hd, Ha, Hcc, Hy.
      reflexivity. }
    destruct (IH Hes (add_match acc (fields e)))
      as (ds & vs & cs & ys & F1 & F2 & F3 & F4 & F5).
    exists (d :: ds)%list, (a :: vs)%list, (c :: cs)%list,
           ((y / 1000000)%Q :: ys)%list.
    split; [constructor; assumption|].
    split; [constructor; assumption|].
    split; [constructor; assumption|].
    split; [constructor; [exists y; split; [assumption|reflexivity]|assumption]|].
    cbn [map fold_left]. rewrite F5, E.
    cbn [acc_diff acc_avg acc_corr acc_cycle].
    rewrite <- !app_assoc. reflexivity.
Qed.

Lemma filter_intact (es : list entry) :
  Forall (fun e => intact e = true) (filter intact es).
Proof.
  apply Forall_forall. intros e He. apply filter_In in He. apply He.
Qed.

(** X7: a journal of any length.  When every line holds a record, intact or
    with a damaged correction field, after a lead that does not hold the
    marker [info], the parse returns one sample per intact line, in the
    order of the lines: each sequence holds the values of its field, the
    cycle times divided by one million.  Damaged lines and leads contribute
    nothing. *)
Theorem journal_samples_in_order (es : list entry) :
  Forall (fun e => readable e = true) es ->
  let parsed := parse_diretta_logs (journal es) in
  let kept := filter intact es in
  Forall2 (fun e v => py_float (diff (body e)) = Some v)
          kept (dict_item parsed "buffer_diff") /\
  Forall2 (fun e v => py_float (avg (body e)) = Some v)
          kept (dict_item parsed "buffer_avg") /\
  Forall2 (fun e v => py_float (corr (body e)) = Some v)
          kept (dict_item parsed "correction") /\
  Forall2 (fun e v => exists y, py_float (cy (body e)) = Some y /\
                                v = (y / 1000000)%Q)
          kept (dict_item parsed "cycle_times").
Proof.
  intros H. cbv zeta.
  destruct (parsed_items (journal es)) as (_ & -> & -> & -> & ->).
  unfold collect. rewrite (finditer_journal es H).
  destruct (fold_add_fields _ (filter_intact es)
              {| acc_diff := []; acc_avg := []; acc_corr := [];
                 acc_cycle := [] |})
    as (ds & vs & cs & ys & F1 & F2 & F3 & F4 & ->).
  cbn [acc_diff acc_avg acc_corr acc_cycle app]. auto.
Qed.

Lemma journal_samples_in_order_witness :
  Forall2 (fun e v => py_float (diff (body e)) = Some v)
          (filter intact sample_journal)
          (dict_item (parse_diretta_logs (journal sample_journal)) "buffer_diff") /\
  Forall2 (fun e v => py_float (avg (body e)) = Some v)
          (filter intact sample_journal)
          (dict_item (parse_diretta_logs (journal sample_journal)) "buffer_avg") /\
  Forall2 (fun e v => py_float (corr (body e)) = Some v)
          (filter intact sample_journal)
          (dict_item (parse_diretta_logs (journal sample_journal)) "correction") /\
  Forall2 (fun e v => exists y, py_float (cy (body e)) = Some y /\
                                v = (y / 1000000)%Q)
          (filter intact sample_journal)
          (dict_item (parse_diretta_logs (journal sample_journal)) "cycle_times").
Proof.
  apply (journal_samples_in_order sample_journal).
  repeat (constructor; [reflexivity|]). constructor.
Defined.

End JournalProofs.

(** *** Stability analysis: order of the statistics *)

Section OrderProofs.

Lemma interpolation_between (a b g : Q) :
  a <= b -> 0 <= g -> g <= 1 ->
  a <= a + (b - a) * g /\ a + (b - a) * g <= b.
Proof. intros H1 H2 H3. split; nra. Qed.

Lemma interpolation_monotone (a b g1 g2 : Q) :
  a <= b -> g1 <= g2 -> a + (b - a) * g1 <= a + (b - a) * g2.
Proof. intros H1 H2. nra. Qed.

Lemma Qle_bool_false (x y : Q) : Qle_bool x y = false -> y <= x.
Proof.
  intros H. destruct (Qlt_le_dec y x) as [L|L]; [apply Qlt_le_weak; exact L|].
  apply Qle_bool_iff in L. congruence.
Qed.

Lemma insert_sorted_Forall (P : Q -> Prop) (x : Q) (l : list Q) :
  P x -> Forall P l -> Forall P (insert_sorted x l).
Proof.
  intros Hx. induction l as [|y l IH]; intros H; cbn [insert_sorted].
  - constructor; [exact Hx|constructor].
  - inversion H; subst. destruct (Qle_bool x y).
    + constructor; [exact Hx|exact H].
    + constructor; [assumption|apply IH; assumption].
Qed.

Lemma insert_sorted_sorted (x : Q) (l : list Q) :
  StronglySorted Qle l -> StronglySorted Qle (insert_sorted x l).
Proof.
  induction 1 as [|y l Hs IH Hy]; cbn [insert_sorted].
  - constructor; constructor.
  - destruct (Qle_bool x y) eqn:E.
    + apply Qle_bool_iff in E. constructor.
      * constructor; assumption.
      * constructor; [exact E|].
        eapply Forall_impl; [|exact Hy]. intros z Hz. cbv beta in Hz.
        apply (Qle_trans _ y); assumption.
    + constructor; [exact IH|].
      apply insert_sorted_Forall; [apply Qle_bool_false; exact E|exact Hy].
Qed.

Lemma np_sort_sorted (values : list Q) : StronglySorted Qle (np_sort values).
Proof.
  induction values as [|x l IH]; cbn; [constructor|].
  apply insert_sorted_sorted. exact IH.
Qed.

Lemma length_insert_sorted (x : Q) (l : list Q) :
  length (insert_sorted x l) = S (length l).
Proof.
  induction l as [|y l IH]; cbn [insert_sorted]; [reflexivity|].
  destruct (Qle_bool x y); cbn [length]; [reflexivity|]. rewrite IH. reflexivity.
Qed.

Lemma length_np_sort (values : list Q) :
  length (np_sort values) = length values.
Proof.
  induction values as [|x l IH]; [reflexivity|].
  cbn [np_sort fold_right]. rewrite length_insert_sorted. cbn [length].
  f_equal. exact IH.
Qed.

Lemma np_sort_Forall (P : Q -> Prop) (values : list Q) :
  Forall P values -> Forall P (np_sort values).
Proof.
  induction 1 as [|x l Hx Hl IH]; cbn; [constructor|].
  apply insert_sorted_Forall; assumption.
Qed.

Lemma sorted_nth (l : list Q) :
  StronglySorted Qle l ->
  forall i j, (i <= j)%nat -> (j < length l)%nat -> nth i l 0 <= nth j l 0.
Proof.
  induction 1 as [|y l Hs IH Hy]; intros i j Hij Hj; [cbn in Hj; lia|].
  destruct i as [|i]; destruct j as [|j]; cbn [nth length] in *.
  - apply Qle_refl.
  - rewrite Forall_forall in Hy. apply Hy. apply nth_In. lia.
  - lia.
  - apply IH; lia.
Qed.

Lemma Forall_nth_Q (P : Q -> Prop) (l : list Q) (i : nat) :
  Forall P l -> (i < length l)%nat -> P (nth i l 0).
Proof. intros H Hi. rewrite Forall_forall in H. apply H. apply nth_In. exact Hi. Qed.

Lemma fold_min_le (l : list Q) :
  forall m, fold_left (fun m y => if Qltb y m then y else m) l m <= m /\
            Forall (fun y => fold_left (fun m y => if Qltb y m then y else m) l m <= y) l.
Proof.
  induction l as [|y l IH]; intros m; cbn [fold_left].
  - split; [apply Qle_refl|constructor].
  - destruct (Qltb_spec y m) as [L|L].
    + destruct (IH y) as [I1 I2]. split; [lra|].
      constructor; [exact I1|exact I2].
    + destruct (IH m) as [I1 I2]. split; [exact I1|].
      constructor; [lra|exact I2].
Qed.

Lemma fold_max_ge (l : list Q) :
  forall m, m <= fold_left (fun m y => if Qltb m y then y else m) l m /\
            Forall (fun y => y <= fold_left (fun m y => if Qltb m y then y else m) l m) l.
Proof.
  induction l as [|y l IH]; intros m; cbn [fold_left].
  - split; [apply Qle_refl|constructor].
  - destruct (Qltb_spec m y) as [L|L].
    + destruct (IH y) as [I1 I2]. split; [lra|].
      constructor; [exact I1|exact I2].
    + destruct (IH m) as [I1 I2]. split; [exact I1|].
      constructor; [lra|exact I2].
Qed.

Lemma np_min_le (values : list Q) :
  Forall (fun y => np_min values <= y) values.
Proof.
  destruct values as [|x l]; [constructor|]. cbn [np_min].
  destruct (fold_min_le l x) as [H1 H2]. constructor; assumption.
Qed.

Lemma np_max_ge (values : list Q) :
  Forall (fun y => y <= np_max values) values.
Proof.
  destruct values as [|x l]; [constructor|]. cbn [np_max].
  destruct (fold_max_ge l x) as [H1 H2]. constructor; assumption.
Qed.

End OrderProofs.

Section PercentileProofs.

Lemma virtual_index_bounds (n : nat) (q : Q) :
  (1 <= n)%nat -> 0 <= q -> q <= 100 ->
  let last := (Z.of_nat n - 1)%Z in
  let virtual := (inject_Z last * (q / 100))%Q in
  let previous := Qfloor virtual in
  let next := Z.min (previous + 1) last in
  let gamma := (virtual - inject_Z previous)%Q in
  (0 <= previous)%Z /\ (previous <= next)%Z /\ (next <= last)%Z /\
  0 <= gamma /\ gamma <= 1.
Proof.
  intros Hn H0 H1. cbv zeta.
  set (last := (Z.of_nat n - 1)%Z).
  set (virtual := (inject_Z last * (q / 100))%Q).
  assert (Hl : (0 <= last)%Z) by (unfold last; lia).
  assert (Hl' : 0 <= inject_Z last)
    by (change 0 with (inject_Z 0); rewrite <- Zle_Qle; exact Hl).
  assert (Hq : 0 <= q / 100 /\ q / 100 <= 1).
  { assert (E : q / 100 == q * (1 # 100)) by reflexivity. rewrite E.
    split; lra. }
  assert (Hv0 : 0 <= virtual) by (unfold virtual; nra).
  assert (Hv1 : virtual <= inject_Z last) by (unfold virtual; nra).
  assert (Hp0 : (0 <= Qfloor virtual)%Z).
  { change 0%Z with (Qfloor 0). apply Qfloor_resp_le. exact Hv0. }
  assert (Hp1 : (Qfloor virtual <= last)%Z).
  { rewrite <- (Qfloor_Z last). apply Qfloor_resp_le. exact Hv1. }
  pose proof (Qfloor_le virtual) as F1.
  pose proof (Qlt_floor virtual) as F2.
  rewrite inject_Z_plus in F2. change (inject_Z 1) with 1 in F2.
  repeat split; try lia; lra.
Qed.

Lemma np_percentile_monotone (values : list Q) (q1 q2 : Q) :
  values <> [] -> 0 <= q1 -> q1 <= q2 -> q2 <= 100 ->
  np_percentile values q1 <= np_percentile values q2.
Proof.
  intros Hne H0 H12 H2.
  assert (Hn : (1 <= length values)%nat)
    by (destruct values; [congruence|cbn; lia]).
  pose proof (virtual_index_bounds (length values) q1 Hn H0 ltac:(lra)) as B1.
  pose proof (virtual_index_bounds (length values) q2 Hn ltac:(lra) H2) as B2.
  cbv zeta in B1, B2. unfold np_percentile.
  set (last := (Z.of_nat (length values) - 1)%Z) in *.
  set (v1 := (inject_Z last * (q1 / 100))%Q) in *.
  set (v2 := (inject_Z last * (q2 / 100))%Q) in *.
  set (sorted := np_sort values).
  destruct B1 as (P1 & N1 & L1 & G1 & G1').
  destruct B2 as (P2 & N2 & L2 & G2 & G2').
  assert (Hs : StronglySorted Qle sorted) by apply np_sort_sorted.
  assert (Hlen : length sorted = length values) by apply length_np_sort.
  assert (Hl' : 0 <= inject_Z last).
  { change 0 with (inject_Z 0). rewrite <- Zle_Qle. unfold last. lia. }
  assert (Hv : v1 <= v2).
  { unfold v1, v2.
    assert (E1 : q1 / 100 == q1 * (1 # 100)) by reflexivity.
    assert (E2 : q2 / 100 == q2 * (1 # 100)) by reflexivity.
    rewrite E1, E2. nra. }
  assert (Hp : (Qfloor v1 <= Qfloor v2)%Z) by (apply Qfloor_resp_le; exact Hv).
  assert (A1 : nth (Z.to_nat (Qfloor v1)) sorted 0
               <= nth (Z.to_nat (Z.min (Qfloor v1 + 1) last)) sorted 0).
  { apply sorted_nth; [exact Hs| |]; unfold last in *; lia. }
  assert (A2 : nth (Z.to_nat (Qfloor v2)) sorted 0
               <= nth (Z.to_nat (Z.min (Qfloor v2 + 1) last)) sorted 0).
  { apply sorted_nth; [exact Hs| |]; unfold last in *; lia. }
  destruct (Z.eq_dec (Qfloor v1) (Qfloor v2)) as [E|E].
  - rewrite <- E in *. apply interpolation_monotone; [exact A1|lra].
  - assert (A3 : nth (Z.to_nat (Z.min (Qfloor v1 + 1) last)) sorted 0
                 <= nth (Z.to_nat (Qfloor v2)) sorted 0).
    { apply sorted_nth; [exact Hs| |]; unfold last in *; lia. }
    destruct (interpolation_between _ _ _ A1 G1 G1') as [_ U].
    destruct (interpolation_between _ _ _ A2 G2 G2') as [L _].
    lra.
Qed.

Lemma np_percentile_between (values : list Q) (q : Q) :
  values <> [] -> 0 <= q -> q <= 100 ->
  np_min values <= np_percentile values q /\
  np_percentile values q <= np_max values.
Proof.
  intros Hne H0 H1.
  assert (Hn : (1 <= length values)%nat)
    by (destruct values; [congruence|cbn; lia]).
  pose proof (virtual_index_bounds (length values) q Hn H0 H1) as B.
  cbv zeta in B. unfold np_percentile.
  set (last := (Z.of_nat (length values) - 1)%Z) in *.
  set (v := (inject_Z last * (q / 100))%Q) in *.
  set (sorted := np_sort values).
  destruct B as (P & N & L & G & G').
  assert (Hs : StronglySorted Qle sorted) by apply np_sort_sorted.
  assert (Hlen : length sorted = length values) by apply length_np_sort.
  assert (A : nth (Z.to_nat (Qfloor v)) sorted 0
              <= nth (Z.to_nat (Z.min (Qfloor v + 1) last)) sorted 0).
  { apply sorted_nth; [exact Hs| |]; unfold last in *; lia. }
  destruct (interpolation_between _ _ _ A G G') as [I1 I2].
  pose proof (np_sort_Forall _ _ (np_min_le values)) as Fmin.
  pose proof (np_sort_Forall _ _ (np_max_ge values)) as Fmax.
  fold sorted in Fmin, Fmax.
  assert (M1 : np_min values <= nth (Z.to_nat (Qfloor v)) sorted 0).
  { apply (Forall_nth_Q _ _ _ Fmin). unfold last in *. lia. }
  assert (M2 : nth (Z.to_nat (Z.min (Qfloor v + 1) last)) sorted 0
               <= np_max values).
  { apply (Forall_nth_Q _ _ _ Fmax). unfold last in *. lia. }
  split; lra.
Qed.

End PercentileProofs.

Section StabilityOrder.

Variable np_std : list Q -> Q.

(** X8: the quartiles of [analyze_stability] are ordered.  For every list
    of samples of magnitude at most [finite_limit], the minimum is at most
    the first quartile, the first quartile at most the third, and the third
    at most the maximum; so the interquartile range is never negative and
    never exceeds the peak-to-peak range.  (The interpolation
    [a + (b - a) * gamma] of [np.percentile] keeps this order also when
    each of its steps is rounded, as long as [b - a] is finite.) *)
Theorem stability_is_ordered (values : list Q) :
  Forall (fun v => Qabs v <= inject_Z finite_limit) values ->
  let s := analyze_stability np_std values in
  st_min s <= st_q1 s /\ st_q1 s <= st_q3 s /\ st_q3 s <= st_max s /\
  0 <= st_iqr s /\ st_iqr s <= st_range s.
Proof.
  intros _. cbv zeta. unfold analyze_stability.
  destruct (length values <? 2)%nat eqn:E;
    cbv beta iota zeta
        delta [st_min st_q1 st_q3 st_max st_iqr st_range].
  - repeat split; apply Qle_refl.
  - apply Nat.ltb_ge in E.
    assert (Hne : values <> []) by (destruct values; [cbn in E; lia|discriminate]).
    destruct (np_percentile_between values 25 Hne) as [A1 A2]; [lra|lra|].
    destruct (np_percentile_between values 75 Hne) as [B1 B2]; [lra|lra|].
    pose proof (np_percentile_monotone values 25 75 Hne) as M.
    specialize (M ltac:(lra) ltac:(lra) ltac:(lra)).
    repeat split; lra.
Qed.

End StabilityOrder.

(** Four cycle times around 3186 microseconds. *)
Lemma stability_is_ordered_witness :
  let s := analyze_stability (fun _ => 0) [3185.9; 3186.2; 3186.0; 3185.5] in
  st_min s <= st_q1 s /\ st_q1 s <= st_q3 s /\ st_q3 s <= st_max s /\
  0 <= st_iqr s /\ st_iqr s <= st_range s.
Proof.
  apply (stability_is_ordered (fun _ => 0) [3185.9; 3186.2; 3186.0; 3185.5]).
  repeat constructor; vm_compute; discriminate.
Defined.

(** *** Configuration text and its detection *)

Section ConfigProofs.
Local Open Scope string_scope.

Lemma digit_char_spec (d : Z) :
  (0 <= d <= 9)%Z ->
  is_digit (digit_char d) = true /\ digit_value (digit_char d) = d.
Proof.
  intros H.
  assert (C : (d = 0 \/ d = 1 \/ d = 2 \/ d = 3 \/ d = 4 \/ d = 5 \/ d = 6
               \/ d = 7 \/ d = 8 \/ d = 9)%Z) by lia.
  repeat (destruct C as [-> | C]; [split; reflexivity|]).
  subst d. split; reflexivity.
Qed.

Lemma str_digits_S (fuel : nat) (n : Z) (s : string) :
  str_digits (S fuel) n s
  = if (n <? 10)%Z then String (digit_char (n mod 10)) s
    else str_digits fuel (n / 10) (String (digit_char (n mod 10)) s).
Proof. reflexivity. Qed.

Lemma str_digits_value (fuel : nat) :
  forall n s,
    (0 <= n)%Z -> (n < 10 ^ Z.of_nat (S fuel))%Z ->
    digits_from 0 (str_digits (S fuel) n s) = digits_from n s.
Proof.
  induction fuel as [|fuel IH]; intros n s H0 H1; rewrite str_digits_S.
  - assert (Hn : (n < 10)%Z) by (change (10 ^ Z.of_nat 1)%Z with 10%Z in H1; lia).
    destruct (Z.ltb_spec n 10) as [_|L]; [|lia].
    cbn [digits_from str_digits].
    destruct (digit_char_spec (n mod 10)) as [D1 D2];
      [pose proof (Z.mod_pos_bound n 10); lia|].
    rewrite D1, D2. rewrite Z.mod_small by lia. reflexivity.
  - destruct (digit_char_spec (n mod 10)) as [D1 D2];
      [pose proof (Z.mod_pos_bound n 10); lia|].
    destruct (Z.ltb_spec n 10) as [L|L].
    + cbn [digits_from]. rewrite D1, D2. rewrite Z.mod_small by lia.
      reflexivity.
    + rewrite IH.
      * cbn [digits_from]. rewrite D1, D2.
        rewrite (Z.mul_comm (n / 10) 10), <- Z.div_mod by lia. reflexivity.
      * apply Z.div_pos; lia.
      * apply Z.div_lt_upper_bound; [lia|].
        rewrite (Nat2Z.inj_succ (S fuel)), Z.pow_succ_r in H1 by lia. exact H1.
Qed.

Lemma str_digits_all (fuel : nat) :
  forall n s,
    (0 <= n)%Z -> all_in is_digit s = true ->
    all_in is_digit (str_digits fuel n s) = true.
Proof.
  induction fuel as [|fuel IH]; intros n s H0 Hs; cbn [str_digits];
    [exact Hs|].
  destruct (digit_char_spec (n mod 10)) as [D1 _];
    [pose proof (Z.mod_pos_bound n 10); lia|].
  assert (Hs' : all_in is_digit (String (digit_char (n mod 10)) s) = true)
    by (cbn [all_in]; rewrite D1, Hs; reflexivity).
  destruct (n <? 10)%Z; [exact Hs'|].
  apply IH; [apply Z.div_pos; lia|exact Hs'].
Qed.

Lemma str_digits_keeps (fuel : nat) :
  forall n s, nonempty s = true -> nonempty (str_digits fuel n s) = true.
Proof.
  induction fuel as [|fuel IH]; intros n s H; [exact H|].
  rewrite str_digits_S. destruct (n <? 10)%Z; [reflexivity|].
  apply IH. reflexivity.
Qed.

Lemma str_digits_nonempty (fuel : nat) (n : Z) (s : string) :
  nonempty (str_digits (S fuel) n s) = true.
Proof.
  rewrite str_digits_S. destruct (n <? 10)%Z; [reflexivity|].
  apply str_digits_keeps. reflexivity.
Qed.

Lemma bits_bound (n : Z) :
  (0 <= n)%Z -> (n < 10 ^ Z.of_nat (S (Z.to_nat (Z.log2 n))))%Z.
Proof.
  intros H0.
  rewrite Nat2Z.inj_succ, Z2Nat.id by apply Z.log2_nonneg.
  destruct (Z.eq_dec n 0) as [->|Hn]; [reflexivity|].
  pose proof (Z.log2_spec n ltac:(lia)) as [_ U].
  apply (Z.lt_le_trans _ _ _ U).
  apply Z.pow_le_mono_l. pose proof (Z.log2_nonneg n). lia.
Qed.

(** [str] of a natural number is a run of digits that reads back. *)
Lemma py_str_digits (n : Z) :
  (0 <= n)%Z ->
  run_of is_digit (py_str n) = true /\ digits (py_str n) = Some n.
Proof.
  intros H0. unfold py_str. rewrite Z.abs_eq by exact H0.
  destruct (Z.ltb_spec n 0) as [L|_]; [lia|].
  split.
  - unfold run_of. rewrite str_digits_nonempty.
    rewrite str_digits_all by (assumption || reflexivity). reflexivity.
  - unfold digits.
    pose proof (str_digits_nonempty (Z.to_nat (Z.log2 n)) n "") as Hne.
    destruct (str_digits (S (Z.to_nat (Z.log2 n))) n "") eqn:E;
      [discriminate|].
    rewrite <- E. rewrite str_digits_value by (assumption || apply bits_bound; assumption).
    reflexivity.
Qed.

Lemma digit_not_C (c : ascii) : is_digit c = true -> not_C c = true.
Proof.
  unfold not_C. destruct (Ascii.eqb_spec c "C") as [->|_];
    [discriminate|reflexivity].
Qed.

Lemma py_str_not_C (n : Z) : all_in not_C (py_str n) = true.
Proof.
  unfold py_str.
  assert (H : all_in not_C
                (str_digits (S (Z.to_nat (Z.log2 (Z.abs n)))) (Z.abs n) "")
              = true).
  { apply (all_in_weaken is_digit); [exact digit_not_C|].
    apply str_digits_all; [apply Z.abs_nonneg|reflexivity]. }
  destruct (n <? 0)%Z; [cbn [all_in]; rewrite H; reflexivity|exact H].
Qed.

End ConfigProofs.

Section DetectProofs.
Local Open Scope string_scope.

(** What a match of the assignment pattern captures. *)
Lemma cycle_time_groups (s : string) (caps : captures) (rest : string) :
  match_at cycle_time_re s = Some (caps, rest) ->
  exists c, caps = [c]%list /\ run_of is_digit c = true.
Proof.
  unfold match_at. intros H.
  destruct (rmatch_sound_groups cycle_time_re _ _ _ _ H)
    as (x & s' & cs & -> & Hl & Hk).
  cbn [app] in Hk. injection Hk as <- <-.
  unfold cycle_time_re in Hl. cbn [lang_groups] in Hl.
  destruct Hl as (? & ? & ? & ? & _ & -> & [_ ->] &
                  ? & ? & ? & ? & _ & -> & [_ ->] &
                  ? & ? & ? & ? & _ & -> & [_ ->] &
                  ? & c & ? & ? & _ & -> & [_ ->] & (g & -> & [G ->])).
  exists c. split; [reflexivity|exact G].
Qed.

Lemma search_matches (r : regex) (s : string) (caps : captures) :
  search r s = Some caps -> exists s' rest, match_at r s' = Some (caps, rest).
Proof.
  unfold search, finditer. intros H.
  destruct (finditer_from r 0 s) as [|m ms] eqn:E; [discriminate|].
  injection H as ->.
  apply (finditer_from_matches r s 0). rewrite E. left. reflexivity.
Qed.

Lemma detect_in_natural (files : list (option string)) (v : Q) :
  detect_in files = Some v -> exists n, (0 <= n)%Z /\ v = inject_Z n.
Proof.
  induction files as [|[content|] files IH]; cbn [detect_in]; intros H.
  - discriminate.
  - destruct (search cycle_time_re content) as [m|] eqn:E; [|auto].
    destruct (search_matches _ _ _ E) as (s' & rest & Hm).
    destruct (cycle_time_groups _ _ _ Hm) as (c & -> & Hc).
    destruct (py_float_digits_value c Hc) as (n & H0 & _ & Hf).
    cbn [group nth_error Nat.sub bind] in H. rewrite Hf in H.
    injection H as <-. eauto.
  - auto.
Qed.

Lemma match_needs_C (c : ascii) (s : string) :
  not_C c = true -> match_at cycle_time_re (String c s) = None.
Proof.
  unfold not_C, match_at, cycle_time_re. intros H.
  rewrite cat_step. cbn [rmatch strip_prefix].
  rewrite Ascii.eqb_sym. destruct (Ascii.eqb c "C"); [discriminate|reflexivity].
Qed.

Lemma finditer_skip_not_C (x tail : string) :
  all_in not_C x = true ->
  finditer_from cycle_time_re 0 (x ++ tail) = finditer_from cycle_time_re 0 tail.
Proof.
  induction x as [|c x IH]; intros H; [reflexivity|].
  cbn [all_in] in H. apply andb_true_iff in H. destruct H as [Hc Hx].
  cbn [append]. rewrite finditer_miss by (apply match_needs_C; exact Hc).
  apply IH. exact Hx.
Qed.

Lemma star_greedy (p : ascii -> bool) (x rest : string) (caps : captures)
    (k : cont) (res : captures * string) :
  all_in p x = true -> head_in p rest = false -> k rest caps = Some res ->
  rmatch (Star p) (x ++ rest) caps k = Some res.
Proof. apply star_loop_greedy. Qed.

Lemma match_assignment (d tail : string) :
  run_of is_digit d = true ->
  match_at cycle_time_re ("CycleTime=" ++ d ++ newline ++ tail)
  = Some ([d]%list, newline ++ tail).
Proof.
  intros Hd. unfold match_at, cycle_time_re.
  assert (Hh : head_in is_space (d ++ newline ++ tail) = false)
    by (apply digit_head_not_space; exact Hd).
  change ("CycleTime=" ++ d ++ newline ++ tail)
    with ("CycleTime" ++ "=" ++ d ++ newline ++ tail).
  cbv beta; rewrite ?cat_step. apply lit_greedy.
  cbv beta; rewrite ?cat_step. apply (star_greedy _ ""); [reflexivity..|].
  cbv beta; rewrite ?cat_step. apply (lit_greedy "=").
  cbv beta; rewrite ?cat_step. apply (star_greedy _ ""); [reflexivity|exact Hh|].
  apply digits_group_greedy; [exact Hd|reflexivity|reflexivity].
Qed.

Lemma search_assignment (lead1 lead2 lead3 d tail : string) :
  all_in not_C lead1 = true -> all_in not_C lead2 = true ->
  all_in not_C lead3 = true -> run_of is_digit d = true ->
  search cycle_time_re
    (lead1 ++ "Cycle=" ++ lead2 ++ "Cycle=" ++ lead3
     ++ "CycleTime=" ++ d ++ newline ++ tail)
  = Some [d]%list.
Proof.
  intros H1 H2 H3 Hd. unfold search, finditer.
  rewrite finditer_skip_not_C by exact H1.
  change ("Cycle=" ++ lead2 ++ ?t) with (String "C" ("ycle=" ++ lead2 ++ t)).
  rewrite finditer_miss by reflexivity.
  rewrite (finditer_skip_not_C "ycle=") by reflexivity.
  rewrite finditer_skip_not_C by exact H2.
  change ("Cycle=" ++ lead3 ++ ?t) with (String "C" ("ycle=" ++ lead3 ++ t)).
  rewrite finditer_miss by reflexivity.
  rewrite (finditer_skip_not_C "ycle=") by reflexivity.
  rewrite finditer_skip_not_C by exact H3.
  pose proof (match_assignment d tail Hd) as Hm.
  change ("CycleTime=" ++ d ++ newline ++ tail)
    with (String "C" ("ycleTime=" ++ d ++ newline ++ tail)) in Hm |- *.
  cbn [finditer_from]. rewrite Hm. reflexivity.
Qed.

End DetectProofs.

Section RoundTrip.
Local Open Scope string_scope.

(** X9: a reference read from a configuration file is a natural number.
    Whenever [_detect_cycle_time] returns a value of at most
    [finite_limit] (the assignment it read has at most 307 digits), the
    value is a whole number that is not negative: the group of the pattern
    holds digits only, so the conversion cannot fail and cannot yield a
    sign or a fraction. *)
Theorem detected_reference_is_natural (w : World) (v : Q) :
  _detect_cycle_time w = Some v -> (v <= inject_Z finite_limit)%Q ->
  exists n, (0 <= n)%Z /\ v = inject_Z n.
Proof. intros H _. revert H. unfold _detect_cycle_time. apply detect_in_natural. Qed.

Lemma detected_reference_is_natural_witness :
  exists n, (0 <= n)%Z /\ 3185 = inject_Z n.
Proof.
  apply (detected_reference_is_natural configured_world 3185);
    [reflexivity | vm_compute; discriminate].
Defined.

Lemma generate_config_shape (cycle_time period_min period_max
    period_size_min period_size_max sync_buffer latency_buffer
    thred_mode : Z) (interface : string) (cpu_send cpu_other : Z) :
  exists tail,
    generate_config cycle_time period_min period_max period_size_min
      period_size_max sync_buffer latency_buffer thred_mode interface
      cpu_send cpu_other
    = ("[global]" ++ newline ++ "Interface=" ++ interface ++ newline
       ++ "TargetProfileLimitTime=0" ++ newline ++ "ThredMode="
       ++ py_str thred_mode ++ newline ++ "Info")
      ++ "Cycle=" ++ ("100000" ++ newline ++ "Flex")
      ++ "Cycle=" ++ ("max" ++ newline)
      ++ "CycleTime=" ++ py_str cycle_time ++ newline ++ tail.
Proof.
  eexists. unfold generate_config. rewrite !append_assoc.
  cbn [append]. reflexivity.
Qed.

Lemma detect_in_generated (rest : list (option string)) (cycle_time
    period_min period_max period_size_min period_size_max sync_buffer
    latency_buffer thred_mode : Z) (interface : string)
    (cpu_send cpu_other : Z) :
  (0 <= cycle_time)%Z ->
  all_in not_C interface = true ->
  detect_in
    (Some (generate_config cycle_time period_min period_max period_size_min
             period_size_max sync_buffer latency_buffer thred_mode interface
             cpu_send cpu_other) :: rest)
  = Some (inject_Z cycle_time).
Proof.
  intros H0 Hi.
  destruct (generate_config_shape cycle_time period_min period_max
              period_size_min period_size_max sync_buffer latency_buffer
              thred_mode interface cpu_send cpu_other) as [tail ->].
  destruct (py_str_digits cycle_time H0) as [Hd Hv].
  destruct (py_float_digits_value _ Hd) as (n & _ & Hn & Hf).
  assert (n = cycle_time) by congruence. subst n.
  cbn [detect_in]. rewrite search_assignment.
  - cbn [group nth_error Nat.sub bind]. rewrite Hf. reflexivity.
  - rewrite !all_in_append, Hi, py_str_not_C. reflexivity.
  - reflexivity.
  - reflexivity.
  - exact Hd.
Qed.

(** X10: the configuration that the program writes is the configuration
    that the monitor reads.  For a cycle time that is not negative and at
    most [exact_limit] (so that [float] reads its digits back exactly) and
    an interface name without a capital C, [_detect_cycle_time] on a home
    file that holds the text of [generate_config] returns the cycle time
    that was written, whatever the other settings and the file under
    [/etc] are. *)
Theorem generated_config_is_detected (w : World) (cycle_time period_min
    period_max period_size_min period_size_max sync_buffer latency_buffer
    thred_mode : Z) (interface : string) (cpu_send cpu_other : Z) :
  (0 <= cycle_time <= exact_limit)%Z ->
  all_in not_C interface = true ->
  home_setting_inf w
  = Some (generate_config cycle_time period_min period_max period_size_min
            period_size_max sync_buffer latency_buffer thred_mode interface
            cpu_send cpu_other) ->
  _detect_cycle_time w = Some (inject_Z cycle_time).
Proof.
  intros [H0 _] Hi Hw. unfold _detect_cycle_time. rewrite Hw.
  apply detect_in_generated; assumption.
Qed.

Lemma generated_config_is_detected_witness :
  _detect_cycle_time
    (world_with "2026-01-01 00:00:00"
       (Some (generate_config 1540 4 8 2048 8192 6 0 257 "enp5s0" 1 2))
       sample_line)
  = Some (inject_Z 1540).
Proof.
  apply (generated_config_is_detected _ 1540 4 8 2048 8192 6 0 257
           "enp5s0" 1 2);
    [unfold exact_limit; lia | reflexivity | reflexivity].
Defined.

End RoundTrip.

(** *** Stability Report Builder: reference and notes *)

Section ReportProofs.

Variable np_std : list Q -> Q.

Lemma opening_shows_reference (w : World) (self : DirettaMonitor) (n : Z)
    (c : Q) :
  before_logs w self = Some c -> truthy c = true ->
  In [T "Expected CycleTime: "; Fixed 1 c; T " μs (from configuration)"]
     (opening w self n).
Proof.
  intros Hb Ht. unfold opening. apply in_or_app. right.
  rewrite Hb, Ht. cbn [In]. auto.
Qed.

Lemma run_report_opens (w : World) (self : DirettaMonitor) (n : Z) :
  exists rest,
    fst (analyze_recent_logs np_std w self n) = opening w self n ++ rest.
Proof.
  destruct (journalctl w (service_name self) n) as [logs|] eqn:E.
  - destruct logs as [|a logs'].
    + rewrite (run_without_logs np_std) by (right; exact E). cbn [fst]. eauto.
    + rewrite (run_with_logs np_std w self n _ E) by discriminate.
      cbn [fst]. eauto.
  - rewrite (run_without_logs np_std) by (left; exact E). cbn [fst]. eauto.
Qed.

Lemma run_keeps_service (w : World) (self : DirettaMonitor) (n : Z) :
  service_name (snd (analyze_recent_logs np_std w self n)) = service_name self.
Proof.
  destruct (journalctl w (service_name self) n) as [logs|] eqn:E.
  - destruct logs as [|a logs'].
    + rewrite (run_without_logs np_std) by (right; exact E). reflexivity.
    + rewrite (run_with_logs np_std w self n _ E) by discriminate.
      reflexivity.
  - rewrite (run_without_logs np_std) by (left; exact E). reflexivity.
Qed.

Lemma truthy_reference_kept (w : World) (self : DirettaMonitor) (n : Z)
    (c : Q) :
  cycle_time_us self = Some c -> truthy c = true ->
  snd (analyze_recent_logs np_std w self n) = self /\
  In [T "Expected CycleTime: "; Fixed 1 c; T " μs (from configuration)"]
     (fst (analyze_recent_logs np_std w self n)).
Proof.
  intros Hc Ht.
  assert (Hb : before_logs w self = Some c)
    by (unfold before_logs; rewrite Hc; reflexivity).
  split.
  - pose proof (run_state np_std w self n) as Hs.
    pose proof (run_keeps_service w self n) as Hn.
    rewrite Hb in Hs. unfold after_logs in Hs. cbn [truthy_opt] in Hs.
    rewrite Ht in Hs. cbn [negb andb] in Hs.
    destruct (snd (analyze_recent_logs np_std w self n)) as [sn ct].
    destruct self as [sn' ct']. cbn [service_name cycle_time_us] in *.
    subst. reflexivity.
  - destruct (run_report_opens w self n) as [rest ->].
    apply in_or_app. left. apply opening_shows_reference; assumption.
Qed.

Lemma inferred_reference (w : World) (self : DirettaMonitor) (n : Z) :
  truthy_opt (before_logs w self) = false ->
  acc_cycle (collect (retrieved w self n)) <> [] ->
  cycle_time_us (snd (analyze_recent_logs np_std w self n))
  = Some (np_mean (acc_cycle (collect (retrieved w self n)))).
Proof.
  intros Hb Hne. rewrite run_state. unfold after_logs. rewrite Hb.
  destruct (acc_cycle (collect (retrieved w self n))); [contradiction|].
  reflexivity.
Qed.

(** X11: a reference inferred from the logs outlives the run.  When a run
    starts without a usable reference (none given, none configured, or
    zero) and its logs hold cycle times whose mean is not zero, the monitor
    leaves the run with that mean as its reference; a second run on the
    same monitor, whatever its journal and configuration files hold, keeps
    the mean of the first run and announces it as coming from the
    configuration. *)
Theorem second_run_reuses_inferred_reference (w1 w2 : World)
    (self : DirettaMonitor) (n1 n2 : Z) :
  truthy_opt (before_logs w1 self) = false ->
  acc_cycle (collect (retrieved w1 self n1)) <> [] ->
  truthy (np_mean (acc_cycle (collect (retrieved w1 self n1)))) = true ->
  let mean := np_mean (acc_cycle (collect (retrieved w1 self n1))) in
  let self1 := snd (analyze_recent_logs np_std w1 self n1) in
  cycle_time_us self1 = Some mean /\
  snd (analyze_recent_logs np_std w2 self1 n2) = self1 /\
  In [T "Expected CycleTime: "; Fixed 1 mean; T " μs (from configuration)"]
     (fst (analyze_recent_logs np_std w2 self1 n2)).
Proof.
  intros Hb Hne Ht. cbv zeta.
  pose proof (inferred_reference w1 self n1 Hb Hne) as H1.
  split; [exact H1|].
  apply truthy_reference_kept; assumption.
Qed.

(** The line of a report that announces the reference, two lines after
    the head: it shows what the monitor holds once the configuration has
    been consulted. *)
Lemma run_reference_line (w : World) (self : DirettaMonitor) (n : Z) :
  nth_error (fst (analyze_recent_logs np_std w self n))
    (length (report_head n) + 2)
  = Some (match before_logs w self with
          | Some c =>
              if truthy c
              then [T "Expected CycleTime: "; Fixed 1 c;
                    T " μs (from configuration)"]
              else [T "Expected CycleTime: Will be detected from logs"]
          | None => [T "Expected CycleTime: Will be detected from logs"]
          end).
Proof.
  destruct (run_report_opens w self n) as [rest ->].
  unfold opening. rewrite <- app_assoc.
  rewrite nth_error_app2 by lia.
  replace (length (report_head n) + 2 - length (report_head n))%nat
    with 2%nat by lia.
  reflexivity.
Qed.

(** C9: a run is not a function of the inputs that the specification
    lists, because the monitor carries a reference from one run to the
    next.  When a run starts without a usable reference (none given, none
    configured, or zero) and its logs hold cycle times whose mean is not
    zero, a second run of [analyze_recent_logs] on the same monitor, with
    the same line count, in the same world (the same journal text, the same
    configuration files, the same reading of the clock) gives another
    report: where the first announces "Expected CycleTime: Will be detected
    from logs", the second shows the mean of the first run as "Expected
    CycleTime ... (from configuration)". *)
Theorem second_run_reports_differently (w : World) (self : DirettaMonitor)
    (n : Z) :
  truthy_opt (before_logs w self) = false ->
  acc_cycle (collect (retrieved w self n)) <> [] ->
  truthy (np_mean (acc_cycle (collect (retrieved w self n)))) = true ->
  let mean := np_mean (acc_cycle (collect (retrieved w self n))) in
  let first := analyze_recent_logs np_std w self n in
  let second := analyze_recent_logs np_std w (snd first) n in
  let reference_line := (length (report_head n) + 2)%nat in
  service_name (snd first) = service_name self /\
  nth_error (fst first) reference_line
  = Some [T "Expected CycleTime: Will be detected from logs"] /\
  nth_error (fst second) reference_line
  = Some [T "Expected CycleTime: "; Fixed 1 mean;
          T " μs (from configuration)"] /\
  fst first <> fst second.
Proof.
  intros Hb Hne Ht. cbv zeta.
  pose proof (inferred_reference w self n Hb Hne) as H1.
  assert (F1 : nth_error (fst (analyze_recent_logs np_std w self n))
                 (length (report_head n) + 2)
               = Some [T "Expected CycleTime: Will be detected from logs"]).
  { rewrite run_reference_line.
    destruct (before_logs w self) as [c|]; [|reflexivity].
    cbn [truthy_opt] in Hb. rewrite Hb. reflexivity. }
  assert (F2 : nth_error
                 (fst (analyze_recent_logs np_std w
                         (snd (analyze_recent_logs np_std w self n)) n))
                 (length (report_head n) + 2)
               = Some [T "Expected CycleTime: ";
                       Fixed 1 (np_mean
                                  (acc_cycle (collect (retrieved w self n))));
                       T " μs (from configuration)"]).
  { rewrite run_reference_line. unfold before_logs. rewrite H1, Ht.
    reflexivity. }
  split; [apply run_keeps_service|].
  split; [exact F1|].
  split; [exact F2|].
  intros E. rewrite E, F2 in F1. discriminate F1.
Qed.




End ReportProofs.

Lemma second_run_reuses_inferred_reference_witness :
  let mean := np_mean (acc_cycle (collect (retrieved one_sample_world
                                             fresh_monitor 1000))) in
  let self1 := snd (analyze_recent_logs (fun _ => 0) one_sample_world
                      fresh_monitor 1000) in
  cycle_time_us self1 = Some mean /\
  snd (analyze_recent_logs (fun _ => 0) configured_world self1 10) = self1 /\
  In [T "Expected CycleTime: "; Fixed 1 mean; T " μs (from configuration)"]
     (fst (analyze_recent_logs (fun _ => 0) configured_world self1 10)).
Proof.
  apply (second_run_reuses_inferred_reference (fun _ => 0) one_sample_world
           configured_world fresh_monitor 1000 10);
    [reflexivity | discriminate | reflexivity].
Defined.

(** Two runs on the monitor that [main] builds, with the log line of the
    docstring in the journal and no configuration file. *)
Lemma second_run_reports_differently_witness :
  let mean := np_mean (acc_cycle (collect (retrieved one_sample_world
                                             fresh_monitor 1000))) in
  let first := analyze_recent_logs (fun _ => 0) one_sample_world
                 fresh_monitor 1000 in
  let second := analyze_recent_logs (fun _ => 0) one_sample_world
                  (snd first) 1000 in
  let reference_line := (length (report_head 1000) + 2)%nat in
  service_name (snd first) = service_name fresh_monitor /\
  nth_error (fst first) reference_line
  = Some [T "Expected CycleTime: Will be detected from logs"] /\
  nth_error (fst second) reference_line
  = Some [T "Expected CycleTime: "; Fixed 1 mean;
          T " μs (from configuration)"] /\
  fst first <> fst second.
Proof.
  apply (second_run_reports_differently (fun _ => 0) one_sample_world
           fresh_monitor 1000);
    [reflexivity | discriminate | reflexivity].
Defined.


Section NotesProofs.

Variable np_std : list Q -> Q.

Lemma quality_poor (iqr abs_mean : Q) :
  (0.020 <= iqr)%Q ->
  quality iqr abs_mean
  = "✗ Poor - Frequent large buffer corrections (possible clock mismatch)"%string.
Proof.
  intros H. unfold quality.
  destruct (Qltb_spec iqr 0.001) as [L|_]; [lra|].
  destruct (Qltb_spec iqr 0.005) as [L|_]; [lra|].
  destruct (Qltb_spec iqr 0.010) as [L|_]; [lra|].
  destruct (Qltb_spec iqr 0.020) as [L|_]; [lra|].
  reflexivity.
Qed.

(** X13: the advice to enable PTP comes only with the grade Poor.  Whenever
    the buffer section holds the line "Recommendation: Consider enabling
    PTP synchronization", its assessment line reads "Poor". *)
Theorem ptp_advice_only_when_poor (correction buffer_diff : list Q) :
  In [T "   • Recommendation: Consider enabling PTP synchronization"]
     (buffer_section np_std correction buffer_diff) ->
  In [T "   Assessment:         ";
      T "✗ Poor - Frequent large buffer corrections (possible clock mismatch)"]
     (buffer_section np_std correction buffer_diff).
Proof.
  unfold buffer_section.
  destruct (negb (length correction =? 0)%nat && (10 <=? length correction)%nat).
  - set (s := analyze_stability np_std correction).
    intros H.
    apply in_app_or in H. destruct H as [H|H];
      [cbn [In] in H; not_a_line H; destruct H|].
    apply in_app_or in H. destruct H as [H|H].
    { destruct (Qltb 0.015 (Qabs (st_mean s))); [destruct (Qltb 0 (st_mean s))|];
        cbn [In] in H; not_a_line H; destruct H. }
    apply in_app_or in H. destruct H as [H|H].
    + destruct (Qltb (st_iqr s) 0.005);
        [cbn [In] in H; not_a_line H; destruct H|].
      destruct (Qltb_spec 0.020 (st_iqr s)) as [L|_];
        [|destruct H].
      apply in_or_app. left. cbn [In]. right. right. left.
      rewrite quality_poor by lra. reflexivity.
    + destruct buffer_diff; [destruct H|].
      cbn [In] in H. not_a_line H. destruct H.
  - intros H. cbn [In] in H. not_a_line H. destruct H.
Qed.

End NotesProofs.

Lemma ptp_advice_only_when_poor_witness :
  In [T "   Assessment:         ";
      T "✗ Poor - Frequent large buffer corrections (possible clock mismatch)"]
     (buffer_section (fun _ => 0) drifting_corrections []).
Proof.
  apply (ptp_advice_only_when_poor (fun _ => 0) drifting_corrections []).
  vm_compute. do 16 right. left. reflexivity.
Defined.

(** *** Settings check *)

Section SettingsProofs.

Lemma ratio_test (a b : Z) :
  (0 < a)%Z -> Qltb 3 (inject_Z b / inject_Z a) = (3 * a <? b)%Z.
Proof.
  intros Ha.
  assert (Ha' : 0 < inject_Z a)
    by (change 0 with (inject_Z 0); rewrite <- Zlt_Qlt; exact Ha).
  destruct (Qltb_spec 3 (inject_Z b / inject_Z a)) as [L|L];
    destruct (Z.ltb_spec (3 * a) b) as [M|M]; try reflexivity; exfalso.
  - apply Qlt_shift_div_l in L || idtac.
    assert (X : 3 * inject_Z a < inject_Z b).
    { apply (Qmult_lt_r _ _ (inject_Z a) Ha') in L.
      assert (E : inject_Z b / inject_Z a * inject_Z a == inject_Z b)
        by (field; lra).
      rewrite E in L. exact L. }
    change 3 with (inject_Z 3) in X. rewrite <- inject_Z_mult in X.
    rewrite <- Zlt_Qlt in X. lia.
  - assert (X : inject_Z b <= 3 * inject_Z a).
    { apply (Qmult_le_r _ _ (inject_Z a) Ha') in L.
      assert (E : inject_Z b / inject_Z a * inject_Z a == inject_Z b)
        by (field; lra).
      rewrite E in L. exact L. }
    change 3 with (inject_Z 3) in X. rewrite <- inject_Z_mult in X.
    rewrite <- Zle_Qle in X. lia.
Qed.

Lemma latency_test (b s : Z) :
  Qltb (inject_Z b * 1.5) (inject_Z s) = (3 * b <? 2 * s)%Z.
Proof.
  assert (E : inject_Z b * 1.5 == inject_Z (3 * b) * (1 # 2)).
  { rewrite inject_Z_mult. change (inject_Z 3) with 3. lra. }
  assert (F : forall x y : Z, inject_Z x * (1 # 2) < inject_Z y <-> (x < 2 * y)%Z).
  { intros x y. rewrite (Zlt_Qlt x), inject_Z_mult. change (inject_Z 2) with 2.
    split; intros; lra. }
  destruct (Qltb_spec (inject_Z b * 1.5) (inject_Z s)) as [L|L];
    destruct (Z.ltb_spec (3 * b) (2 * s)) as [M|M]; try reflexivity; exfalso.
  - rewrite E in L. apply F in L. lia.
  - apply (proj2 (F (3 * b)%Z s)) in M. rewrite <- E in M. lra.
Qed.

Lemma snoc_if_nil {A : Type} (c : bool) (l : list A) (x : A) :
  (if c then l ++ [x] else l) = [] <-> c = false /\ l = [].
Proof.
  destruct c.
  - split; [intros H; destruct l; discriminate H|intros [H _]; discriminate H].
  - tauto.
Qed.

Lemma snoc_elif_nil {A : Type} (c1 c2 : bool) (l : list A) (x y : A) :
  (if c1 then l ++ [x] else if c2 then l ++ [y] else l) = []
  <-> c1 = false /\ c2 = false /\ l = [].
Proof.
  destruct c1; [|rewrite snoc_if_nil; tauto].
  split; [intros H; destruct l; discriminate H|intros [H _]; discriminate H].
Qed.

Lemma bind_none {A B : Type} (m : option A) (k : A -> B) :
  bind m (fun a => Some (k a)) = None <-> m = None.
Proof. destruct m; cbn [bind]; split; intros H; try discriminate H; reflexivity. Qed.

Lemma Some_nil_iff {A : Type} (l : list A) : Some l = Some [] <-> l = [].
Proof. split; [intros H; injection H as ->; reflexivity|intros ->; reflexivity]. Qed.

(** X14: the settings check fails on a zero period minimum, and on nothing
    else.  With [period_max] and [sync_buffer] of magnitude at most
    [exact_limit], [validate_settings] raises exactly when [period_min] is
    zero (the division of the ratio), whatever the other settings are. *)
Theorem validate_settings_fails_exactly (period_min period_max
    period_size_min period_size_max sync_buffer : Z) :
  (Z.abs period_max <= exact_limit)%Z ->
  (Z.abs sync_buffer <= exact_limit)%Z ->
  (validate_settings period_min period_max period_size_min period_size_max
     sync_buffer = None
   <-> period_min = 0%Z).
Proof.
  intros _ _. unfold validate_settings. cbv zeta. rewrite bind_none by discriminate.
  rewrite py_div_by_int.
  destruct (Z.eqb_spec period_min 0) as [E|E].
  - split; [intros _; exact E|reflexivity].
  - split; [intros H; discriminate H|intros H; contradiction].
Qed.

(** X15: the settings that pass without a remark.  For a positive period
    minimum the check returns the empty list exactly when the period
    maximum is at most three times the minimum, the sync buffer lies
    between the period minimum and one and a half times the period
    maximum, the two period sizes differ, the smaller is at most 4096 and
    the larger at least 2048, the total buffering lies between 10 and 20,
    and the settings are not the recommended triple 4/8/6. *)
Theorem validate_settings_quiet (period_min period_max period_size_min
    period_size_max sync_buffer : Z) :
  (0 < period_min)%Z ->
  (validate_settings period_min period_max period_size_min period_size_max
     sync_buffer = Some []
   <-> (period_max <= 3 * period_min /\
        period_min <= sync_buffer /\ 2 * sync_buffer <= 3 * period_max /\
        period_size_min <> period_size_max /\
        period_size_min <= 4096 /\ 2048 <= period_size_max /\
        10 <= period_max + sync_buffer <= 20 /\
        ~ (period_min = 4 /\ period_max = 8 /\ sync_buffer = 6))%Z).
Proof.
  intros Hp. unfold validate_settings.
  rewrite py_div_by_int.
  destruct (Z.eqb_spec period_min 0) as [E|_]; [lia|].
  cbv beta iota delta [bind].
  rewrite ratio_test by exact Hp. rewrite latency_test.
  cbv zeta.
  rewrite Some_nil_iff.
  rewrite (snoc_if_nil ((period_min =? 4)%Z && (period_max =? 8)%Z
                        && (sync_buffer =? 6)%Z)).
  rewrite (snoc_elif_nil (period_max + sync_buffer <? 10)%Z).
  rewrite (snoc_if_nil (period_size_max <? 2048)%Z).
  rewrite (snoc_if_nil (4096 <? period_size_min)%Z).
  rewrite (snoc_if_nil (period_size_min =? period_size_max)%Z).
  rewrite (snoc_if_nil (3 * period_max <? 2 * sync_buffer)%Z).
  rewrite (snoc_if_nil (sync_buffer <? period_min)%Z).
  rewrite (snoc_if_nil (3 * period_min <? period_max)%Z).
  rewrite !andb_false_iff, !Z.ltb_ge, !Z.eqb_neq.
  split.
  - intros (H1 & H2 & H3 & H4 & H5 & H6 & H7 & H8 & H9 & _).
    repeat (split; [lia|]). lia.
  - intros (H1 & H2 & H3 & H4 & H5 & H6 & H7 & H8).
    split; [|repeat split; lia].
    destruct (Z.eq_dec period_min 4) as [E1|E1]; [|left; left; exact E1].
    destruct (Z.eq_dec period_max 8) as [E2|E2]; [|left; right; exact E2].
    right. intros E3. apply H8. auto.
Qed.

Lemma validate_settings_quiet_witness :
  validate_settings 4 10 2048 8192 6 = Some []
  <-> (10 <= 3 * 4 /\ 4 <= 6 /\ 2 * 6 <= 3 * 10 /\ 2048 <> 8192 /\
       2048 <= 4096 /\ 2048 <= 8192 /\ 10 <= 10 + 6 <= 20 /\
       ~ (4 = 4 /\ 10 = 8 /\ 6 = 6))%Z.
Proof. apply (validate_settings_quiet 4 10 2048 8192 6). lia. Defined.

(** A zero period minimum, and the recommended settings. *)
Lemma validate_settings_fails_exactly_witness :
  (validate_settings 0 8 2048 8192 6 = None <-> 0%Z = 0%Z) /\
  (validate_settings 4 8 2048 8192 6 = None <-> 4%Z = 0%Z).
Proof.
  split.
  - apply (validate_settings_fails_exactly 0 8 2048 8192 6);
      unfold exact_limit; cbn; lia.
  - apply (validate_settings_fails_exactly 4 8 2048 8192 6);
      unfold exact_limit; cbn; lia.
Defined.

End SettingsProofs.

(** *** MTU detection *)

Section DetectionProofs.
Local Open Scope string_scope.

(** **** Groups of the three patterns *)

Lemma ip_link_groups (s : string) (caps : captures) (rest : string) :
  match_at ip_link_re s = Some (caps, rest) ->
  exists name d,
    caps = [name; d]%list /\ run_of not_space name = true /\
    run_of is_digit d = true.
Proof.
  unfold match_at. intros H.
  destruct (rmatch_sound_groups ip_link_re _ _ _ _ H)
    as (x & s' & cs & -> & Hl & Hk).
  cbn [app] in Hk. injection Hk as <- <-.
  unfold ip_link_re in Hl. cbn [lang_groups] in Hl.
  destruct Hl as (? & ? & ? & ? & _ & -> & [_ ->] &
                  ? & ? & ? & ? & _ & -> & [_ ->] &
                  ? & ? & ? & ? & _ & -> & [_ ->] &
                  name & ? & ? & ? & _ & -> & (g1 & -> & [G1 ->]) &
                  ? & ? & ? & ? & _ & -> & [_ ->] &
                  ? & ? & ? & ? & _ & -> & [_ ->] &
                  ? & ? & ? & ? & _ & -> & [_ ->] &
                  ? & d & ? & ? & _ & -> & [_ ->] & (g2 & -> & [G2 ->])).
  exists name, d. cbn [app]. auto.
Qed.

Lemma iface_groups (s : string) (caps : captures) (rest : string) :
  match_at iface_re s = Some (caps, rest) ->
  exists name, caps = [name]%list /\ run_of not_space name = true.
Proof.
  unfold match_at. intros H.
  destruct (rmatch_sound_groups iface_re _ _ _ _ H)
    as (x & s' & cs & -> & Hl & Hk).
  cbn [app] in Hk. injection Hk as <- <-.
  unfold iface_re in Hl. cbn [lang_groups] in Hl.
  destruct Hl as (name & ? & ? & ? & _ & -> & (g1 & -> & [G1 ->]) & [_ ->]).
  exists name. cbn [app]. auto.
Qed.

Lemma mtu_groups (s : string) (caps : captures) (rest : string) :
  match_at mtu_re s = Some (caps, rest) ->
  exists d, caps = [d]%list /\ run_of is_digit d = true.
Proof.
  unfold match_at. intros H.
  destruct (rmatch_sound_groups mtu_re _ _ _ _ H)
    as (x & s' & cs & -> & Hl & Hk).
  cbn [app] in Hk. injection Hk as <- <-.
  unfold mtu_re in Hl. cbn [lang_groups] in Hl.
  destruct Hl as (? & ? & ? & ? & _ & -> & [_ ->] &
                  ? & ? & ? & ? & _ & -> & [_ ->] &
                  ? & ? & ? & ? & _ & -> & [_ ->] &
                  ? & d & ? & ? & _ & -> & [_ ->] & (g & -> & [G ->])).
  exists d. cbn [app]. auto.
Qed.

(** **** [int] on a run of digits *)

Lemma lstrip_head (s : string) : head_in is_space s = false -> lstrip s = s.
Proof. destruct s as [|c s]; cbn; [reflexivity|]. intros ->. reflexivity. Qed.

Lemma rstrip_no_space (s : string) :
  all_in not_space s = true -> rstrip s = s.
Proof.
  induction s as [|c s IH]; cbn [all_in rstrip]; [reflexivity|].
  intros H. apply andb_true_iff in H. destruct H as [Hc Hs].
  rewrite (IH Hs). unfold not_space in Hc.
  destruct (is_space c); [discriminate|]. destruct s; reflexivity.
Qed.

Lemma strip_digits (d : string) : run_of is_digit d = true -> strip d = d.
Proof.
  intros H. unfold strip.
  rewrite lstrip_head.
  - apply rstrip_no_space. apply digits_not_space. exact H.
  - rewrite <- (digit_head_not_space d "" H). f_equal.
    clear H. induction d; cbn; congruence.
Qed.

Lemma int_digits_run (s : string) :
  all_in is_digit s = true ->
  forall acc, int_digits acc true s = digits_from acc s.
Proof.
  induction s as [|c s IH]; cbn [all_in int_digits digits_from];
    [reflexivity|].
  intros H acc. apply andb_true_iff in H. destruct H as [Hc Hs].
  rewrite Hc. apply IH. exact Hs.
Qed.

Lemma py_int_text_digits (d : string) :
  run_of is_digit d = true ->
  exists n, (0 <= n)%Z /\ py_int_text d = Some n.
Proof.
  intros H. destruct (py_float_digits_value d H) as (n & H0 & Hn & _).
  exists n. split; [exact H0|].
  unfold py_int_text. rewrite (strip_digits d H).
  pose proof (run_of_all _ _ H) as Ha.
  destruct d as [|c d]; [discriminate|].
  cbn [all_in] in Ha. apply andb_true_iff in Ha. destruct Ha as [Hc Hd].
  pose proof (digit_not_sign c Hc) as X. unfold is_sign in X.
  apply orb_false_iff in X. destruct X as [Ep Em]. rewrite Em, Ep.
  cbn [int_digits]. rewrite Hc. rewrite int_digits_run by exact Hd.
  unfold digits in Hn. cbn [digits_from] in Hn. rewrite Hc in Hn. exact Hn.
Qed.

End DetectionProofs.

Section OutcomeProofs.
Local Open Scope string_scope.

(** **** The dictionary of interfaces *)

Lemma dict_get_set_same {V : Type} (d : dict V) (key : string) (v : V) :
  dict_get (dict_set d key v) key = Some v.
Proof.
  induction d as [|[k x] d IH]; cbn [dict_set dict_get].
  - rewrite String.eqb_refl. reflexivity.
  - destruct (String.eqb k key) eqn:E; cbn [dict_get]; rewrite E;
      [reflexivity|exact IH].
Qed.

Lemma dict_get_set_other {V : Type} (d : dict V) (key other : string)
    (v : V) :
  key <> other -> dict_get (dict_set d key v) other = dict_get d other.
Proof.
  intros Hne. induction d as [|[k x] d IH]; cbn [dict_set dict_get].
  - destruct (String.eqb_spec key other); [contradiction|reflexivity].
  - destruct (String.eqb_spec k key) as [->|Hk]; cbn [dict_get].
    + destruct (String.eqb_spec key other); [contradiction|reflexivity].
    + rewrite IH. reflexivity.
Qed.

Lemma dict_get_none {V : Type} (d : dict V) (key : string) (v : V) :
  dict_get d key = None -> ~ In (key, v) d.
Proof.
  induction d as [|[k x] d IH]; cbn [dict_get In]; [tauto|].
  destruct (String.eqb_spec k key) as [->|Hk]; intros H; [discriminate H|].
  intros [E|E]; [injection E as E1 _; contradiction|exact (IH H E)].
Qed.

(** **** The first of the largest *)

Lemma max_item_spec (items : list (string * Z)) :
  forall before best mid,
    Forall (fun item => (snd item < snd best)%Z) before ->
    Forall (fun item => (snd item <= snd best)%Z) mid ->
    exists b a,
      (before ++ best :: mid ++ items)%list
      = (b ++ max_item best items :: a)%list /\
      Forall (fun item => (snd item < snd (max_item best items))%Z) b /\
      Forall (fun item => (snd item <= snd (max_item best items))%Z) a.
Proof.
  induction items as [|item rest IH]; intros before best mid Hb Hm;
    cbn [max_item].
  - exists before, mid. rewrite app_nil_r. auto.
  - destruct (Z.ltb_spec (snd best) (snd item)) as [L|L].
    + destruct (IH (before ++ best :: mid)%list item []%list) as (b & a & E & Fb & Fa).
      * apply Forall_app. split.
        -- eapply Forall_impl; [|exact Hb]. cbv beta. intros; lia.
        -- constructor; [exact L|].
           eapply Forall_impl; [|exact Hm]. cbv beta. intros; lia.
      * constructor.
      * exists b, a. split; [|auto].
        rewrite <- E. cbn [app]. rewrite <- app_assoc. reflexivity.
    + destruct (IH before best (mid ++ [item])%list Hb) as (b & a & E & Fb & Fa).
      * apply Forall_app. split; [exact Hm|]. constructor; [exact L|constructor].
      * exists b, a. split; [|auto].
        rewrite <- E. rewrite <- app_assoc. reflexivity.
Qed.

Lemma max_item_first (item : string * Z) (rest : list (string * Z)) :
  first_highest (fst (max_item item rest)) (snd (max_item item rest))
    (item :: rest).
Proof.
  destruct (max_item_spec rest []%list item []%list) as (b & a & E & Fb & Fa);
    [constructor|constructor|].
  cbn [app] in E. exists b, a. rewrite E.
  destruct (max_item item rest). auto.
Qed.

End OutcomeProofs.

Section StageProofs.
Local Open Scope string_scope.

Lemma requested_spec (interface : option string) (name : string) :
  requested interface name = true ->
  interface = Some name /\ unspecified interface = false.
Proof.
  destruct interface as [i|]; cbn [requested unspecified]; [|discriminate].
  intros H. apply andb_true_iff in H. destruct H as [Hn He].
  apply String.eqb_eq in He. subst i. rewrite Hn. auto.
Qed.

Lemma first_highest_in (name : string) (value : Z) (all : dict Z) :
  first_highest name value all -> In (name, value) all.
Proof.
  intros (b & a & -> & _). apply in_or_app. right. left. reflexivity.
Qed.

Lemma select_sound (interface : option string) (all : dict Z)
    (how : string) :
  lo_free all ->
  how = "ip_command_auto" \/ how = "ifconfig_auto" \/ how = "sysfs_auto" ->
  stage_sound interface (select interface all how).
Proof.
  intros Hf Hh. unfold select. destruct all as [|item rest]; [exact Hf|].
  destruct (unspecified interface) eqn:U; [|exact Hf].
  cbn [stage_sound]. split; [exact Hf|].
  pose proof (max_item_first item rest) as Hm.
  exists (fst (max_item item rest)), (snd (max_item item rest)), how.
  split; [repeat split|]. split.
  - intros E. apply first_highest_in in Hm. rewrite E in Hm.
    exact (dict_get_none _ _ _ Hf Hm).
  - rewrite U. cbn [found all_interfaces]. auto.
Qed.

Lemma found_sound (interface : option string) (name : string) (value : Z)
    (all : dict Z) (how : string) :
  lo_free all -> name <> "lo" -> requested interface name = true ->
  how = "ip_command" \/ how = "ifconfig" \/ how = "sysfs" ->
  sound interface (found name value (dict_set all name value) how).
Proof.
  intros Hf Hn Hr Hh. destruct (requested_spec _ _ Hr) as [Hi Hu].
  split.
  - cbn [found all_interfaces]. unfold lo_free.
    rewrite dict_get_set_other by exact Hn. exact Hf.
  - exists name, value, how. split; [repeat split|]. split; [exact Hn|].
    rewrite Hu. cbn [found all_interfaces].
    rewrite dict_get_set_same. auto.
Qed.

Lemma set_lo_free (all : dict Z) (name : string) (value : Z) :
  lo_free all -> name <> "lo" -> lo_free (dict_set all name value).
Proof.
  intros Hf Hn. unfold lo_free. rewrite dict_get_set_other by exact Hn.
  exact Hf.
Qed.

Lemma ip_loop_sound (interface : option string) (lines : list string) :
  forall all,
    lo_free all ->
    exists st, ip_loop interface lines all = Some st /\
               stage_sound interface st.
Proof.
  induction lines as [|line rest IH]; intros all Hf; cbn [ip_loop].
  - eexists. split; [reflexivity|]. apply select_sound; auto.
  - destruct (match_at ip_link_re line) as [[m tail]|] eqn:E; [|auto].
    destruct (ip_link_groups _ _ _ E) as (name & d & -> & Hn & Hd).
    destruct (py_int_text_digits d Hd) as (n & _ & Hi).
    cbn [group nth_error Nat.sub bind]. rewrite Hi. cbn [bind].
    destruct (String.eqb_spec name "lo") as [|Hlo]; [auto|].
    destruct (requested interface name) eqn:R.
    + eexists. split; [reflexivity|]. apply found_sound; auto.
    + apply IH. apply set_lo_free; assumption.
Qed.

Lemma ifconfig_loop_sound (interface : option string) (lines : list string) :
  forall current all,
    lo_free all ->
    exists st, ifconfig_loop interface lines current all = Some st /\
               stage_sound interface st.
Proof.
  induction lines as [|line rest IH]; intros current all Hf;
    cbn [ifconfig_loop].
  - eexists. split; [reflexivity|]. apply select_sound; auto.
  - destruct (match_at iface_re line) as [[m tail]|] eqn:E.
    + destruct (iface_groups _ _ _ E) as (name & -> & Hn).
      cbn [group nth_error Nat.sub bind]. auto.
    + destruct current as [cur|]; [|auto].
      destruct (nonempty cur && contains "mtu" (lower line)); [|auto].
      destruct (search mtu_re line) as [mm|] eqn:S; [|auto].
      destruct (search_matches _ _ _ S) as (s' & tail & Hm).
      destruct (mtu_groups _ _ _ Hm) as (d & -> & Hd).
      destruct (py_int_text_digits d Hd) as (n & _ & Hi).
      cbn [group nth_error Nat.sub bind]. rewrite Hi. cbn [bind].
      destruct (String.eqb_spec cur "lo") as [|Hlo]; [auto|].
      destruct (requested interface cur) eqn:R.
      * eexists. split; [reflexivity|]. apply found_sound; auto.
      * apply IH. apply set_lo_free; assumption.
Qed.

Lemma sysfs_loop_sound (interface : option string)
    (entries : list (string * sysfs_mtu)) :
  forall all, lo_free all -> stage_sound interface (sysfs_loop interface entries all).
Proof.
  induction entries as [|[name file] rest IH]; intros all Hf;
    cbn [sysfs_loop].
  - apply select_sound; auto.
  - destruct (String.eqb_spec name "lo") as [|Hlo]; [auto|].
    destruct file as [| |text]; [auto|exact Hf|].
    destruct (py_int_text (strip text)) as [n|]; [|exact Hf].
    destruct (requested interface name) eqn:R.
    + apply found_sound; auto.
    + apply IH. apply set_lo_free; assumption.
Qed.

(** The function returns, and its result is one of three. *)
Lemma detect_network_mtu_sound (net : Net) (interface : option string) :
  exists r,
    detect_network_mtu net interface = Some r /\
    lo_free (all_interfaces r) /\
    (sound interface r \/ nothing_found r).
Proof.
  unfold detect_network_mtu. cbv zeta.
  assert (H1 : exists st,
             match check_output net "ip -o link show" with
             | Some output =>
                 ip_loop interface (split_lines (strip output)) []
             | None => Some (Fell [])
             end = Some st /\ stage_sound interface st).
  { destruct (check_output net "ip -o link show").
    - apply ip_loop_sound. reflexivity.
    - eexists. split; reflexivity. }
  destruct H1 as (st1 & -> & S1). cbn [bind].
  destruct st1 as [r|all1].
  { exists r. split; [reflexivity|]. split; [apply S1|left; exact S1]. }
  cbn [stage_sound] in S1.
  set (cmd := match interface with
              | Some i => if nonempty i then "ifconfig " ++ i else "ifconfig"
              | None => "ifconfig"
              end).
  assert (H2 : exists st,
             match check_output net cmd with
             | Some output =>
                 ifconfig_loop interface (split_lines output) None all1
             | None => Some (Fell all1)
             end = Some st /\ stage_sound interface st).
  { destruct (check_output net cmd).
    - apply ifconfig_loop_sound. exact S1.
    - eexists. split; [reflexivity|exact S1]. }
  destruct H2 as (st2 & -> & S2). cbn [bind].
  destruct st2 as [r|all2].
  { exists r. split; [reflexivity|]. split; [apply S2|left; exact S2]. }
  cbn [stage_sound] in S2.
  assert (S3 : stage_sound interface
                 match sys_class_net net with
                 | Some entries => sysfs_loop interface entries all2
                 | None => Fell all2
                 end).
  { destruct (sys_class_net net); [apply sysfs_loop_sound|]; exact S2. }
  destruct (match sys_class_net net with
            | Some entries => sysfs_loop interface entries all2
            | None => Fell all2
            end) as [r|all3].
  - exists r. split; [reflexivity|]. split; [apply S3|left; exact S3].
  - eexists. split; [reflexivity|]. split; [exact S3|].
    right. repeat split.
Qed.

End StageProofs.

Section LinkProofs.
Local Open Scope string_scope.

(** **** Giving back what a greedy repetition took *)

Lemma star_loop_stop (p : ascii -> bool) (s : string) (caps : captures)
    (k : cont) :
  head_in p s = false -> star_loop p s caps k = k s caps.
Proof. destruct s as [|c s]; cbn; [reflexivity|]. intros ->. reflexivity. Qed.

Lemma star_loop_back_one (p : ascii -> bool) (x : string) (c : ascii)
    (rest : string) (caps : captures) (k : cont) (res : captures * string) :
  all_in p x = true -> p c = true -> head_in p rest = false ->
  k rest caps = None -> k (String c rest) caps = Some res ->
  star_loop p (x ++ String c rest) caps k = Some res.
Proof.
  intros Hx Hc Hr Hn Hk. induction x as [|a x IH]; cbn [append star_loop].
  - rewrite Hc, (star_loop_stop p rest caps k Hr), Hn. exact Hk.
  - cbn [all_in] in Hx. apply andb_true_iff in Hx. destruct Hx as [Ha Hx].
    rewrite Ha, (IH Hx). reflexivity.
Qed.

(** A group [(\S+)] before a colon gives the colon back. *)
Lemma token_before_colon (name rest : string) (caps : captures) (k : cont)
    (res : captures * string) :
  run_of not_space name = true -> head_in is_space rest = true ->
  k rest (caps ++ [name])%list = Some res ->
  rmatch (Cat (Grp (Plus not_space)) (Lit ":")) (name ++ ":" ++ rest) caps k
  = Some res.
Proof.
  intros Hn Hr Hk. rewrite cat_step. cbn [rmatch].
  unfold run_of in Hn. apply andb_true_iff in Hn. destruct Hn as [Hne Hall].
  destruct name as [|a name]; [discriminate|].
  cbn [all_in] in Hall. apply andb_true_iff in Hall. destruct Hall as [Ha Hall].
  cbn [append]. rewrite Ha.
  change (":" ++ rest) with (String ":" rest).
  apply star_loop_back_one.
  - exact Hall.
  - reflexivity.
  - apply head_in_not_space. exact Hr.
  - destruct rest as [|b rest]; [discriminate|]. cbn [head_in] in Hr.
    cbn [strip_prefix]. destruct (Ascii.eqb_spec ":" b) as [<-|_];
      [discriminate Hr|reflexivity].
  - cbn [strip_prefix]. rewrite Ascii.eqb_refl.
    replace (take (String.length (String a (name ++ String ":" rest))
                   - String.length (String ":" rest))
               (String a (name ++ String ":" rest)))
      with (String a name); [exact Hk|].
    symmetry. apply (take_append (String a name) (String ":" rest)).
Qed.

Lemma star_loop_only_here (p : ascii -> bool) (y : string) (caps : captures)
    (k : cont) :
  (forall y1 y2, y = y1 ++ y2 -> y1 <> "" -> k y2 caps = None) ->
  star_loop p y caps k = k y caps.
Proof.
  induction y as [|c y IH]; intros H; cbn [star_loop]; [reflexivity|].
  destruct (p c); [|reflexivity].
  rewrite IH.
  - rewrite (H (String c "") y); [reflexivity|reflexivity|discriminate].
  - intros y1 y2 E Hne. apply (H (String c y1) y2); [|discriminate].
    cbn [append]. rewrite E. reflexivity.
Qed.

(** [.*] ends at the last place where the rest of the pattern matches. *)
Lemma star_loop_last (p : ascii -> bool) (x y : string) (caps : captures)
    (k : cont) (res : captures * string) :
  all_in p x = true -> k y caps = Some res ->
  (forall y1 y2, y = y1 ++ y2 -> y1 <> "" -> k y2 caps = None) ->
  star_loop p (x ++ y) caps k = Some res.
Proof.
  intros Hx Hk Hl. induction x as [|a x IH]; cbn [append].
  - rewrite star_loop_only_here by exact Hl. exact Hk.
  - cbn [all_in] in Hx. apply andb_true_iff in Hx. destruct Hx as [Ha Hx].
    cbn [star_loop]. rewrite Ha, (IH Hx). reflexivity.
Qed.

(** **** No later [mtu] *)

Lemma contains_false_suffix (needle text y1 y2 : string) :
  contains needle text = false -> text = y1 ++ y2 ->
  strip_prefix needle y2 = None.
Proof.
  revert text. induction y1 as [|c y1 IH]; intros text H E; subst text.
  - cbn [append] in H. destruct y2; cbn [contains] in H;
      destruct (strip_prefix needle _); [discriminate|reflexivity
                                         |discriminate|reflexivity].
  - cbn [append contains] in H.
    destruct (strip_prefix needle (String c (y1 ++ y2))); [discriminate|].
    apply (IH (y1 ++ y2)); [exact H|reflexivity].
Qed.

Lemma digits_then_no_mtu (d trailer y1 y2 : string) :
  all_in is_digit d = true -> contains "mtu" trailer = false ->
  d ++ trailer = y1 ++ y2 -> strip_prefix "mtu" y2 = None.
Proof.
  revert y1. induction d as [|c d IH]; intros y1 Hd Ht E.
  - cbn [append] in E. apply (contains_false_suffix "mtu" trailer y1 y2 Ht E).
  - cbn [all_in] in Hd. apply andb_true_iff in Hd. destruct Hd as [Hc Hd].
    destruct y1 as [|a y1].
    + cbn [append] in E. subst y2. cbn [strip_prefix].
      destruct (Ascii.eqb_spec "m" c) as [<-|_]; [discriminate Hc|reflexivity].
    + cbn [append] in E. injection E as _ E. apply (IH y1 Hd Ht E).
Qed.

Lemma no_later_mtu (d trailer y1 y2 : string) :
  all_in is_digit d = true -> contains "mtu" trailer = false ->
  "mtu " ++ d ++ trailer = y1 ++ y2 -> y1 <> "" ->
  strip_prefix "mtu" y2 = None.
Proof.
  intros Hd Ht E Hne.
  destruct y1 as [|c1 y1]; [contradiction|].
  cbn [append] in E. injection E as _ E.
  destruct y1 as [|c2 y1]; [cbn [append] in E; subst y2; reflexivity|].
  cbn [append] in E. injection E as _ E.
  destruct y1 as [|c3 y1]; [cbn [append] in E; subst y2; reflexivity|].
  cbn [append] in E. injection E as _ E.
  destruct y1 as [|c4 y1]; [cbn [append] in E; subst y2; reflexivity|].
  cbn [append] in E. injection E as _ E.
  apply (digits_then_no_mtu d trailer y1 y2 Hd Ht E).
Qed.

End LinkProofs.

Section LinkMatch.
Local Open Scope string_scope.

Lemma well_formed_link_parts (l : link) :
  well_formed_link l = true ->
  (0 <= link_index l)%Z /\ (0 <= link_mtu l)%Z /\
  run_of not_space (link_name l) = true /\
  head_in is_space (link_flags l) = true /\
  all_in not_newline (link_flags l) = true /\
  all_in not_newline (link_rest l) = true /\
  contains "mtu" (link_rest l) = false /\
  head_in is_digit (link_rest l) = false /\
  rstrip (link_rest l) = link_rest l.
Proof.
  unfold well_formed_link. intros H.
  apply andb_true_iff in H. destruct H as [H H9].
  apply andb_true_iff in H. destruct H as [H H8].
  apply andb_true_iff in H. destruct H as [H H7].
  apply andb_true_iff in H. destruct H as [H H6].
  apply andb_true_iff in H. destruct H as [H H5].
  apply andb_true_iff in H. destruct H as [H H4].
  apply andb_true_iff in H. destruct H as [H H3].
  apply andb_true_iff in H. destruct H as [H1 H2].
  apply Z.leb_le in H1. apply Z.leb_le in H2.
  apply negb_true_iff in H7. apply negb_true_iff in H8.
  apply String.eqb_eq in H9. tauto.
Qed.

Lemma star_step (p : ascii -> bool) (s : string) (caps : captures)
    (k : cont) :
  rmatch (Star p) s caps k = star_loop p s caps k.
Proof. reflexivity. Qed.

(** A well-formed line matches, and captures its name and its MTU. *)
Lemma match_link (l : link) :
  well_formed_link l = true ->
  match_at ip_link_re (link_line l)
  = Some ([link_name l; py_str (link_mtu l)]%list, link_rest l).
Proof.
  intros H.
  destruct (well_formed_link_parts l H)
    as (Hi & Hm & Hn & Hf & Hfn & Hrn & Hc & Hd & _).
  destruct (py_str_digits _ Hi) as [Di _].
  destruct (py_str_digits _ Hm) as [Dm _].
  unfold match_at, ip_link_re, link_line.
  rewrite cat_step. apply plus_greedy; [exact Di|reflexivity|].
  cbv beta. rewrite cat_step.
  change (": " ++ link_name l ++ ?t) with (":" ++ " " ++ link_name l ++ t).
  apply lit_greedy.
  cbv beta. rewrite cat_step. apply (plus_greedy _ " "); [reflexivity| |].
  { apply head_in_space_false. apply run_of_head. exact Hn. }
  cbv beta.
  change (rmatch (Cat (Grp (Plus not_space)) (Cat (Lit ":") ?r)) ?s ?c ?k)
    with (rmatch (Cat (Grp (Plus not_space)) (Lit ":")) s c
            (fun s' caps' => rmatch r s' caps' k)).
  apply token_before_colon; [exact Hn| |].
  { destruct (link_flags l); [discriminate Hf|exact Hf]. }
  cbv beta. cbn [app]. rewrite cat_step, star_step.
  apply star_loop_last; [exact Hfn| |].
  - cbv beta. rewrite cat_step. apply (lit_greedy "mtu").
    cbv beta. rewrite cat_step. apply (plus_greedy _ " "); [reflexivity| |].
    { apply digit_head_not_space. exact Dm. }
    apply digits_group_greedy; [exact Dm|exact Hd|reflexivity].
  - intros y1 y2 E Hne. cbv beta. rewrite cat_step. cbn [rmatch].
    rewrite (no_later_mtu (py_str (link_mtu l)) (link_rest l) y1 y2);
      [reflexivity|apply run_of_all; exact Dm|exact Hc|exact E|exact Hne].
Qed.

End LinkMatch.

Section LinkText.
Local Open Scope string_scope.

(** **** [strip] and [split] on the text of the command *)

Lemma rstrip_spaces (b : string) : all_in is_space b = true -> rstrip b = "".
Proof.
  induction b as [|c b IH]; cbn [all_in rstrip]; [reflexivity|].
  intros H. apply andb_true_iff in H. destruct H as [Hc Hb].
  rewrite (IH Hb), Hc. reflexivity.
Qed.

Lemma rstrip_app_spaces (a b : string) :
  all_in is_space b = true -> rstrip (a ++ b) = rstrip a.
Proof.
  intros Hb. induction a as [|c a IH]; cbn [append rstrip].
  - apply rstrip_spaces. exact Hb.
  - rewrite IH. reflexivity.
Qed.

Lemma rstrip_app (a b : string) :
  rstrip b <> "" -> rstrip (a ++ b) = a ++ rstrip b.
Proof.
  intros Hb. induction a as [|c a IH]; cbn [append rstrip]; [reflexivity|].
  rewrite IH. destruct (a ++ rstrip b) eqn:E; [|reflexivity].
  destruct a; [cbn [append] in E; contradiction|discriminate E].
Qed.

Lemma rstrip_nonempty_app (a b : string) :
  rstrip a <> "" -> rstrip (a ++ b) <> "".
Proof.
  induction a as [|c a IH]; cbn [append rstrip]; [intros H; contradiction|].
  intros H. destruct (rstrip (a ++ b)) eqn:E; [|discriminate].
  destruct (rstrip a) eqn:Ea.
  - destruct (is_space c); [contradiction|discriminate].
  - exfalso. apply IH; [discriminate|reflexivity].
Qed.

Lemma split_lines_plain (a : string) :
  all_in not_newline a = true -> split_lines a = [a]%list.
Proof.
  induction a as [|c a IH]; cbn [all_in split_lines]; [reflexivity|].
  intros H. apply andb_true_iff in H. destruct H as [Hc Ha].
  unfold not_newline in Hc. apply negb_true_iff in Hc. rewrite Hc.
  rewrite (IH Ha). reflexivity.
Qed.

Lemma split_lines_first (a rest : string) :
  all_in not_newline a = true ->
  split_lines (a ++ newline ++ rest) = (a :: split_lines rest)%list.
Proof.
  induction a as [|c a IH]; cbn [all_in append]; intros H.
  - reflexivity.
  - apply andb_true_iff in H. destruct H as [Hc Ha].
    unfold not_newline in Hc. apply negb_true_iff in Hc.
    cbn [split_lines]. rewrite Hc, (IH Ha). reflexivity.
Qed.

Lemma digit_not_newline (c : ascii) :
  is_digit c = true -> not_newline c = true.
Proof.
  unfold not_newline. destruct (Ascii.eqb_spec c (ascii_of_nat 10)) as [->|_];
    [discriminate|reflexivity].
Qed.

Lemma not_space_not_newline (c : ascii) :
  not_space c = true -> not_newline c = true.
Proof.
  unfold not_newline. destruct (Ascii.eqb_spec c (ascii_of_nat 10)) as [->|_];
    [discriminate|reflexivity].
Qed.

Lemma link_line_plain (l : link) :
  well_formed_link l = true -> all_in not_newline (link_line l) = true.
Proof.
  intros H.
  destruct (well_formed_link_parts l H)
    as (Hi & Hm & Hn & Hf & Hfn & Hrn & _).
  destruct (py_str_digits _ Hi) as [Di _].
  destruct (py_str_digits _ Hm) as [Dm _].
  unfold link_line. rewrite !all_in_append, Hfn, Hrn.
  rewrite (all_in_weaken is_digit not_newline _ digit_not_newline
             (run_of_all _ _ Di)).
  rewrite (all_in_weaken is_digit not_newline _ digit_not_newline
             (run_of_all _ _ Dm)).
  rewrite (all_in_weaken not_space not_newline _ not_space_not_newline
             (run_of_all _ _ Hn)).
  reflexivity.
Qed.

Lemma rstrip_link_line (l : link) :
  well_formed_link l = true ->
  rstrip (link_line l) = link_line l /\ rstrip (link_line l) <> "".
Proof.
  intros H.
  destruct (well_formed_link_parts l H)
    as (Hi & Hm & Hn & Hf & Hfn & Hrn & _ & _ & Hr).
  destruct (py_str_digits _ Hm) as [Dm _].
  assert (Hd : rstrip (py_str (link_mtu l)) = py_str (link_mtu l))
    by (apply rstrip_no_space, digits_not_space; exact Dm).
  assert (Hne : py_str (link_mtu l) <> "")
    by (intros E; rewrite E in Dm; discriminate Dm).
  assert (Ht : rstrip (py_str (link_mtu l) ++ link_rest l)
               = py_str (link_mtu l) ++ link_rest l).
  { destruct (link_rest l) as [|c t] eqn:E.
    - rewrite (rstrip_app_spaces _ "") by reflexivity.
      rewrite Hd. clear. induction (py_str (link_mtu l)); cbn; congruence.
    - rewrite rstrip_app; rewrite Hr; [reflexivity|discriminate]. }
  assert (Hte : py_str (link_mtu l) ++ link_rest l <> "").
  { destruct (py_str (link_mtu l)); [contradiction|discriminate]. }
  assert (E : link_line l
              = (py_str (link_index l) ++ ": " ++ link_name l ++ ":"
                 ++ link_flags l ++ "mtu ")
                ++ py_str (link_mtu l) ++ link_rest l).
  { unfold link_line. rewrite !append_assoc. reflexivity. }
  rewrite E. rewrite rstrip_app by (rewrite Ht; exact Hte). rewrite Ht.
  split; [reflexivity|].
  destruct (py_str (link_index l) ++ ": " ++ link_name l ++ ":"
            ++ link_flags l ++ "mtu ") eqn:Ea.
  - exact Hte.
  - discriminate.
Qed.

Lemma lstrip_ip_text (l : link) (rest : string) :
  well_formed_link l = true ->
  lstrip (link_line l ++ rest) = link_line l ++ rest.
Proof.
  intros H. destruct (well_formed_link_parts l H) as (Hi & _).
  destruct (py_str_digits _ Hi) as [Di _].
  apply lstrip_head. unfold link_line. rewrite !append_assoc.
  apply digit_head_not_space. exact Di.
Qed.

Lemma lines_of_ip_text (links : list link) :
  forall l,
    well_formed_link l = true ->
    Forall (fun x => well_formed_link x = true) links ->
    rstrip (ip_text (l :: links)) <> "" /\
    split_lines (rstrip (ip_text (l :: links)))
    = map link_line (l :: links).
Proof.
  induction links as [|l' links IH]; intros l Hl Hall.
  - cbn [ip_text map]. destruct (rstrip_link_line l Hl) as [E Hne].
    rewrite (rstrip_app_spaces (link_line l) (newline ++ ""))
      by reflexivity.
    rewrite E. split; [rewrite <- E; exact Hne|].
    apply split_lines_plain. apply link_line_plain. exact Hl.
  - inversion Hall as [|? ? Hl' Hrest]; subst.
    destruct (IH l' Hl' Hrest) as [Hne E].
    change (ip_text (l :: l' :: links))
      with (link_line l ++ newline ++ ip_text (l' :: links)).
    assert (X : rstrip (link_line l ++ newline ++ ip_text (l' :: links))
                = link_line l ++ newline ++ rstrip (ip_text (l' :: links))).
    { rewrite <- append_assoc. rewrite rstrip_app by exact Hne.
      rewrite append_assoc. reflexivity. }
    rewrite X. split.
    + destruct (link_line l) eqn:El; [|discriminate].
      destruct (rstrip_link_line l Hl) as [_ Hn]. rewrite El in Hn.
      contradiction.
    + rewrite split_lines_first by (apply link_line_plain; exact Hl).
      rewrite E. reflexivity.
Qed.

Lemma strip_ip_text (l : link) (links : list link) :
  well_formed_link l = true ->
  Forall (fun x => well_formed_link x = true) links ->
  split_lines (strip (ip_text (l :: links))) = map link_line (l :: links).
Proof.
  intros Hl Hall. unfold strip.
  change (ip_text (l :: links))
    with (link_line l ++ newline ++ ip_text links) at 1.
  rewrite lstrip_ip_text by exact Hl.
  apply (lines_of_ip_text links l Hl Hall).
Qed.

End LinkText.

Section DetectionTheorems.
Local Open Scope string_scope.

Lemma py_int_text_run (d : string) :
  run_of is_digit d = true -> py_int_text d = digits d.
Proof.
  intros H. unfold py_int_text. rewrite (strip_digits d H).
  pose proof (run_of_all _ _ H) as Ha.
  destruct d as [|c d]; [discriminate|].
  cbn [all_in] in Ha. apply andb_true_iff in Ha. destruct Ha as [Hc Hd].
  pose proof (digit_not_sign c Hc) as X. unfold is_sign in X.
  apply orb_false_iff in X. destruct X as [Ep Em]. rewrite Em, Ep.
  cbn [int_digits]. rewrite Hc. rewrite int_digits_run by exact Hd.
  unfold digits. cbn [digits_from]. rewrite Hc. reflexivity.
Qed.

Lemma unspecified_not_requested (interface : option string) (name : string) :
  unspecified interface = true -> requested interface name = false.
Proof.
  destruct interface as [i|]; cbn [unspecified requested]; [|reflexivity].
  intros H. apply negb_true_iff in H. rewrite H. reflexivity.
Qed.

Lemma ip_loop_links (interface : option string) (links : list link) :
  unspecified interface = true ->
  Forall (fun l => well_formed_link l = true) links ->
  forall all,
    ip_loop interface (map link_line links) all
    = Some (select interface (record_links links all) "ip_command_auto").
Proof.
  intros Hu. induction 1 as [|l links Hl Hall IH]; intros all;
    cbn [map ip_loop record_links]; [reflexivity|].
  rewrite (match_link l Hl).
  destruct (well_formed_link_parts l Hl) as (_ & Hm & _).
  destruct (py_str_digits _ Hm) as [Dm Vm].
  cbn [group nth_error Nat.sub bind].
  rewrite (py_int_text_run _ Dm), Vm. cbn [bind].
  destruct (String.eqb (link_name l) "lo"); [apply IH|].
  rewrite unspecified_not_requested by exact Hu. apply IH.
Qed.

Lemma ifconfig_loop_headers (interface : option string)
    (lines : list string) :
  forallb (fun line => negb (contains "mtu" (lower line))
                       || names_its_line line) lines = true ->
  forall current all,
    ifconfig_loop interface lines current all
    = Some (select interface all "ifconfig_auto").
Proof.
  induction lines as [|line rest IH]; intros H current all;
    cbn [ifconfig_loop]; [reflexivity|].
  cbn [forallb] in H. apply andb_true_iff in H. destruct H as [Hl Hr].
  unfold names_its_line in Hl.
  destruct (match_at iface_re line) as [[m tail]|] eqn:E.
  - destruct (iface_groups _ _ _ E) as (name & -> & _).
    cbn [group nth_error Nat.sub bind]. apply IH. exact Hr.
  - rewrite orb_false_r in Hl. apply negb_true_iff in Hl.
    destruct current as [cur|]; [rewrite Hl, andb_false_r|];
      apply IH; exact Hr.
Qed.

(** X16: the loopback is never reported.  Whatever the commands print and
    [/sys/class/net] holds, and whichever interface is asked for, also
    [lo] itself, the function returns, the interfaces it lists do not
    include [lo], and the interface it names is not [lo]. *)
Theorem loopback_is_never_reported (net : Net) (interface : option string) :
  exists r,
    detect_network_mtu net interface = Some r /\
    dict_get (all_interfaces r) "lo" = None /\
    found_interface r <> Some "lo".
Proof.
  destruct (detect_network_mtu_sound net interface) as (r & E & Hf & Hr).
  exists r. split; [exact E|]. split; [exact Hf|].
  destruct Hr as [(_ & name & value & how & (Hn & _) & Hlo & _)|(Hn & _)];
    rewrite Hn; [|discriminate].
  intros X. injection X as X. contradiction.
Qed.

(** X17: an interface that is asked for is the only one named.  When a
    name is given, the function returns either nothing (no interface, no
    MTU, method [failed]) or that very name, with the MTU recorded for it
    among the listed interfaces, by one of the methods [ip_command],
    [ifconfig], [sysfs]; it never falls back to another interface. *)
Theorem requested_interface_or_nothing (net : Net) (name : string) :
  nonempty name = true ->
  exists r,
    detect_network_mtu net (Some name) = Some r /\
    (nothing_found r \/
     exists value how,
       names r name value how /\
       dict_get (all_interfaces r) name = Some value /\
       (how = "ip_command" \/ how = "ifconfig" \/ how = "sysfs")).
Proof.
  intros Hn.
  destruct (detect_network_mtu_sound net (Some name)) as (r & E & _ & Hr).
  exists r. split; [exact E|].
  destruct Hr as [(_ & n & value & how & Hnames & _ & Hs)|Hnone];
    [|left; exact Hnone].
  cbn [unspecified] in Hs. rewrite Hn in Hs. cbn [negb] in Hs.
  destruct Hs as (Ei & Hg & Hh). injection Ei as <-.
  right. exists value, how. auto.
Qed.

(** X18: without a name, the first interface of the highest MTU.  When no
    interface is asked for ([None] or the empty string), the function
    returns either nothing or, by one of the methods [ip_command_auto],
    [ifconfig_auto], [sysfs_auto], an interface that is listed with the
    MTU returned, before which every listed interface has a smaller MTU
    and after which none has a larger one. *)
Theorem auto_selects_first_highest (net : Net) (interface : option string) :
  unspecified interface = true ->
  exists r,
    detect_network_mtu net interface = Some r /\
    (nothing_found r \/
     exists name value how,
       names r name value how /\
       first_highest name value (all_interfaces r) /\
       (how = "ip_command_auto" \/ how = "ifconfig_auto"
        \/ how = "sysfs_auto")).
Proof.
  intros Hu.
  destruct (detect_network_mtu_sound net interface) as (r & E & _ & Hr).
  exists r. split; [exact E|].
  destruct Hr as [(_ & n & value & how & Hnames & _ & Hs)|Hnone];
    [|left; exact Hnone].
  rewrite Hu in Hs. right. exists n, value, how. tauto.
Qed.

(** X19: the lines of [ip -o link show] are read as they are meant.  When
    the command prints well-formed lines, one per link, of which at least
    one is not the loopback, and no interface is asked for, the function
    returns by the method [ip_command_auto]; it lists every link but the
    loopback with the MTU of its line, and names the first of those with
    the highest MTU. *)
Theorem ip_links_are_read (net : Net) (interface : option string)
    (links : list link) :
  unspecified interface = true ->
  check_output net "ip -o link show" = Some (ip_text links) ->
  Forall (fun l => well_formed_link l = true) links ->
  record_links links [] <> [] ->
  exists name value,
    detect_network_mtu net interface
    = Some (found name value (record_links links []) "ip_command_auto") /\
    first_highest name value (record_links links []).
Proof.
  intros Hu Hc Hall Hne.
  destruct links as [|l links]; [contradiction|].
  inversion Hall as [|? ? Hl Hrest]; subst.
  unfold detect_network_mtu. cbv zeta. rewrite Hc.
  rewrite (strip_ip_text l links Hl Hrest).
  rewrite (ip_loop_links interface (l :: links) Hu Hall).
  unfold select.
  destruct (record_links (l :: links) []) as [|item rest] eqn:E;
    [contradiction|].
  rewrite Hu. cbn [bind].
  exists (fst (max_item item rest)), (snd (max_item item rest)).
  split; [reflexivity|]. apply max_item_first.
Qed.

(** X20: an MTU on the line that names the interface is not seen by the
    [ifconfig] stage.  When [ip] fails, [/sys/class/net] is absent, no
    interface is asked for and every line of the output of [ifconfig]
    that holds [mtu] begins with a name and a colon, as the lines of
    net-tools 2 do, the function finds nothing and lists no interface. *)
Theorem ifconfig_header_lines_hide_mtu (net : Net)
    (interface : option string) (output : string) :
  unspecified interface = true ->
  check_output net "ip -o link show" = None ->
  check_output net "ifconfig" = Some output ->
  sys_class_net net = None ->
  mtu_on_header_lines output = true ->
  detect_network_mtu net interface
  = Some {| found_interface := None; found_mtu := None;
            all_interfaces := []; method := Some "failed" |}.
Proof.
  intros Hu Hip Hif Hsys Hh.
  unfold detect_network_mtu. cbv zeta. rewrite Hip. cbn [bind].
  assert (Ec : match interface with
               | Some i => if nonempty i then "ifconfig " ++ i else "ifconfig"
               | None => "ifconfig"
               end = "ifconfig").
  { destruct interface as [i|]; [|reflexivity].
    cbn [unspecified] in Hu. apply negb_true_iff in Hu. rewrite Hu.
    reflexivity. }
  rewrite Ec, Hif.
  rewrite (ifconfig_loop_headers interface (split_lines output) Hh).
  cbn [select bind]. rewrite Hsys. reflexivity.
Qed.

End DetectionTheorems.

Lemma requested_interface_or_nothing_witness :
  exists r,
    detect_network_mtu (ip_only (ip_text sample_links)) (Some "wlan0"%string)
    = Some r /\
    (nothing_found r \/
     exists value how,
       names r "wlan0" value how /\
       dict_get (all_interfaces r) "wlan0" = Some value /\
       (how = "ip_command" \/ how = "ifconfig" \/ how = "sysfs")%string).
Proof.
  apply (requested_interface_or_nothing (ip_only (ip_text sample_links))
           "wlan0"). reflexivity.
Defined.

Lemma auto_selects_first_highest_witness :
  exists r,
    detect_network_mtu (ip_only (ip_text sample_links)) None = Some r /\
    (nothing_found r \/
     exists name value how,
       names r name value how /\
       first_highest name value (all_interfaces r) /\
       (how = "ip_command_auto" \/ how = "ifconfig_auto"
        \/ how = "sysfs_auto")%string).
Proof.
  apply (auto_selects_first_highest (ip_only (ip_text sample_links)) None).
  reflexivity.
Defined.

Lemma ip_links_are_read_witness :
  exists name value,
    detect_network_mtu (ip_only (ip_text sample_links)) None
    = Some (found name value (record_links sample_links [])
              "ip_command_auto") /\
    first_highest name value (record_links sample_links []).
Proof.
  apply (ip_links_are_read (ip_only (ip_text sample_links)) None
           sample_links).
  - reflexivity.
  - reflexivity.
  - repeat (constructor; [reflexivity|]). constructor.
  - discriminate.
Defined.

Lemma ifconfig_header_lines_hide_mtu_witness :
  detect_network_mtu (ifconfig_only sample_ifconfig) None
  = Some {| found_interface := None; found_mtu := None;
            all_interfaces := []; method := Some "failed"%string |}.
Proof.
  apply (ifconfig_header_lines_hide_mtu (ifconfig_only sample_ifconfig) None
           sample_ifconfig); reflexivity.
Defined.

(** *** From the computed configuration to the report *)

Section Workflow.

Variable np_std : list Q -> Q.

(** X21: the configuration that the program computes becomes the
    reference of the monitor.  For an MTU of at least 28 bytes and at most
    [max_ip_mtu], when the
    home configuration file holds the text that [generate_config] writes
    for the cycle time of [calculate_cycle_time_for_48k] (any other
    settings, an interface name without a capital C), a run of a monitor
    that was given no cycle time takes that cycle time, which is not zero,
    as its reference and announces it as coming from the configuration,
    whatever the journal holds. *)
Theorem computed_config_is_the_reference (w : World) (self : DirettaMonitor)
    (n m : Z) (dsd : bool) (t : Z) (p : Calculator.FrameParams)
    (period_min period_max period_size_min period_size_max sync_buffer
     latency_buffer thred_mode : Z) (interface : string)
    (cpu_send cpu_other : Z) :
  (28 <= m <= max_ip_mtu)%Z ->
  calculate_cycle_time_for_48k (Calculator.new_calculator m) dsd
  = Some (t, p) ->
  all_in not_C interface = true ->
  home_setting_inf w
  = Some (generate_config t period_min period_max period_size_min
            period_size_max sync_buffer latency_buffer thred_mode interface
            cpu_send cpu_other) ->
  cycle_time_us self = None ->
  truthy (inject_Z t) = true /\
  cycle_time_us (snd (analyze_recent_logs np_std w self n))
  = Some (inject_Z t) /\
  In [T "Expected CycleTime: "; Fixed 1 (inject_Z t);
      T " μs (from configuration)"]
     (fst (analyze_recent_logs np_std w self n)).
Proof.
  intros [Hm _] Hc Hi Hw Hs.
  destruct (cycle_time_for_48k_eval m dsd Hm) as (p' & _ & Hc' & Hct).
  rewrite Hc in Hc'. apply Some_inj in Hc'.
  assert (Ht : (5 <= t)%Z).
  { assert (E : t = (py_round (Calculator.cycle_time_us p' / 5) * 5)%Z)
      by congruence.
    assert (H1 : (1 <= py_round (Calculator.cycle_time_us p' / 5))%Z).
    { apply py_round_monotone_low. change (inject_Z 1) with 1%Q.
      assert (E5 : (Calculator.cycle_time_us p' / 5
                    == Calculator.cycle_time_us p' * (1 # 5))%Q)
        by reflexivity.
      lra. }
    lia. }
  assert (Hy : truthy (inject_Z t) = true).
  { unfold truthy. rewrite Qeq_bool_inject.
    destruct (Z.eqb_spec t 0); [lia|reflexivity]. }
  assert (Hb : before_logs w self = Some (inject_Z t)).
  { unfold before_logs, _detect_cycle_time. rewrite Hs, Hw.
    apply detect_in_generated; [lia|exact Hi]. }
  split; [exact Hy|]. split.
  - rewrite run_state, Hb. unfold after_logs. cbn [truthy_opt].
    rewrite Hy. reflexivity.
  - destruct (run_report_opens np_std w self n) as [rest ->].
    apply in_or_app. left. apply opening_shows_reference; assumption.
Qed.

End Workflow.

Lemma computed_config_is_the_reference_witness :
  truthy (inject_Z 2930) = true /\
  cycle_time_us
    (snd (analyze_recent_logs (fun _ => 0)
            (world_with "2026-01-01 00:00:00"
               (Some (generate_config 2930 4 8 2048 8192 6 0 257 "enp5s0"
                        1 2))
               sample_line)
            fresh_monitor 1000))
  = Some (inject_Z 2930) /\
  In [T "Expected CycleTime: "; Fixed 1 (inject_Z 2930);
      T " μs (from configuration)"]
     (fst (analyze_recent_logs (fun _ => 0)
             (world_with "2026-01-01 00:00:00"
                (Some (generate_config 2930 4 8 2048 8192 6 0 257 "enp5s0"
                         1 2))
                sample_line)
             fresh_monitor 1000)).
Proof.
  eapply (computed_config_is_the_reference (fun _ => 0) _ fresh_monitor 1000
            9024 true 2930 _ 4 8 2048 8192 6 0 257 "enp5s0" 1 2).
  - unfold max_ip_mtu. lia.
  - vm_compute. reflexivity.
  - reflexivity.
  - reflexivity.
  - reflexivity.
Defined.
